(** * Verifiable-credential wallet: proof options, linked-data proofs,
      presentation assembly, verification and profile creation.

    Shallow embedding of the wallet of package [wallet].  Go functions
    that return [(T, error)] become state transformers over a
    [World] returning [error + T]; pointer arguments that the code mutates
    ([*ProofOptions], the [provable] document) are returned in their updated
    form.  The collaborators the wallet is handed (storage provider, VDR,
    crypto, the [verifiable] document package) are gathered in one record. *)

From stdpp Require Import gmap strings list.

Open Scope string_scope.

(** ** Go errors *)

Module GoError.

(** [errors.New] / [fmt.Errorf] without a verb build an [errorString];
    [fmt.Errorf("msg: %w", err)] wraps its cause. *)
Inductive error : Type :=
| errorString (msg : string)
| wrapError (msg : string) (cause : error).

Fixpoint Error (e : error) : string :=
  match e with
  | errorString msg => msg
  | wrapError msg cause => msg ++ ": " ++ Error cause
  end.

(** [errors.Unwrap] iterated to the innermost error. *)
Fixpoint rootCause (e : error) : error :=
  match e with
  | errorString _ => e
  | wrapError _ cause => rootCause cause
  end.

End GoError.
Export GoError.

(** ** Data model *)

(** [json.RawMessage] is a byte slice. *)
Definition RawMessage : Type := list Byte.byte.

(** Proof types. *)
Definition Ed25519Signature2018 : string := "Ed25519Signature2018".
Definition JSONWebSignature2020 : string := "JsonWebSignature2020".
Definition BbsBlsSignature2020 : string := "BbsBlsSignature2020".

(** miscellaneous constants. *)
Definition bbsContext : string := "https://w3id.org/security/bbs/v1".

(** [verifiable.SignatureRepresentation]. *)
Inductive SignatureRepresentation : Type :=
| SignatureProofValue
| SignatureJWS.

(** [did.VerificationRelationship]. *)
Inductive VerificationRelationship : Type :=
| VerificationRelationshipGeneral
| Authentication
| AssertionMethod
| CapabilityDelegation
| CapabilityInvocation
| KeyAgreement.

Definition defaultSignatureRepresentation : SignatureRepresentation := SignatureJWS.

(** The Go map [supportedRelationships]; indexing a Go map at a missing key
    yields the zero value, here the empty string. *)
Definition supportedRelationshipsTable : list (VerificationRelationship * string) :=
  [ (Authentication, "authentication");
    (AssertionMethod, "assertionMethod") ].

#[global] Instance VerificationRelationship_eq_dec : EqDecision VerificationRelationship.
Proof. solve_decision. Defined.

Fixpoint mapIndex (tbl : list (VerificationRelationship * string))
         (k : VerificationRelationship) : string :=
  match tbl with
  | [] => ""
  | (k', v) :: rest => if decide (k' = k) then v else mapIndex rest k
  end.

Definition supportedRelationships (r : VerificationRelationship) : string :=
  mapIndex supportedRelationshipsTable r.

(** Modelled from the spec: the DID document shape of package [did], which is
    not part of this file: "[{ id, verificationMethod[], authentication[],
    assertionMethod[], keyAgreement[], ... }]"; the wallet reads only the
    verification relationships. *)
Record VerificationMethod : Type := mkVerificationMethod {
  vmID : string;
  vmType : string;
  vmValue : RawMessage
}.

Record Verification : Type := mkVerification {
  verVerificationMethod : VerificationMethod;
  verRelationship : VerificationRelationship
}.

Record Doc : Type := mkDoc {
  docID : string;
  docVerificationMethod : list VerificationMethod;
  docAuthentication : list Verification;
  docAssertionMethod : list Verification;
  docCapabilityDelegation : list Verification;
  docCapabilityInvocation : list Verification;
  docKeyAgreement : list Verification
}.

(** Modelled from the spec: [didDoc.VerificationMethods(r)[r]] of package
    [did], the verification methods of the document for relationship [r]
    (an absent map entry reads as the nil slice). *)
Definition VerificationMethods (d : Doc) (r : VerificationRelationship) : list Verification :=
  match r with
  | VerificationRelationshipGeneral =>
      map (fun vm => mkVerification vm VerificationRelationshipGeneral)
          (docVerificationMethod d)
  | Authentication => docAuthentication d
  | AssertionMethod => docAssertionMethod d
  | CapabilityDelegation => docCapabilityDelegation d
  | CapabilityInvocation => docCapabilityInvocation d
  | KeyAgreement => docKeyAgreement d
  end.

Record DocResolution : Type := mkDocResolution {
  DIDDocument : Doc
}.

(** [ProofOptions]: the fields the wallet reads and writes.  [Created] is a
    [*time.Time] and [ProofRepresentation] a [*SignatureRepresentation]; a nil
    pointer is [None]. *)
Record ProofOptions : Type := mkProofOptions {
  Controller : string;
  VerificationMethodID : string;
  Created : option string;
  Domain : string;
  Challenge : string;
  ProofType : string;
  ProofRepresentation : option SignatureRepresentation
}.

Definition setVerificationMethod (o : ProofOptions) (v : string) : ProofOptions :=
  mkProofOptions (Controller o) v (Created o) (Domain o) (Challenge o)
                 (ProofType o) (ProofRepresentation o).

Definition setProofRepresentation (o : ProofOptions) (r : SignatureRepresentation) : ProofOptions :=
  mkProofOptions (Controller o) (VerificationMethodID o) (Created o) (Domain o)
                 (Challenge o) (ProofType o) (Some r).

Definition setProofType (o : ProofOptions) (t : string) : ProofOptions :=
  mkProofOptions (Controller o) (VerificationMethodID o) (Created o) (Domain o)
                 (Challenge o) t (ProofRepresentation o).

(** A linked-data proof block attached to a document. *)
Record Proof : Type := mkProof {
  proofType : string;
  proofCreated : option string;
  proofVerificationMethod : string;
  proofPurpose : string;
  proofDomain : string;
  proofChallenge : string;
  proofRepresentation : SignatureRepresentation;
  proofSignature : string
}.

(** [verifiable.Credential] and [verifiable.Presentation]: the fields the
    wallet touches, the remaining JSON kept opaque. *)
Record Credential : Type := mkCredential {
  vcContext : list string;
  vcID : string;
  vcBody : RawMessage;
  vcProofs : list Proof
}.

Record Presentation : Type := mkPresentation {
  vpContext : list string;
  vpHolder : string;
  vpBody : RawMessage;
  vpCredentials : list Credential;
  vpProofs : list Proof
}.

Definition setContext (vc : Credential) (ctx : list string) : Credential :=
  mkCredential ctx (vcID vc) (vcBody vc) (vcProofs vc).

Definition setHolder (vp : Presentation) (h : string) : Presentation :=
  mkPresentation (vpContext vp) h (vpBody vp) (vpCredentials vp) (vpProofs vp).

(** [Presentation.AddCredentials]. *)
Definition AddCredentials (vp : Presentation) (cs : list Credential) : Presentation :=
  mkPresentation (vpContext vp) (vpHolder vp) (vpBody vp) (vpCredentials vp ++ cs) (vpProofs vp).

(** A value of interface type [provable] carries its dynamic type: a
    [*verifiable.Credential] or a [*verifiable.Presentation]. *)
Inductive provableKind : Type := isCredential | isPresentation.

Definition provable (k : provableKind) : Type :=
  match k with
  | isCredential => Credential
  | isPresentation => Presentation
  end.

Definition provableProofs {k : provableKind} : provable k -> list Proof :=
  match k with
  | isCredential => vcProofs
  | isPresentation => vpProofs
  end.

Definition appendProof {k : provableKind} : provable k -> Proof -> provable k :=
  match k with
  | isCredential => fun vc p =>
      mkCredential (vcContext vc) (vcID vc) (vcBody vc) (vcProofs vc ++ [p])
  | isPresentation => fun vp p =>
      mkPresentation (vpContext vp) (vpHolder vp) (vpBody vp) (vpCredentials vp)
                     (vpProofs vp ++ [p])
  end.

(** ** Signing context *)

(** The signer [newKMSSigner] hands to a signature suite: a KMS handle bound
    to the key of the chosen verification method. *)
Record Signer : Type := mkSigner {
  signerKMS : string;
  signerKeyID : string
}.

(** [signer.SignatureSuite]: the three suites the wallet constructs. *)
Inductive SignatureSuite : Type :=
| ed25519signature2018_New (s : Signer)
| jsonwebsignature2020_New (s : Signer)
| bbsblssignature2020_New (s : Signer).

(** A JSON-LD caching document loader: the documents added to it by URL. *)
Record DocumentLoader : Type := mkDocumentLoader {
  loaderDocuments : list (string * RawMessage)
}.

Definition AddDocument (l : DocumentLoader) (url : string) (doc : RawMessage) : DocumentLoader :=
  mkDocumentLoader (loaderDocuments l ++ [(url, doc)]).

Inductive ProcessorOpts : Type :=
| WithDocumentLoader (l : DocumentLoader).

(** [verifiable.LinkedDataProofContext]. *)
Record LinkedDataProofContext : Type := mkLinkedDataProofContext {
  ctxVerificationMethod : string;
  ctxSignatureRepresentation : SignatureRepresentation;
  ctxSignatureType : string;
  ctxSuite : SignatureSuite;
  ctxCreated : option string;
  ctxDomain : string;
  ctxChallenge : string;
  ctxPurpose : string
}.

(** ** Profiles and wallet contents *)

(** Modelled from the spec: the profile record of the profile store, which
    lives in another file of the package: "[{ userID, kmsBinding }] where
    [kmsBinding] is one of: [{passphrase}], [{secretLockService}], or
    [{remoteKeyServerURL}]". *)
Inductive kmsBinding : Type :=
| bindPassphrase (passphrase : string)
| bindSecretLock (secretLockSvc : string)
| bindKeyServer (keyServerURL : string).

Record profile : Type := mkProfile {
  profileUser : string;
  profileBinding : kmsBinding
}.

(** [kmsOpts], filled by the variadic [ProfileKeyManagerOptions]; a nil
    [secretlock.Service] is [None]. *)
Record kmsOpts : Type := mkKmsOpts {
  passphrase : string;
  secretLockSvc : option string;
  keyServerURL : string
}.

Definition ProfileKeyManagerOptions : Type := kmsOpts -> kmsOpts.

Definition WithPassphrase (p : string) : ProfileKeyManagerOptions :=
  fun o => mkKmsOpts p (secretLockSvc o) (keyServerURL o).
Definition WithSecretLockService (s : string) : ProfileKeyManagerOptions :=
  fun o => mkKmsOpts (passphrase o) (Some s) (keyServerURL o).
Definition WithKeyServerURL (u : string) : ProfileKeyManagerOptions :=
  fun o => mkKmsOpts (passphrase o) (secretLockSvc o) u.

(** The options applied in turn to an empty [kmsOpts]. *)
Definition getKmsOpts (options : list ProfileKeyManagerOptions) : kmsOpts :=
  fold_left (fun o opt => opt o) options (mkKmsOpts "" None "").

(** [ContentType] of the wallet content store. *)
Inductive ContentType : Type :=
| Collection
| Credential_
| DIDResolutionResponse
| Metadata
| Connection
| Key.

Definition contentTypeName (ct : ContentType) : string :=
  match ct with
  | Collection => "collection"
  | Credential_ => "credential"
  | DIDResolutionResponse => "didResolutionResponse"
  | Metadata => "metadata"
  | Connection => "connection"
  | Key => "key"
  end.

(** The wallet handle: the content owner it was opened for. *)
Record Wallet : Type := mkWallet {
  userID : string
}.

(** ** The world the wallet runs in *)

(** Calls the wallet makes on its collaborators, in the order made. *)
Inductive call : Type :=
| callProfileGet (user : string)
| callProfilePut (user : string)
| callContentGet (ct : ContentType) (contentID : string)
| callContentPut (ct : ContentType) (contentID : string)
| callContentDelete (ct : ContentType) (contentID : string)
| callVDRResolve (did : string)
| callParseCredential (raw : RawMessage) (proofCheck : bool)
| callParsePresentation (raw : RawMessage)
| callNewKMSSigner (authToken : string)
| callAddLinkedDataProof (k : provableKind) (ctx : LinkedDataProofContext).

(** Modelled from the spec: the storage provider behind the profile store and
    the content store: "[store.Put(key, bytes)], [Get(key) → bytes|NotFound],
    [Delete(key)]", with the persisted layout "[profile:<userID>] → JSON
    profile record" and "[content:<userID>:<contentType>:<contentID>] →
    opaque blob". *)
Record World : Type := mkWorld {
  profiles : gmap string profile;
  contents : gmap string RawMessage;
  calls : list call
}.

Definition profileKey (user : string) : string := "profile:" ++ user.

Definition contentKey (user : string) (ct : ContentType) (contentID : string) : string :=
  "content:" ++ user ++ ":" ++ contentTypeName ct ++ ":" ++ contentID.

(** A public key handed to a signature suite for verification. *)
Record PublicKey : Type := mkPublicKey {
  pkType : string;
  pkValue : RawMessage
}.

Definition PublicKeyFetcher : Type := string -> string -> error + PublicKey.

(** What the wallet is given and does not implement: the external VDR, the
    KMS-backed signer, and the JSON and proof machinery of the [verifiable]
    and JSON-LD packages. *)
Record Env : Type := mkEnv {
  (** [vdr.Registry.Resolve]. *)
  vdrResolve : string -> error + DocResolution;
  (** decoding of a stored DID resolution response. *)
  decodeDocResolution : RawMessage -> error + DocResolution;
  (** JSON decoding and data-model validation of a credential. *)
  decodeCredential : RawMessage -> error + Credential;
  (** check of the embedded proofs of a decoded credential. *)
  checkCredentialProofs : option PublicKeyFetcher -> Credential -> option error;
  decodePresentation : RawMessage -> error + Presentation;
  checkPresentationProofs : option PublicKeyFetcher -> Presentation -> option error;
  (** [json.Marshal] of an embedded credential. *)
  marshalCredential : Credential -> error + RawMessage;
  (** [newKMSSigner]: the session registry and crypto behind an auth token. *)
  newKMSSigner : string -> ProofOptions -> error + Signer;
  (** canonicalisation and signing of a document by a suite. *)
  signDocument : forall k : provableKind,
      provable k -> LinkedDataProofContext -> list ProcessorOpts -> error + string;
  (** [presexch.CachingJSONLDLoader] and [ld.DocumentFromReader]. *)
  CachingJSONLDLoader : DocumentLoader;
  DocumentFromReader : string -> error + RawMessage;
  (** the bundled BBS v1 context document. *)
  contextBBSContent : string;
  (** the context and type a fresh presentation starts with. *)
  basePresentation : Presentation;
  (** [newProfileStore] on the storage provider of the context: nil, or the
      error of opening the profile store. *)
  openProfileStore : option error
}.

(** ** State passing *)

Definition St (A : Type) : Type := World -> A * World.

Definition ret {A : Type} (a : A) : St A := fun w => (a, w).

Definition bind {A B : Type} (m : St A) (k : A -> St B) : St B :=
  fun w => let '(a, w') := m w in k a w'.

Notation "'let*' x ':=' m 'in' k" := (bind m (fun x => k))
  (at level 10, x name, m at level 100, k at level 200).

Definition record (c : call) : St unit :=
  fun w => (tt, mkWorld (profiles w) (contents w) (calls w ++ [c])).

Definition getWorld : St World := fun w => (w, w).

Definition putProfiles (p : gmap string profile) : St unit :=
  fun w => (tt, mkWorld p (contents w) (calls w)).

Definition putContents (c : gmap string RawMessage) : St unit :=
  fun w => (tt, mkWorld (profiles w) c (calls w)).

(** ** Option bags *)

(** [verifiable.CredentialOpt] as the wallet uses it. *)
Inductive CredentialOpt : Type :=
| WithDisabledProofCheck
| WithPublicKeyFetcher (f : PublicKeyFetcher).

Inductive PresentationOpt : Type :=
| WithPresPublicKeyFetcher (f : PublicKeyFetcher).

Record credentialOpts : Type := mkCredentialOpts {
  disabledProofCheck : bool;
  publicKeyFetcher : option PublicKeyFetcher
}.

Definition applyCredentialOpt (o : credentialOpts) (opt : CredentialOpt) : credentialOpts :=
  match opt with
  | WithDisabledProofCheck => mkCredentialOpts true (publicKeyFetcher o)
  | WithPublicKeyFetcher f => mkCredentialOpts (disabledProofCheck o) (Some f)
  end.

Definition getCredentialOpts (opts : list CredentialOpt) : credentialOpts :=
  fold_left applyCredentialOpt opts (mkCredentialOpts false None).

(** [proveOpts], filled by the variadic [ProveOptions]. *)
Record proveOpts : Type := mkProveOpts {
  storedCredentials : list string;
  rawCredentials : list RawMessage;
  credentials : list Credential;
  presentation : option Presentation
}.

Definition ProveOptions : Type := proveOpts -> proveOpts.

Definition WithStoredCredentialsToProve (ids : list string) : ProveOptions :=
  fun o => mkProveOpts ids (rawCredentials o) (credentials o) (presentation o).
Definition WithRawCredentialsToProve (raws : list RawMessage) : ProveOptions :=
  fun o => mkProveOpts (storedCredentials o) raws (credentials o) (presentation o).
Definition WithCredentialsToProve (vcs : list Credential) : ProveOptions :=
  fun o => mkProveOpts (storedCredentials o) (rawCredentials o) vcs (presentation o).
Definition WithPresentationToProve (vp : Presentation) : ProveOptions :=
  fun o => mkProveOpts (storedCredentials o) (rawCredentials o) (credentials o) (Some vp).

(** The options applied in turn to an empty [proveOpts]. *)
Definition getProveOpts (creds : list ProveOptions) : proveOpts :=
  fold_left (fun o opt => opt o) creds (mkProveOpts [] [] [] None).

(** [verifyOpts], filled by the [VerificationOption]. *)
Record verifyOpts : Type := mkVerifyOpts {
  credentialID : string;
  rawCredential : RawMessage;
  rawPresentation : RawMessage
}.

Definition VerificationOption : Type := verifyOpts -> verifyOpts.

Definition WithStoredCredentialToVerify (id : string) : VerificationOption :=
  fun o => mkVerifyOpts id (rawCredential o) (rawPresentation o).
Definition WithRawCredentialToVerify (raw : RawMessage) : VerificationOption :=
  fun o => mkVerifyOpts (credentialID o) raw (rawPresentation o).
Definition WithRawPresentationToVerify (raw : RawMessage) : VerificationOption :=
  fun o => mkVerifyOpts (credentialID o) (rawCredential o) raw.

(** Modelled from the spec: the error kinds [NotFound] and [AlreadyExists] of
    the stores and the failure of the binding check, which the files of the
    stores define. *)
Definition NotFound : error := errorString "data not found".
Definition AlreadyExists : error := errorString "profile already exists for given user".
Definition invalidKMSOptions : error := errorString "invalid key manager options".

(** A nil pointer dereference aborts the call; the model returns this value
    where the Go code would panic. *)
Definition nilDereference : error :=
  errorString "runtime error: invalid memory address or nil pointer dereference".

(** ** The wallet *)

Section WalletOps.

Variable E : Env.

(** *** Profile store *)

(** Modelled from the spec: [profileStore.get], in another file of the
    package: "[get(userID) → profile | err(NotFound)]". *)
Definition profileStore_get (user : string) : St (error + profile) :=
  let* _ := record (callProfileGet user) in
  let* w := getWorld in
  match profiles w !! profileKey user with
  | Some p => ret (inr p)
  | None => ret (inl NotFound)
  end.

(** Modelled from the spec: [profileStore.save], in another file of the
    package: "[create(userID, binding) → err(AlreadyExists)],
    [update(userID, binding) → err(NotFound)]"; "Creation fails if a
    record exists; update fails if none exists." *)
Definition profileStore_save (val : profile) (override : bool) : St (option error) :=
  let* w := getWorld in
  match profiles w !! profileKey (profileUser val), override with
  | Some _, false => ret (Some AlreadyExists)
  | None, true => ret (Some NotFound)
  | _, _ =>
      let* _ := record (callProfilePut (profileUser val)) in
      let* _ := putProfiles (<[profileKey (profileUser val) := val]> (profiles w)) in
      ret None
  end.

(** Modelled from the spec: the completeness check of [createProfile] and
    [profile.setKMSOptions], in another file of the package: "The binding
    is validated for completeness (exactly one of the three variants is
    set) before persistence." *)
Definition completeBinding (pass : string) (lock : option string) (url : string)
  : error + kmsBinding :=
  match String.eqb pass "", lock, String.eqb url "" with
  | false, None, true => inr (bindPassphrase pass)
  | true, Some svc, true => inr (bindSecretLock svc)
  | true, None, false => inr (bindKeyServer url)
  | _, _, _ => inl invalidKMSOptions
  end.

Definition createProfile (user pass : string) (lock : option string) (url : string)
  : error + profile :=
  match completeBinding pass lock url with
  | inl err => inl err
  | inr b => inr (mkProfile user b)
  end.

Definition setKMSOptions (p : profile) (pass : string) (lock : option string) (url : string)
  : error + profile :=
  match completeBinding pass lock url with
  | inl err => inl err
  | inr b => inr (mkProfile (profileUser p) b)
  end.

(** [newProfileStore], in another file of the package, opens the profile
    store of the storage provider the context gives: it fails when the
    provider fails to open the store. *)
Definition newProfileStore : St (option error) := ret (openProfileStore E).

Definition createOrUpdate (user : string) (update : bool)
           (options : list ProfileKeyManagerOptions) : St (option error) :=
  let opts := getKmsOpts options in
  let* err := newProfileStore in
  match err with
  | Some err => ret (Some (wrapError "failed to get store to save VC wallet profile" err))
  | None =>
      let* r :=
        (if update then
           (* find existing profile and update it. *)
           let* r := profileStore_get user in
           match r with
           | inl err => ret (inl (wrapError "failed to update wallet user profile" err))
           | inr p =>
               match setKMSOptions p (passphrase opts) (secretLockSvc opts) (keyServerURL opts) with
               | inl err =>
                   ret (inl (wrapError "failed to update wallet user profile KMS options" err))
               | inr p => ret (inr p)
               end
           end
         else
           (* create new profile. *)
           match createProfile user (passphrase opts) (secretLockSvc opts) (keyServerURL opts) with
           | inl err => ret (inl (wrapError "failed to create new  wallet user profile" err))
           | inr p => ret (inr p)
           end) in
      match r with
      | inl err => ret (Some err)
      | inr p =>
          let* err := profileStore_save p update in
          match err with
          | Some err => ret (Some (wrapError "failed to save VC wallet profile" err))
          | None => ret None
          end
      end
  end.

Definition CreateProfile (user : string) (options : list ProfileKeyManagerOptions)
  : St (option error) :=
  createOrUpdate user false options.

Definition UpdateProfile (user : string) (options : list ProfileKeyManagerOptions)
  : St (option error) :=
  createOrUpdate user true options.

(** *** Content store and wallet VDR *)

(** Modelled from the spec: [contentStore.Get], in another file of the
    package: "[Get(contentType, contentID) → blob | err(NotFound)]". *)
Definition contents_Get (c : Wallet) (ct : ContentType) (id : string)
  : St (error + RawMessage) :=
  let* _ := record (callContentGet ct id) in
  let* w := getWorld in
  match contents w !! contentKey (userID c) ct id with
  | Some blob => ret (inr blob)
  | None => ret (inl NotFound)
  end.

(** Modelled from the spec: [contentStore.Remove], in another file of the
    package: "idempotent (removing a non-existent entry is a no-op)". *)
Definition contents_Remove (c : Wallet) (ct : ContentType) (id : string)
  : St (option error) :=
  let* _ := record (callContentDelete ct id) in
  let* w := getWorld in
  let* _ := putContents (delete (contentKey (userID c) ct id) (contents w)) in
  ret None.

Definition Remove (c : Wallet) (ct : ContentType) (id : string) : St (option error) :=
  contents_Remove c ct id.

Definition Get (c : Wallet) (ct : ContentType) (id : string) : St (error + RawMessage) :=
  contents_Get c ct id.

(** Modelled from the spec: [walletVDR.Resolve], in another file of the
    package: "A resolver that first tries [C2.Get(DIDResolutionResponse,
    did)] and, on hit, returns the stored DID Document; on miss, delegates
    to the injected external VDR." *)
Definition walletVDR_Resolve (c : Wallet) (did : string) : St (error + DocResolution) :=
  let* r := contents_Get c DIDResolutionResponse did in
  match r with
  | inr blob => ret (decodeDocResolution E blob)
  | inl _ =>
      let* _ := record (callVDRResolve did) in
      ret (vdrResolve E did)
  end.

Fixpoint findVerificationMethod (vms : list VerificationMethod) (keyID : string)
  : option VerificationMethod :=
  match vms with
  | [] => None
  | vm :: rest =>
      if String.eqb (vmID vm) keyID then Some vm else findVerificationMethod rest keyID
  end.

(** The wallet VDR as the function a key resolver closes over: the answer
    of [walletVDR_Resolve] for the content store [store]. *)
Definition walletVDR_Read (c : Wallet) (store : gmap string RawMessage) (did : string)
  : error + DocResolution :=
  match store !! contentKey (userID c) DIDResolutionResponse did with
  | Some blob => decodeDocResolution E blob
  | None => vdrResolve E did
  end.

(** Modelled from the spec: [verifiable.NewVDRKeyResolver(vdr).PublicKeyFetcher()]:
    "[(did, keyID) → publicKey] walks the DID Document's [verificationMethod]
    list matching [keyID]; returns the key material plus its declared type.
    Errors: [DIDNotResolvable], [KeyNotFound]."  The fetcher runs inside the
    proof check, over the content store as it stands. *)
Definition NewVDRKeyResolver (c : Wallet) (store : gmap string RawMessage) : PublicKeyFetcher :=
  fun did keyID =>
    match walletVDR_Read c store did with
    | inl err => inl (wrapError "DIDNotResolvable" err)
    | inr res =>
        match findVerificationMethod (docVerificationMethod (DIDDocument res)) keyID with
        | Some vm => inr (mkPublicKey (vmType vm) (vmValue vm))
        | None => inl (errorString "KeyNotFound")
        end
    end.

(** *** Parsing *)

(** Modelled from the spec: [verifiable.ParseCredential]: "Parse credential
    with proof-checking disabled" under [WithDisabledProofCheck], and
    otherwise "parse with C4 key fetcher; any parse-or-proof failure →
    [false] plus error". *)
Definition ParseCredential (raw : RawMessage) (opts : list CredentialOpt)
  : St (error + Credential) :=
  let o := getCredentialOpts opts in
  let* _ := record (callParseCredential raw (negb (disabledProofCheck o))) in
  match decodeCredential E raw with
  | inl err => ret (inl err)
  | inr vc =>
      if disabledProofCheck o then ret (inr vc)
      else
        match checkCredentialProofs E (publicKeyFetcher o) vc with
        | Some err => ret (inl err)
        | None => ret (inr vc)
        end
  end.

(** Modelled from the spec: [verifiable.ParsePresentation]: "parse
    presentation proof". *)
Definition ParsePresentation (raw : RawMessage) (opts : list PresentationOpt)
  : St (error + Presentation) :=
  let fetcher := fold_left (fun _ opt => match opt with
                                         | WithPresPublicKeyFetcher f => Some f
                                         end) opts None in
  let* _ := record (callParsePresentation raw) in
  match decodePresentation E raw with
  | inl err => ret (inl err)
  | inr vp =>
      match checkPresentationProofs E fetcher vp with
      | Some err => ret (inl err)
      | None => ret (inr vp)
      end
  end.

(** Modelled from the spec: [verifiable.NewPresentation(WithCredentials(...))]:
    "construct a fresh presentation containing them". *)
Definition NewPresentation (cs : list Credential) : error + Presentation :=
  inr (mkPresentation (vpContext (basePresentation E)) ""
                      (vpBody (basePresentation E)) cs []).

(** *** Proof engine *)

(** Modelled from the spec: [AddLinkedDataProof] of a credential or a
    presentation, in package [verifiable]: "Construct the linked-data proof
    context [{ verificationMethod, signatureRepresentation, signatureType,
    created, domain, challenge, purpose }] and attach it."  The signature
    value comes from the suite. *)
Definition AddLinkedDataProof {k : provableKind} (p : provable k)
           (context : LinkedDataProofContext) (jsonldOpts : list ProcessorOpts)
  : St (error + provable k) :=
  let* _ := record (callAddLinkedDataProof k context) in
  match signDocument E k p context jsonldOpts with
  | inl err => ret (inl err)
  | inr sig =>
      ret (inr (appendProof p
                  (mkProof (ctxSignatureType context) (ctxCreated context)
                           (ctxVerificationMethod context) (ctxPurpose context)
                           (ctxDomain context) (ctxChallenge context)
                           (ctxSignatureRepresentation context) sig)))
  end.

(** The loop of [addContext]: is [context] one of [ctxs]? *)
Fixpoint hasContext (ctxs : list string) (context : string) : bool :=
  match ctxs with
  | [] => false
  | ctx :: rest => if String.eqb ctx context then true else hasContext rest context
  end.

(** addContext adds context if not found in given data model. *)
Definition addContext {k : provableKind} : provable k -> string -> provable k :=
  match k with
  | isCredential => fun vc context =>
      if hasContext (vcContext vc) context then vc
      else setContext vc (vcContext vc ++ [context])
  | isPresentation => fun vp _ => vp
  end.

Definition bbsJSONLDDocumentLoader : error + DocumentLoader :=
  let loader := CachingJSONLDLoader E in
  match DocumentFromReader E (contextBBSContent E) with
  | inl err => inl err
  | inr reader => inr (AddDocument loader bbsContext reader)
  end.

(** The tail of [addLinkedDataProof], after the suite is chosen. *)
Definition signWith {k : provableKind} (p : provable k) (opts : ProofOptions)
           (relationship : VerificationRelationship) (signatureSuite : SignatureSuite)
           (processorOpts : list ProcessorOpts) : St (error + provable k) :=
  match ProofRepresentation opts with
  | None => ret (inl nilDereference)
  | Some representation =>
      let signingCtx :=
        mkLinkedDataProofContext (VerificationMethodID opts) representation
                                 (ProofType opts) signatureSuite (Created opts)
                                 (Domain opts) (Challenge opts)
                                 (supportedRelationships relationship) in
      let* r := AddLinkedDataProof p signingCtx processorOpts in
      match r with
      | inl err => ret (inl (wrapError "failed to add linked data proof" err))
      | inr p => ret (inr p)
      end
  end.

Definition addLinkedDataProof {k : provableKind} (authToken : string) (p : provable k)
           (opts : ProofOptions) (relationship : VerificationRelationship)
  : St (error + provable k) :=
  let* _ := record (callNewKMSSigner authToken) in
  match newKMSSigner E authToken opts with
  | inl err => ret (inl err)
  | inr s =>
      if String.eqb (ProofType opts) Ed25519Signature2018 then
        signWith p opts relationship (ed25519signature2018_New s) []
      else if String.eqb (ProofType opts) JSONWebSignature2020 then
        signWith p opts relationship (jsonwebsignature2020_New s) []
      else if String.eqb (ProofType opts) BbsBlsSignature2020 then
        match bbsJSONLDDocumentLoader with
        | inl e => ret (inl e)
        | inr bbsLoader =>
            signWith (addContext p bbsContext) opts relationship
                     (bbsblssignature2020_New s) [WithDocumentLoader bbsLoader]
        end
      else
        ret (inl (errorString ("unsupported signature type '" ++ ProofType opts ++ "'")))
  end.

(** The loop of [validateVerificationMethod]; [None] when it runs off the
    end of [vms]. *)
Fixpoint selectVerificationMethod (vms : list Verification) (opts : ProofOptions)
  : option ProofOptions :=
  match vms with
  | [] => None
  | vm :: rest =>
      if String.eqb (VerificationMethodID opts) "" then
        Some (setVerificationMethod opts (vmID (verVerificationMethod vm)))
      else if String.eqb (VerificationMethodID opts) (vmID (verVerificationMethod vm)) then
        Some opts
      else selectVerificationMethod rest opts
  end.

Definition validateVerificationMethod (didDoc : Doc) (opts : ProofOptions)
           (relationship : VerificationRelationship) : error + ProofOptions :=
  let vms := VerificationMethods didDoc relationship in
  match selectVerificationMethod vms opts with
  | Some opts => inr opts
  | None =>
      inl (errorString ("unable to find '" ++ supportedRelationships relationship
                          ++ "' for given verification method"))
  end.

(** [opts] is a pointer: [None] is the nil pointer, and the options returned
    on success are the caller's options as the function leaves them.
    Nothing is written to them before an error return. *)
Definition validateProofOption (c : Wallet) (opts : option ProofOptions)
           (method : VerificationRelationship) : St (error + ProofOptions) :=
  match opts with
  | None => ret (inl (errorString "invalid proof option, 'controller' is required"))
  | Some opts =>
      if String.eqb (Controller opts) "" then
        ret (inl (errorString "invalid proof option, 'controller' is required"))
      else
        let* r := walletVDR_Resolve c (Controller opts) in
        match r with
        | inl err => ret (inl err)
        | inr resolvedDoc =>
            match validateVerificationMethod (DIDDocument resolvedDoc) opts method with
            | inl err => ret (inl err)
            | inr opts =>
                let opts :=
                  match ProofRepresentation opts with
                  | None => setProofRepresentation opts defaultSignatureRepresentation
                  | Some _ => opts
                  end in
                let opts :=
                  if String.eqb (ProofType opts) "" then setProofType opts Ed25519Signature2018
                  else opts in
                ret (inr opts)
            end
        end
  end.

(** Issue adds proof to a Verifiable Credential. *)
Definition Issue (c : Wallet) (authToken : string) (credential : RawMessage)
           (options : option ProofOptions) : St (error + Credential) :=
  let* r := ParseCredential credential [WithDisabledProofCheck] in
  match r with
  | inl err => ret (inl (wrapError "failed to parse credential" err))
  | inr vc =>
      let purpose := AssertionMethod in
      let* r := validateProofOption c options purpose in
      match r with
      | inl err => ret (inl (wrapError "failed to prepare proof" err))
      | inr options =>
          let* r := addLinkedDataProof (k := isCredential) authToken vc options purpose in
          match r with
          | inl err => ret (inl (wrapError "failed to issue credential" err))
          | inr vc => ret (inr vc)
          end
      end
  end.

(** The first loop of [resolveOptionsToPresent], over the stored
    credential IDs; [all] is [allCredentials] so far. *)
Fixpoint resolveStoredCredentials (c : Wallet) (ids : list string)
         (all : list Credential) : St (error + list Credential) :=
  match ids with
  | [] => ret (inr all)
  | id :: rest =>
      let* r := contents_Get c Credential_ id in
      match r with
      | inl err => ret (inl err)
      | inr raw =>
          (* proof check is disabled while resolving credentials from store. *)
          let* r := ParseCredential raw [WithDisabledProofCheck] in
          match r with
          | inl err => ret (inl err)
          | inr credential => resolveStoredCredentials c rest (all ++ [credential])
          end
      end
  end.

(** The second loop, over the raw credentials. *)
Fixpoint resolveRawCredentials (raws : list RawMessage) (all : list Credential)
  : St (error + list Credential) :=
  match raws with
  | [] => ret (inr all)
  | raw :: rest =>
      (* proof check is disabled while resolving credentials from raw bytes. *)
      let* r := ParseCredential raw [WithDisabledProofCheck] in
      match r with
      | inl err => ret (inl err)
      | inr credential => resolveRawCredentials rest (all ++ [credential])
      end
  end.

Definition resolveOptionsToPresent (c : Wallet) (creds : list ProveOptions)
  : St (error + Presentation) :=
  let opts := getProveOpts creds in
  let* r := resolveStoredCredentials c (storedCredentials opts) [] in
  match r with
  | inl err => ret (inl err)
  | inr allCredentials =>
      let* r := resolveRawCredentials (rawCredentials opts) allCredentials in
      match r with
      | inl err => ret (inl err)
      | inr allCredentials =>
          let allCredentials :=
            if Nat.ltb 0 (length (credentials opts))
            then (allCredentials ++ credentials opts)%list
            else allCredentials in
          match presentation opts with
          | Some vp => ret (inr (AddCredentials vp allCredentials))
          | None => ret (NewPresentation allCredentials)
          end
      end
  end.

(** Prove produces a Verifiable Presentation. *)
Definition Prove (c : Wallet) (authToken : string) (proofOptions : option ProofOptions)
           (creds : list ProveOptions) : St (error + Presentation) :=
  let* r := resolveOptionsToPresent c creds in
  match r with
  | inl err => ret (inl (wrapError "failed to resolve credentials from request" err))
  | inr vp =>
      let purpose := Authentication in
      let* r := validateProofOption c proofOptions purpose in
      match r with
      | inl err => ret (inl (wrapError "failed to prepare proof" err))
      | inr proofOptions =>
          let vp := setHolder vp (Controller proofOptions) in
          let* r := addLinkedDataProof (k := isPresentation) authToken vp proofOptions purpose in
          match r with
          | inl err => ret (inl (wrapError "failed to prove credentials" err))
          | inr vp => ret (inr vp)
          end
      end
  end.

(** *** Verifier *)

Definition verifyCredential (c : Wallet) (credential : RawMessage)
  : St (bool * option error) :=
  let* w := getWorld in
  let* r := ParseCredential credential
              [WithPublicKeyFetcher (NewVDRKeyResolver c (contents w))] in
  match r with
  | inl err => ret (false, Some (wrapError "credential verification failed" err))
  | inr _ => ret (true, None)
  end.

(** The loop of [verifyPresentation]: verify proof of each credential. *)
Fixpoint verifyEachCredential (c : Wallet) (creds : list Credential)
  : St (bool * option error) :=
  match creds with
  | [] => ret (true, None)
  | cred :: rest =>
      match marshalCredential E cred with
      | inl err =>
          ret (false, Some (wrapError "failed to read credentials from presentation" err))
      | inr vc =>
          let* r := verifyCredential c vc in
          match snd r with
          | Some err => ret (false, Some (wrapError "presentation verification failed" err))
          | None => verifyEachCredential c rest
          end
      end
  end.

Definition verifyPresentation (c : Wallet) (raw : RawMessage) : St (bool * option error) :=
  let* w := getWorld in
  let* r := ParsePresentation raw
              [WithPresPublicKeyFetcher (NewVDRKeyResolver c (contents w))] in
  match r with
  | inl err => ret (false, Some (wrapError "presentation verification failed" err))
  | inr vp => verifyEachCredential c (vpCredentials vp)
  end.

(** Verify takes a Verifiable Credential or Verifiable Presentation as
    input.  Returns: a boolean verified, and an error if verified is
    false. *)
Definition Verify (c : Wallet) (options : VerificationOption) : St (bool * option error) :=
  let requestOpts := options (mkVerifyOpts "" [] []) in
  if negb (String.eqb (credentialID requestOpts) "") then
    let* r := contents_Get c Credential_ (credentialID requestOpts) in
    match r with
    | inl err => ret (false, Some (wrapError "failed to get credential" err))
    | inr raw => verifyCredential c raw
    end
  else if Nat.ltb 0 (length (rawCredential requestOpts)) then
    verifyCredential c (rawCredential requestOpts)
  else if Nat.ltb 0 (length (rawPresentation requestOpts)) then
    verifyPresentation c (rawPresentation requestOpts)
  else
    ret (false, Some (errorString "invalid verify request")).

End WalletOps.

Arguments AddLinkedDataProof E {k} p context jsonldOpts.
Arguments addContext {k} _ _.
Arguments signWith E {k} p opts relationship signatureSuite processorOpts.
Arguments addLinkedDataProof E {k} authToken p opts relationship.

(** ** Derive *)

(** [deriveOpts], filled by the [CredentialToDerive]; a nil
    [*verifiable.Credential] is [None]. *)
Record deriveOpts : Type := mkDeriveOpts {
  deriveCredential : option Credential;
  deriveRawCredential : RawMessage;
  deriveCredentialID : string
}.

Definition CredentialToDerive : Type := deriveOpts -> deriveOpts.

(** [DeriveOptions]: the frame, a JSON object kept opaque, and the nonce. *)
Record DeriveOptions : Type := mkDeriveOptions {
  Frame : RawMessage;
  Nonce : string
}.

Section DeriveOps.

Variable E : Env.

(** [Credential.GenerateBBSSelectiveDisclosure] of package [verifiable]: the
    BBS+ derivation itself, given the frame, the nonce bytes and the public
    key fetcher. *)
Variable GenerateBBSSelectiveDisclosure :
  Credential -> RawMessage -> list Byte.byte -> PublicKeyFetcher -> error + Credential.

Definition resolveCredentialToDerive (c : Wallet) (credential : CredentialToDerive)
  : St (error + Credential) :=
  let opts := credential (mkDeriveOpts None [] "") in
  match deriveCredential opts with
  | Some vc => ret (inr vc)
  | None =>
      if Nat.ltb 0 (length (deriveRawCredential opts)) then
        (* proof check is disabled while resolving credentials from store. *)
        ParseCredential E (deriveRawCredential opts) [WithDisabledProofCheck]
      else if negb (String.eqb (deriveCredentialID opts) "") then
        let* r := contents_Get c Credential_ (deriveCredentialID opts) in
        match r with
        | inl err => ret (inl err)
        | inr raw =>
            (* proof check is disabled while resolving credentials from store. *)
            ParseCredential E raw [WithDisabledProofCheck]
        end
      else ret (inl (errorString "invalid request to derive credential"))
  end.

(** Derive derives a credential and returns response credential.  [options]
    is a pointer, read once the credential is resolved. *)
Definition Derive (c : Wallet) (credential : CredentialToDerive)
           (options : option DeriveOptions) : St (error + Credential) :=
  let* r := resolveCredentialToDerive c credential in
  match r with
  | inl err => ret (inl (wrapError "failed to resolve request " err))
  | inr vc =>
      match options with
      | None => ret (inl nilDereference)
      | Some options =>
          let* w := getWorld in
          match GenerateBBSSelectiveDisclosure
                  vc (Frame options) (String.list_byte_of_string (Nonce options))
                  (NewVDRKeyResolver E c (contents w)) with
          | inl err => ret (inl (wrapError "failed to derive credential " err))
          | inr derived => ret (inr derived)
          end
      end
  end.

End DeriveOps.

(** ** The DID exchange service (package [didexchange]) *)

Module DIDExchange.

Section Service.

(** [metadata.AriesCommunityDID], declared in another package. *)
Variable AriesCommunityDID : string.

(** DIDExchange did exchange protocol *)
Definition DIDExchange : string := "didexchange".
(** DIDExchangeSpec defines the did-exchange spec *)
Definition DIDExchangeSpec : string := AriesCommunityDID ++ ";spec/didexchange/1.0/".
(** ConnectionInvite defines the did-exchange invite message type. *)
Definition ConnectionInvite : string := DIDExchangeSpec ++ "invitation".
(** ConnectionRequest defines the did-exchange request message type. *)
Definition ConnectionRequest : string := DIDExchangeSpec ++ "request".
(** ConnectionResponse defines the did-exchange response message type. *)
Definition ConnectionResponse : string := DIDExchangeSpec ++ "response".
(** ConnectionAck defines the did-exchange ack message type. *)
Definition ConnectionAck : string := DIDExchangeSpec ++ "ack".

(** Accept msg checks the msg type *)
Definition Accept (msgType : string) : bool :=
  String.eqb msgType ConnectionInvite ||
  String.eqb msgType ConnectionRequest ||
  String.eqb msgType ConnectionResponse ||
  String.eqb msgType ConnectionAck.

(** canTriggerActionEvents checks if the incoming message type matches either
    ConnectionRequest, ConnectionResponse or ConnectionAck type. *)
Definition canTriggerActionEvents (msgType : string) : bool :=
  if negb (String.eqb msgType ConnectionRequest) &&
     negb (String.eqb msgType ConnectionResponse) &&
     negb (String.eqb msgType ConnectionAck)
  then false
  else true.

(** Channels are compared by identity; [A] are the action-event channels and
    [M] the message-event channels.  A nil action channel is [None]. *)
Context {A M : Type} `{EqDecision A} `{EqDecision M}.

(** The event registrations of a [Service]. *)
Record Service : Type := mkService {
  actionEvent : option A;
  msgEvents : list M
}.

Definition RegisterActionEvent (s : Service) (ch : option A) : option error * Service :=
  match actionEvent s with
  | Some _ => (Some (errorString "channel is already registered for the action event"), s)
  | None => (None, mkService ch (msgEvents s))
  end.

Definition UnregisterActionEvent (s : Service) (ch : option A) : option error * Service :=
  if decide (actionEvent s <> ch) then
    (Some (errorString "invalid channel passed to unregister the action event"), s)
  else (None, mkService None (msgEvents s)).

Definition RegisterMsgEvent (s : Service) (ch : M) : option error * Service :=
  (None, mkService (actionEvent s) (msgEvents s ++ [ch])).

(** The loop of [UnregisterMsgEvent] from index [i] on: an entry equal to
    [ch] is cut out of the slice and the index stepped back before it is
    stepped on.  [None] when the fuel runs out or an index is out of
    range. *)
Fixpoint unregisterLoop (fuel : nat) (ch : M) (i : Z) (events : list M) : option (list M) :=
  if Z.ltb i (Z.of_nat (length events)) then
    match fuel with
    | O => None
    | S fuel =>
        if Z.ltb i 0 then None
        else
          match events !! Z.to_nat i with
          | None => None
          | Some e =>
              if decide (e = ch)
              then unregisterLoop fuel ch (i - 1 + 1) (delete (Z.to_nat i) events)
              else unregisterLoop fuel ch (i + 1) events
          end
    end
  else Some events.

Definition UnregisterMsgEvent (s : Service) (ch : M) : option (option error * Service) :=
  match unregisterLoop (length (msgEvents s)) ch 0 (msgEvents s) with
  | None => None
  | Some events => Some (None, mkService (actionEvent s) events)
  end.

(** [sendMsgEvents]: the message goes to every registered handler, in the
    order of registration; the sends made are returned. *)
Definition sendMsgEvents {Msg : Type} (s : Service) (msg : Msg) : list (M * Msg) :=
  map (fun handler => (handler, msg)) (msgEvents s).

(** The fields of an [Invitation] the generators look at. *)
Record Invitation : Type := mkInvitation {
  invType : string;
  invID : string;
  invLabel : string;
  invDID : string;
  invRecipientKeys : list string;
  invServiceEndpoint : string
}.

(** [json.Marshal] of an invitation and [base64.URLEncoding.EncodeToString]. *)
Variable jsonMarshal : Invitation -> error + list Byte.byte.
Variable base64URLEncode : list Byte.byte -> string.

Definition setType (inv : Invitation) (t : string) : Invitation :=
  mkInvitation t (invID inv) (invLabel inv) (invDID inv) (invRecipientKeys inv)
               (invServiceEndpoint inv).

(** The invitation is a pointer: it is returned as the function leaves it. *)
Definition encodedExchangeInvitation (inviteMessage : Invitation)
  : (error + string) * Invitation :=
  let inviteMessage := setType inviteMessage ConnectionInvite in
  match jsonMarshal inviteMessage with
  | inl err => (inl (wrapError "JSON Marshal Error " err), inviteMessage)
  | inr invitationJSON => (inr (base64URLEncode invitationJSON), inviteMessage)
  end.

(** GenerateInviteWithPublicDID generates the DID exchange invitation string
    with public DID *)
Definition GenerateInviteWithPublicDID (invite : Invitation) : (error + string) * Invitation :=
  if String.eqb (invID invite) "" || String.eqb (invDID invite) "" then
    (inl (errorString "ID and DID are mandatory"), invite)
  else encodedExchangeInvitation invite.

(** GenerateInviteWithKeyAndEndpoint generates the DID exchange invitation
    string with recipient key and endpoint *)
Definition GenerateInviteWithKeyAndEndpoint (invite : Invitation)
  : (error + string) * Invitation :=
  if String.eqb (invID invite) "" || String.eqb (invServiceEndpoint invite) "" ||
     Nat.eqb (length (invRecipientKeys invite)) 0 then
    (inl (errorString "ID, Event Endpoint and Recipient Key are mandatory"), invite)
  else encodedExchangeInvitation invite.

End Service.

End DIDExchange.

(** ** The did:key creator (package [key]) *)

Module KeyVDR.

Definition schemaV1 : string := "https://w3id.org/did/v1".
Definition ed25519VerificationKey2018 : string := "Ed25519VerificationKey2018".
Definition x25519KeyAgreementKey2019 : string := "X25519KeyAgreementKey2019".
Definition bls12381G2Key2020 : string := "Bls12381G2Key2020".
Definition jsonWebKey2020 : string := "JsonWebKey2020".

(** A value of [DIDMethodOpts.Values], a map to [interface{}]: a
    [*did.VerificationMethod], which may be a nil pointer, or a value of some
    other type. *)
Inductive optValue : Type :=
| verificationMethodValue (p : option VerificationMethod)
| otherValue (description : string).

Record DIDMethodOpts : Type := mkDIDMethodOpts {
  Values : gmap string optValue
}.

Definition DIDMethodOption : Type := DIDMethodOpts -> DIDMethodOpts.

(** A [did.Doc] as [createDoc] fills it: the verification methods and
    relationships, with the context and the two time stamps. *)
Record KeyDoc : Type := mkKeyDoc {
  keyDocContext : list string;
  keyDocBody : Doc;
  keyDocCreated : option string;
  keyDocUpdated : option string
}.

(** What the creator imports from other packages:
    - the multicodec codes, [CreateDIDKeyByCode] and [KeyFingerprint] of
      package [fingerprint];
    - the key types of package [kms];
    - [cryptoutil.PublicEd25519toCurve25519];
    - the constructors of package [did]: a verification method from its ID,
      type, controller and key bytes, and a verification of a method under a
      relationship, referenced or embedded;
    - the option key [EncryptionKey], declared in another file of the
      package, and the clock [time.Now]. *)
Record Imports : Type := mkImports {
  ED25519PubKeyMultiCodec : Z;
  X25519PubKeyMultiCodec : Z;
  BLS12381g2PubKeyMultiCodec : Z;
  P256PubKeyMultiCodec : Z;
  P384PubKeyMultiCodec : Z;
  P521PubKeyMultiCodec : Z;
  CreateDIDKeyByCode : Z -> RawMessage -> string * string;
  KeyFingerprint : Z -> RawMessage -> string;
  ECDSAP256TypeDER : string;
  ECDSAP256TypeIEEEP1363 : string;
  ECDSAP384TypeDER : string;
  ECDSAP384TypeIEEEP1363 : string;
  ECDSAP521TypeDER : string;
  ECDSAP521TypeIEEEP1363 : string;
  PublicEd25519toCurve25519 : RawMessage -> error + RawMessage;
  NewVerificationMethodFromBytes :
    string -> string -> string -> RawMessage -> VerificationMethod;
  NewReferencedVerification :
    VerificationMethod -> VerificationRelationship -> Verification;
  NewEmbeddedVerification :
    VerificationMethod -> VerificationRelationship -> Verification;
  EncryptionKey : string;
  now : string
}.

Section Creator.

Variable I : Imports.

Definition fetchECKeyCodeFromVerMethod (method : VerificationMethod) : error + Z :=
  let ecdsaCodesByKeyLen : gmap nat Z :=
    {[ 64 := P256PubKeyMultiCodec I;
       96 := P384PubKeyMultiCodec I;
       132 := P521PubKeyMultiCodec I ]} in
  inr (default 0%Z (ecdsaCodesByKeyLen !! length (vmValue method))).

Definition getKeyCode (keyType : string) (verificationMethod : VerificationMethod)
  : error + Z :=
  if String.eqb (vmType verificationMethod) ed25519VerificationKey2018 then
    inr (ED25519PubKeyMultiCodec I)
  else if String.eqb (vmType verificationMethod) bls12381G2Key2020 then
    inr (BLS12381g2PubKeyMultiCodec I)
  else if String.eqb (vmType verificationMethod) jsonWebKey2020 then
    if String.eqb keyType "" then fetchECKeyCodeFromVerMethod verificationMethod
    else if String.eqb keyType (ECDSAP256TypeDER I)
            || String.eqb keyType (ECDSAP256TypeIEEEP1363 I) then
      inr (P256PubKeyMultiCodec I)
    else if String.eqb keyType (ECDSAP384TypeDER I)
            || String.eqb keyType (ECDSAP384TypeIEEEP1363 I) then
      inr (P384PubKeyMultiCodec I)
    else if String.eqb keyType (ECDSAP521TypeDER I)
            || String.eqb keyType (ECDSAP521TypeIEEEP1363 I) then
      inr (P521PubKeyMultiCodec I)
    else inl (errorString "invalid jsonWebKey2020 key type")
  else
    inl (errorString ("not supported public key type: " ++ vmType verificationMethod)).

Definition keyAgreementFromEd25519 (didKey : string) (ed25519PubKey : RawMessage)
  : error + VerificationMethod :=
  match PublicEd25519toCurve25519 I ed25519PubKey with
  | inl err => inl err
  | inr curve25519PubKey =>
      let fp := KeyFingerprint I (X25519PubKeyMultiCodec I) curve25519PubKey in
      let keyID := didKey ++ "#" ++ fp in
      inr (NewVerificationMethodFromBytes I keyID x25519KeyAgreementKey2019 didKey
                                          curve25519PubKey)
  end.

(** [keyAgreement] is a pointer: [None] is nil. *)
Definition createDoc (pubKey : VerificationMethod) (keyAgreement : option VerificationMethod)
           (didKey : string) : KeyDoc :=
  (* Created/Updated time *)
  let t := now I in
  let kaVerification :=
    match keyAgreement with
    | Some ka => [NewEmbeddedVerification I ka KeyAgreement]
    | None => []
    end in
  mkKeyDoc [schemaV1]
           (mkDoc didKey [pubKey]
                  [NewReferencedVerification I pubKey Authentication]
                  [NewReferencedVerification I pubKey AssertionMethod]
                  [NewReferencedVerification I pubKey CapabilityDelegation]
                  [NewReferencedVerification I pubKey CapabilityInvocation]
                  kaVerification)
           (Some t) (Some t).

(** The options applied, in order, to the empty [DIDMethodOpts]. *)
Definition applyOptions (opts : list DIDMethodOption) : DIDMethodOpts :=
  fold_left (fun o opt => opt o) opts (mkDIDMethodOpts ∅).

(** Create new DID document for didDoc.  [keyType] is declared and never
    assigned: it is the empty key type when [getKeyCode] is called.  The
    result is the [DIDDocument] of the [DocResolution] returned. *)
Definition Create (didDoc : Doc) (opts : list DIDMethodOption) : error + KeyDoc :=
  let createDIDOpts := applyOptions opts in
  let keyType := "" in
  match docVerificationMethod didDoc with
  | [] => inl (errorString "verification method is empty")
  | first :: _ =>
      match getKeyCode keyType first with
      | inl err => inl err
      | inr keyCode =>
          let '(didKey, keyID) := CreateDIDKeyByCode I keyCode (vmValue first) in
          let publicKey :=
            NewVerificationMethodFromBytes I keyID (vmType first) didKey (vmValue first) in
          let derived :=
            if String.eqb (vmType first) ed25519VerificationKey2018 then
              match keyAgreementFromEd25519 didKey (vmValue first) with
              | inl err => inl err
              | inr ka => inr (Some ka)
              end
            else inr None in
          match derived with
          | inl err => inl err
          | inr keyAgr =>
              (* retrieve encryption key as keyAgreement from opts if available. *)
              match Values createDIDOpts !! EncryptionKey I with
              | None => inr (createDoc publicKey keyAgr didKey)
              | Some (verificationMethodValue k) => inr (createDoc publicKey k didKey)
              | Some (otherValue _) =>
                  inl (errorString "encryptionKey not VerificationMethod")
              end
          end
      end
  end.

End Creator.

End KeyVDR.

(** ** Verifying the signature of a JWT (package [verifiable]) *)

Module JWS.

(** [jose.Header]: the field read here. *)
Record Header : Type := mkHeader {
  KeyID : string
}.

Section Verify.

(** The public key type and the claims a token carries. *)
Context {PublicKey Claims : Type}.

(** [jwt.JSONWebToken]: its headers, and its method [Claims], which checks
    the signature with a public key and gives the claims it deserializes
    into the destination. *)
Record JSONWebToken : Type := mkJSONWebToken {
  Headers : list Header;
  tokenClaims : PublicKey -> error + Claims
}.

(** [PublicKeyFetcher]: the public key of an issuer for a key ID. *)
Definition PublicKeyFetcher : Type := string -> string -> error + PublicKey.

(** The loop over [token.Headers]: the key ID it leaves in [keyID]. *)
Fixpoint firstKeyID (headers : list Header) : string :=
  match headers with
  | [] => ""
  | h :: rest => if negb (String.eqb (KeyID h) "") then KeyID h else firstKeyID rest
  end.

(** [jwtClaims] is the destination the claims are written to: the claims are
    returned on success. *)
Definition verifyJWTSignature (token : JSONWebToken) (fetcher : PublicKeyFetcher)
           (issuer : string) : error + Claims :=
  let keyID := firstKeyID (Headers token) in
  match fetcher issuer keyID with
  | inl err =>
      inl (wrapError "failed to get public key for JWT signature verification" err)
  | inr publicKey =>
      match tokenClaims token publicKey with
      | inl err => inl (wrapError "JWT signature verification failed" err)
      | inr claims => inr claims
      end
  end.

End Verify.

Arguments JSONWebToken : clear implicits.

End JWS.

(** ** Sample collaborators

    A small, fully concrete world used to run the definitions: one
    resolvable controller with two assertion keys and one authentication
    key, three credentials addressed by their bytes, and a signer that
    accepts one token.  Every embedded proof is reported as invalid. *)

Module Sample.

Definition bytes (s : string) : RawMessage := String.list_byte_of_string s.

Definition credentialsV1 : string := "https://www.w3.org/2018/credentials/v1".

Definition alice : string := "did:example:alice".

Definition key1 : VerificationMethod :=
  mkVerificationMethod "did:example:alice#key-1" "Ed25519VerificationKey2018" (bytes "k1").
Definition key2 : VerificationMethod :=
  mkVerificationMethod "did:example:alice#key-2" "Ed25519VerificationKey2018" (bytes "k2").

Definition aliceDoc : Doc :=
  mkDoc alice [key1; key2]
        [mkVerification key1 Authentication]
        [mkVerification key2 AssertionMethod; mkVerification key1 AssertionMethod]
        [] [] [].

Definition vcPlain : Credential :=
  mkCredential [credentialsV1] "http://example.edu/credentials/1" (bytes "degree") [].
Definition vcBBS : Credential :=
  mkCredential [credentialsV1; bbsContext] "http://example.edu/credentials/2" (bytes "degree") [].
Definition vcTwice : Credential :=
  mkCredential [credentialsV1; bbsContext; bbsContext]
               "http://example.edu/credentials/3" (bytes "degree") [].

Definition vpPlain : Presentation :=
  mkPresentation [credentialsV1] "" (bytes "VerifiablePresentation") [vcPlain] [].

Definition decodeVC (raw : RawMessage) : error + Credential :=
  let s := String.string_of_list_byte raw in
  if String.eqb s "vc-plain" then inr vcPlain
  else if String.eqb s "vc-bbs" then inr vcBBS
  else if String.eqb s "vc-twice" then inr vcTwice
  else inl (errorString "unexpected end of JSON input").

Definition decodeVP (raw : RawMessage) : error + Presentation :=
  if String.eqb (String.string_of_list_byte raw) "vp-plain" then inr vpPlain
  else inl (errorString "unexpected end of JSON input").

Definition env : Env :=
  {| vdrResolve := fun did =>
       if String.eqb did alice then inr (mkDocResolution aliceDoc)
       else inl (errorString "DID does not exist");
     decodeDocResolution := fun _ => inl (errorString "unexpected end of JSON input");
     decodeCredential := decodeVC;
     checkCredentialProofs := fun _ _ => Some (errorString "invalid signature");
     decodePresentation := decodeVP;
     checkPresentationProofs := fun _ _ => None;
     marshalCredential := fun vc =>
       if String.eqb (vcID vc) (vcID vcPlain) then inr (bytes "vc-plain")
       else inl (errorString "json: unsupported value");
     newKMSSigner := fun token o =>
       if String.eqb token "token" then inr (mkSigner "kms" (VerificationMethodID o))
       else inl (errorString "invalid auth token");
     signDocument := fun _ _ _ _ => inr "signature";
     CachingJSONLDLoader := mkDocumentLoader [];
     DocumentFromReader := fun s => inr (bytes s);
     contextBBSContent := "{}";
     basePresentation := mkPresentation [credentialsV1] "" (bytes "VerifiablePresentation") [] [];
     openProfileStore := None
  |}.

(** The same collaborators with proof checks that accept everything. *)
Definition trustingEnv : Env :=
  {| vdrResolve := vdrResolve env;
     decodeDocResolution := decodeDocResolution env;
     decodeCredential := decodeCredential env;
     checkCredentialProofs := fun _ _ => None;
     decodePresentation := decodePresentation env;
     checkPresentationProofs := fun _ _ => None;
     marshalCredential := marshalCredential env;
     newKMSSigner := newKMSSigner env;
     signDocument := signDocument env;
     CachingJSONLDLoader := CachingJSONLDLoader env;
     DocumentFromReader := DocumentFromReader env;
     contextBBSContent := contextBBSContent env;
     basePresentation := basePresentation env;
     openProfileStore := openProfileStore env
  |}.

Definition wallet : Wallet := mkWallet "alice".

Definition emptyWorld : World := mkWorld ∅ ∅ [].

(** A world where the wallet of [alice] holds one credential. *)
Definition world : World :=
  mkWorld {[ profileKey "alice" := mkProfile "alice" (bindPassphrase "p1") ]}
          {[ contentKey "alice" Credential_ "c1" := bytes "vc-plain" ]}
          [].

Definition options (vm proofTy : string) : ProofOptions :=
  mkProofOptions alice vm None "" "" proofTy None.

End Sample.

(** ** Vocabulary of the statements *)

(** The IDs of the verification methods of [d] for relationship [r]. *)
Definition methodIDs (d : Doc) (r : VerificationRelationship) : list string :=
  map (fun v => vmID (verVerificationMethod v)) (VerificationMethods d r).

(** The error of [validateVerificationMethod]. *)
Definition missingMethod (r : VerificationRelationship) : error :=
  errorString ("unable to find '" ++ supportedRelationships r
                 ++ "' for given verification method").

(** The error of the [default] branch of [addLinkedDataProof]. *)
Definition unsupportedSignatureType (t : string) : error :=
  errorString ("unsupported signature type '" ++ t ++ "'").

Definition supportedProofType (t : string) : Prop :=
  t = Ed25519Signature2018 \/ t = JSONWebSignature2020 \/ t = BbsBlsSignature2020.

(** [w'] is [w] with further calls logged and both stores as they were; the
    new calls all satisfy [P]. *)
Definition onlyCalls (P : call -> Prop) (w w' : World) : Prop :=
  profiles w' = profiles w /\ contents w' = contents w /\
  exists cs, calls w' = (calls w ++ cs)%list /\ Forall P cs.

(** A computation all of whose runs are framed by [onlyCalls P]. *)
Definition framed {A : Type} (P : call -> Prop) (m : St A) : Prop :=
  forall w, onlyCalls P w (snd (m w)).

(** Calls that write to a store. *)
Definition isWrite (c : call) : Prop :=
  match c with
  | callProfilePut _ | callContentPut _ _ | callContentDelete _ _ => True
  | _ => False
  end.

(** Calls that reach the content store or a resolver. *)
Definition touchesStoreOrResolver (c : call) : Prop :=
  match c with
  | callContentGet _ _ | callContentPut _ _ | callContentDelete _ _
  | callVDRResolve _ => True
  | _ => False
  end.

Definition isAddProof (c : call) : Prop :=
  match c with
  | callAddLinkedDataProof _ _ => True
  | _ => False
  end.

(** A parse of a credential with its proofs checked. *)
Definition isCheckedParse (c : call) : Prop :=
  match c with
  | callParseCredential _ true => True
  | _ => False
  end.

(** How often [x] occurs in [l]. *)
Fixpoint occurrences (x : string) (l : list string) : nat :=
  match l with
  | [] => 0
  | y :: rest => (if String.eqb y x then 1 else 0) + occurrences x rest
  end.

(** The calls an [Issue] makes on its collaborators. *)
Definition issueCall (c : call) : Prop :=
  match c with
  | callParseCredential _ false
  | callContentGet DIDResolutionResponse _
  | callVDRResolve _
  | callNewKMSSigner _
  | callAddLinkedDataProof isCredential _ => True
  | _ => False
  end.

(** The calls a [Prove] makes on its collaborators. *)
Definition proveCall (c : call) : Prop :=
  match c with
  | callParseCredential _ false
  | callContentGet Credential_ _
  | callContentGet DIDResolutionResponse _
  | callVDRResolve _
  | callNewKMSSigner _
  | callAddLinkedDataProof isPresentation _ => True
  | _ => False
  end.

(** The proof options with the defaults of the specification applied:
    "proofType (default Ed25519Signature2018), proofRepresentation (default
    JWS)". *)
Definition withDefaults (o : ProofOptions) : ProofOptions :=
  mkProofOptions (Controller o) (VerificationMethodID o) (Created o) (Domain o) (Challenge o)
                 (if String.eqb (ProofType o) "" then Ed25519Signature2018 else ProofType o)
                 (Some (match ProofRepresentation o with
                        | Some r => r
                        | None => SignatureJWS
                        end)).

(** The proof block a signing run attaches for validated options [o]. *)
Definition proofFor (o : ProofOptions) (r : VerificationRelationship)
           (repr : SignatureRepresentation) (sig : string) : Proof :=
  mkProof (ProofType o) (Created o) (VerificationMethodID o) (supportedRelationships r)
          (Domain o) (Challenge o) repr sig.

(** The calls of a signing run for options [o] over a document of kind [k]:
    the signer is asked for, and a proof is added only for a supported proof
    type and only under a signing context built from [o] and the purpose of
    relationship [r]. *)
Definition signingCall (k : provableKind) (o : ProofOptions) (r : VerificationRelationship)
           (c : call) : Prop :=
  match c with
  | callNewKMSSigner _ => True
  | callAddLinkedDataProof k' ctx =>
      k' = k /\
      supportedProofType (ProofType o) /\
      ctxSignatureType ctx = ProofType o /\
      ProofRepresentation o = Some (ctxSignatureRepresentation ctx) /\
      ctxVerificationMethod ctx = VerificationMethodID o /\
      ctxPurpose ctx = supportedRelationships r
  | _ => False
  end.

(** The collaborators [E] with other proof checkers. *)
Definition withProofChecks (E : Env)
           (chkC : option PublicKeyFetcher -> Credential -> option error)
           (chkP : option PublicKeyFetcher -> Presentation -> option error) : Env :=
  {| vdrResolve := vdrResolve E;
     decodeDocResolution := decodeDocResolution E;
     decodeCredential := decodeCredential E;
     checkCredentialProofs := chkC;
     decodePresentation := decodePresentation E;
     checkPresentationProofs := chkP;
     marshalCredential := marshalCredential E;
     newKMSSigner := newKMSSigner E;
     signDocument := signDocument E;
     CachingJSONLDLoader := CachingJSONLDLoader E;
     DocumentFromReader := DocumentFromReader E;
     contextBBSContent := contextBBSContent E;
     basePresentation := basePresentation E;
     openProfileStore := openProfileStore E
  |}.

(** [id] names a stored blob that decodes to [vc]. *)
Definition storedAs (E : Env) (c : Wallet) (w : World) (id : string) (vc : Credential) : Prop :=
  exists raw, contents w !! contentKey (userID c) Credential_ id = Some raw
              /\ decodeCredential E raw = inr vc.

(** [w] after the calls [cs]. *)
Definition logged (w : World) (cs : list call) : World :=
  mkWorld (profiles w) (contents w) (calls w ++ cs).

(** Why verifying the credential bytes [raw] fails, if it does: "parse with
    C4 key fetcher; any parse-or-proof failure". *)
Definition credentialFailure (E : Env) (c : Wallet) (store : gmap string RawMessage)
           (raw : RawMessage) : option error :=
  match decodeCredential E raw with
  | inl err => Some err
  | inr vc => checkCredentialProofs E (Some (NewVDRKeyResolver E c store)) vc
  end.

(** Why parsing the presentation bytes [raw] with its proof checked fails,
    or the presentation parsed. *)
Definition presentationParsed (E : Env) (c : Wallet) (store : gmap string RawMessage)
           (raw : RawMessage) : error + Presentation :=
  match decodePresentation E raw with
  | inl err => inl err
  | inr vp =>
      match checkPresentationProofs E (Some (NewVDRKeyResolver E c store)) vp with
      | Some err => inl err
      | None => inr vp
      end
  end.

(** Why verifying the credential [cred] embedded in a presentation fails, if
    it does, as [verifyPresentation] reports it. *)
Definition embeddedFailure (E : Env) (c : Wallet) (store : gmap string RawMessage)
           (cred : Credential) : option error :=
  match marshalCredential E cred with
  | inl err => Some (wrapError "failed to read credentials from presentation" err)
  | inr raw =>
      match credentialFailure E c store raw with
      | Some err =>
          Some (wrapError "presentation verification failed"
                          (wrapError "credential verification failed" err))
      | None => None
      end
  end.

(** The checked parses that verifying the embedded credentials [creds], all
    of them, makes. *)
Definition verificationCalls (E : Env) (creds : list Credential) : list call :=
  flat_map (fun cred => match marshalCredential E cred with
                        | inl _ => []
                        | inr raw => [callParseCredential raw true]
                        end) creds.

(** A verification result is [(true, nil)] or [(false, err)]. *)
Definition verdict (r : bool * option error) : Prop :=
  r = (true, None) \/ exists err, r = (false, Some err).

(** The KMS binding the options ask for, if they are complete. *)
Definition requestedBinding (options : list ProfileKeyManagerOptions) : error + kmsBinding :=
  completeBinding (passphrase (getKmsOpts options)) (secretLockSvc (getKmsOpts options))
                  (keyServerURL (getKmsOpts options)).

(** Every profile record is stored under the key of its own user. *)
Definition profilesKeyed (w : World) : Prop :=
  forall user p, profiles w !! profileKey user = Some p -> profileUser p = user.

(** Calls of the signing stage. *)
Definition isSigning (c : call) : Prop :=
  match c with
  | callNewKMSSigner _ | callAddLinkedDataProof _ _ => True
  | _ => False
  end.

(** The error of [validateProofOption] for nil options or an empty
    controller. *)
Definition controllerRequired : error :=
  errorString "invalid proof option, 'controller' is required".

(** The collaborators [E] with another JSON-LD loader, document reader and
    bundled BBS context. *)
Definition withLoader (E : Env) (loader : DocumentLoader)
           (reader : string -> error + RawMessage) (content : string) : Env :=
  {| vdrResolve := vdrResolve E;
     decodeDocResolution := decodeDocResolution E;
     decodeCredential := decodeCredential E;
     checkCredentialProofs := checkCredentialProofs E;
     decodePresentation := decodePresentation E;
     checkPresentationProofs := checkPresentationProofs E;
     marshalCredential := marshalCredential E;
     newKMSSigner := newKMSSigner E;
     signDocument := signDocument E;
     CachingJSONLDLoader := loader;
     DocumentFromReader := reader;
     contextBBSContent := content;
     basePresentation := basePresentation E;
     openProfileStore := openProfileStore E
  |}.

(** Why resolving the stored credential [id] fails, if it does: it is not in
    the store, or its blob does not decode. *)
Definition storedFailure (E : Env) (c : Wallet) (store : gmap string RawMessage)
           (id : string) : option error :=
  match store !! contentKey (userID c) Credential_ id with
  | None => Some NotFound
  | Some raw =>
      match decodeCredential E raw with
      | inl err => Some err
      | inr _ => None
      end
  end.

(** The calls that resolving the stored credentials [ids], all of them,
    makes: a read of each, and a parse of each one found. *)
Definition resolutionCalls (c : Wallet) (store : gmap string RawMessage)
           (ids : list string) : list call :=
  flat_map (fun id =>
              callContentGet Credential_ id
              :: match store !! contentKey (userID c) Credential_ id with
                 | Some raw => [callParseCredential raw false]
                 | None => []
                 end) ids.

(** The key types [Create] accepts for the first verification method. *)
Definition supportedKeyTypes : list string :=
  [ KeyVDR.ed25519VerificationKey2018; KeyVDR.bls12381G2Key2020; KeyVDR.jsonWebKey2020 ].

(** The value of the [EncryptionKey] option once [opts] are applied. *)
Definition encryptionKeyOption (I : KeyVDR.Imports) (opts : list KeyVDR.DIDMethodOption)
  : option KeyVDR.optValue :=
  KeyVDR.Values (KeyVDR.applyOptions opts) !! KeyVDR.EncryptionKey I.

(** The multicodec code of an elliptic-curve key of [n] bytes. *)
Definition codeByLength (I : KeyVDR.Imports) (n : nat) : Z :=
  if decide (n = 64) then KeyVDR.P256PubKeyMultiCodec I
  else if decide (n = 96) then KeyVDR.P384PubKeyMultiCodec I
  else if decide (n = 132) then KeyVDR.P521PubKeyMultiCodec I
  else 0%Z.

(** ** Sample imports of the did:key creator

    Fingerprints that spell out the code and the key, an X25519 conversion
    that accepts keys of two bytes, and an option that sets the encryption
    key. *)

Module KeySample.

Definition fingerprintOf (code : Z) (key : RawMessage) : string :=
  (if (code =? 0)%Z then "z0" else "z6") ++ String.string_of_list_byte key.

Definition imports : KeyVDR.Imports :=
  KeyVDR.mkImports 237 236 235 4608 4609 4610
    (fun code key =>
       let fp := fingerprintOf code key in
       ("did:key:" ++ fp, "did:key:" ++ fp ++ "#" ++ fp))
    fingerprintOf
    "ECDSAP256DER" "ECDSAP256IEEEP1363"
    "ECDSAP384DER" "ECDSAP384IEEEP1363"
    "ECDSAP521DER" "ECDSAP521IEEEP1363"
    (fun key => if decide (length key = 2) then inr (rev key)
                else inl (errorString "error converting public key"))
    (fun id ty _ value => mkVerificationMethod id ty value)
    mkVerification
    mkVerification
    "encryptionKey"
    "2021-03-01T00:00:00Z".

Definition withEncryptionKey (v : KeyVDR.optValue) : KeyVDR.DIDMethodOption :=
  fun o => KeyVDR.mkDIDMethodOpts (<[ "encryptionKey" := v ]> (KeyVDR.Values o)).

Definition docOf (vms : list VerificationMethod) : Doc :=
  mkDoc "" vms [] [] [] [] [].

Definition edKey : VerificationMethod :=
  mkVerificationMethod "" KeyVDR.ed25519VerificationKey2018 (Sample.bytes "k1").

Definition badEdKey : VerificationMethod :=
  mkVerificationMethod "" KeyVDR.ed25519VerificationKey2018 (Sample.bytes "long").

Definition jwkKey : VerificationMethod :=
  mkVerificationMethod "" KeyVDR.jsonWebKey2020 (Sample.bytes "abc").

Definition x25519Key : VerificationMethod :=
  mkVerificationMethod "did:example:bob#x" KeyVDR.x25519KeyAgreementKey2019
                       (Sample.bytes "xk").

End KeySample.

(** The document [Create] makes of [KeySample.edKey] without options. *)
Definition sampleEdDocument : KeyVDR.KeyDoc :=
  KeyVDR.createDoc KeySample.imports
    (mkVerificationMethod "did:key:z6k1#z6k1" KeyVDR.ed25519VerificationKey2018
                          (Sample.bytes "k1"))
    (Some (mkVerificationMethod "did:key:z6k1#z61k" KeyVDR.x25519KeyAgreementKey2019
                                (Sample.bytes "1k")))
    "did:key:z6k1".


(** * Properties *)

(** Sanity runs of the embedding. *)

Example issue_default_runs :
  fst (Issue Sample.env Sample.wallet "token" (Sample.bytes "vc-plain")
             (Some (Sample.options "" "")) Sample.world)
  = inr (mkCredential [Sample.credentialsV1] "http://example.edu/credentials/1"
                      (Sample.bytes "degree")
                      [mkProof "Ed25519Signature2018" None "did:example:alice#key-2"
                               "assertionMethod" "" "" SignatureJWS "signature"]).
Proof. vm_compute. reflexivity. Qed.

Example issue_logs_calls :
  calls (snd (Issue Sample.env Sample.wallet "bad" (Sample.bytes "vc-plain")
                    (Some (Sample.options "" "")) Sample.world))
  = [ callParseCredential (Sample.bytes "vc-plain") false;
      callContentGet DIDResolutionResponse "did:example:alice";
      callVDRResolve "did:example:alice";
      callNewKMSSigner "bad" ].
Proof. vm_compute. reflexivity. Qed.

Example verify_stored_fails :
  fst (Verify Sample.env Sample.wallet (WithStoredCredentialToVerify "c1") Sample.world)
  = (false, Some (wrapError "credential verification failed" (errorString "invalid signature"))).
Proof. vm_compute. reflexivity. Qed.

Example unsupported_type_message :
  Error (wrapError "failed to issue credential" (unsupportedSignatureType "RsaSignature2018"))
  = "failed to issue credential: unsupported signature type 'RsaSignature2018'".
Proof. reflexivity. Qed.


(** ** Framing *)

Lemma onlyCalls_refl P w : onlyCalls P w w.
Proof.
  repeat split. exists []. split; [by rewrite app_nil_r | constructor].
Qed.

Lemma onlyCalls_trans P w1 w2 w3 :
  onlyCalls P w1 w2 -> onlyCalls P w2 w3 -> onlyCalls P w1 w3.
Proof.
  intros (Hp1 & Hc1 & cs1 & Hl1 & HP1) (Hp2 & Hc2 & cs2 & Hl2 & HP2).
  split; [congruence|]. split; [congruence|].
  exists (cs1 ++ cs2)%list. split.
  - rewrite Hl2, Hl1. by rewrite app_assoc.
  - apply Forall_app; auto.
Qed.

Lemma onlyCalls_weaken (P Q : call -> Prop) w w' :
  (forall c, P c -> Q c) -> onlyCalls P w w' -> onlyCalls Q w w'.
Proof.
  intros HPQ (Hp & Hc & cs & Hl & HP). repeat split; auto.
  exists cs. split; auto. eapply Forall_impl; eauto.
Qed.

Lemma framed_ret {A} P (a : A) : framed P (ret a).
Proof. intros w. apply onlyCalls_refl. Qed.

Lemma framed_getWorld P : framed P getWorld.
Proof. intros w. apply onlyCalls_refl. Qed.

Lemma framed_record (P : call -> Prop) c : P c -> framed P (record c).
Proof.
  intros Hc w. repeat split. exists [c]. split; [done | by constructor].
Qed.

Lemma framed_bind {A B} P (m : St A) (k : A -> St B) :
  framed P m -> (forall a, framed P (k a)) -> framed P (bind m k).
Proof.
  intros Hm Hk w. unfold bind. specialize (Hm w).
  destruct (m w) as [a w1] eqn:Hrun. simpl in Hm.
  eapply onlyCalls_trans; [exact Hm | apply Hk].
Qed.

(** One step of a framing proof: peel a bind, close a leaf, or split on the
    scrutinee of a branch. *)
Ltac frame_step :=
  lazymatch goal with
  | |- framed _ (bind _ _) => apply framed_bind; [| intros ?]
  | |- framed _ (ret _) => apply framed_ret
  | |- framed _ getWorld => apply framed_getWorld
  | |- framed _ (record _) =>
      apply framed_record; first [assumption | solve [auto] | simpl; tauto | idtac]
  | |- framed _ (match ?x with _ => _ end) => destruct x eqn:?
  end.

Ltac frame := repeat frame_step.

Section Framing.

Variable E : Env.
Variable P : call -> Prop.

Lemma framed_contents_Get c ct id :
  P (callContentGet ct id) -> framed P (contents_Get c ct id).
Proof. intros HP. unfold contents_Get. frame. Qed.

Lemma framed_walletVDR_Resolve c did :
  P (callContentGet DIDResolutionResponse did) -> P (callVDRResolve did) ->
  framed P (walletVDR_Resolve E c did).
Proof.
  intros HG HR. unfold walletVDR_Resolve.
  apply framed_bind; [by apply framed_contents_Get | intros r]. frame.
Qed.

Lemma framed_ParseCredential raw opts :
  P (callParseCredential raw (negb (disabledProofCheck (getCredentialOpts opts)))) ->
  framed P (ParseCredential E raw opts).
Proof. intros HP. unfold ParseCredential. frame. Qed.

Lemma framed_validateProofOption c opts method :
  (forall did, P (callContentGet DIDResolutionResponse did)) ->
  (forall did, P (callVDRResolve did)) ->
  framed P (validateProofOption E c opts method).
Proof.
  intros HG HR. unfold validateProofOption.
  destruct opts as [o|]; [| apply framed_ret].
  destruct (String.eqb (Controller o) ""); [apply framed_ret |].
  apply framed_bind; [by apply framed_walletVDR_Resolve | intros r]. frame.
Qed.

Lemma framed_signWith {k} (p : provable k) opts rel suite popts :
  (forall ctx, P (callAddLinkedDataProof k ctx)) ->
  framed P (signWith E p opts rel suite popts).
Proof.
  intros HP. unfold signWith, AddLinkedDataProof.
  destruct (ProofRepresentation opts); [cbv zeta | apply framed_ret]. frame.
Qed.

Lemma framed_addLinkedDataProof {k} token (p : provable k) opts rel :
  P (callNewKMSSigner token) ->
  (forall ctx, P (callAddLinkedDataProof k ctx)) ->
  framed P (addLinkedDataProof E token p opts rel).
Proof.
  intros HS HP. unfold addLinkedDataProof.
  apply framed_bind; [by apply framed_record | intros _].
  destruct (newKMSSigner E token opts); [apply framed_ret |].
  repeat (match goal with |- framed _ (if ?b then _ else _) => destruct b end);
    try (by apply framed_signWith); [| apply framed_ret].
  destruct (bbsJSONLDDocumentLoader E); [apply framed_ret | by apply framed_signWith].
Qed.

Lemma framed_resolveStoredCredentials c ids all :
  (forall id, P (callContentGet Credential_ id)) ->
  (forall raw, P (callParseCredential raw false)) ->
  framed P (resolveStoredCredentials E c ids all).
Proof.
  intros HG HPa. revert all. induction ids as [|id rest IH]; intros all; simpl.
  - apply framed_ret.
  - apply framed_bind; [by apply framed_contents_Get | intros r].
    destruct r as [err|raw]; [apply framed_ret |].
    apply framed_bind; [apply framed_ParseCredential; apply HPa | intros r].
    destruct r; [apply framed_ret | apply IH].
Qed.

Lemma framed_resolveRawCredentials raws all :
  (forall raw, P (callParseCredential raw false)) ->
  framed P (resolveRawCredentials E raws all).
Proof.
  intros HPa. revert all. induction raws as [|raw rest IH]; intros all; simpl.
  - apply framed_ret.
  - apply framed_bind; [apply framed_ParseCredential; apply HPa | intros r].
    destruct r; [apply framed_ret | apply IH].
Qed.

Lemma framed_resolveOptionsToPresent c creds :
  (forall id, P (callContentGet Credential_ id)) ->
  (forall raw, P (callParseCredential raw false)) ->
  framed P (resolveOptionsToPresent E c creds).
Proof.
  intros HG HPa. unfold resolveOptionsToPresent.
  apply framed_bind; [by apply framed_resolveStoredCredentials | intros r].
  destruct r; [apply framed_ret |].
  apply framed_bind; [by apply framed_resolveRawCredentials | intros r].
  frame.
Qed.

End Framing.

(** ** Issue and Prove only read *)

Lemma Issue_calls E c authToken credential options :
  framed issueCall (Issue E c authToken credential options).
Proof.
  unfold Issue.
  apply framed_bind; [by apply framed_ParseCredential | intros r].
  destruct r as [err|vc]; [apply framed_ret | cbv zeta].
  apply framed_bind; [by apply framed_validateProofOption | intros r].
  destruct r as [err|opts]; [apply framed_ret |].
  apply framed_bind; [by apply framed_addLinkedDataProof | intros r].
  frame.
Qed.

Lemma Prove_calls E c authToken proofOptions creds :
  framed proveCall (Prove E c authToken proofOptions creds).
Proof.
  unfold Prove.
  apply framed_bind; [by apply framed_resolveOptionsToPresent | intros r].
  destruct r as [err|vp]; [apply framed_ret | cbv zeta].
  apply framed_bind; [by apply framed_validateProofOption | intros r].
  destruct r as [err|opts]; [apply framed_ret |].
  apply framed_bind; [by apply framed_addLinkedDataProof | intros r].
  frame.
Qed.

Lemma issueCall_not_write c : issueCall c -> ~ isWrite c.
Proof. destruct c as [| | ct ?| | | |? []| | |[] ?]; simpl; try tauto. Qed.

Lemma Get_same_contents c ct id w w' :
  contents w' = contents w -> fst (Get c ct id w') = fst (Get c ct id w).
Proof.
  intros H. unfold Get, contents_Get, bind, record, getWorld, ret. simpl.
  rewrite H. by destruct (contents w !! contentKey (userID c) ct id).
Qed.

(** The content store can be written: [Remove] deletes the entry, so the
    frame below is a property of [Issue] and not of the model. *)
Lemma Remove_deletes c ct id w :
  fst (Get c ct id (snd (Remove c ct id w))) = inl NotFound.
Proof.
  unfold Get, Remove, contents_Get, contents_Remove, bind, record, getWorld,
    putContents, ret. simpl.
  by rewrite lookup_delete_eq.
Qed.

(** C9. [Issue] never writes to the content store: whatever the credential,
    the proof options and the token, and whether the call succeeds or fails,
    the content store (and the profile store) after the call is the one
    before it, every [Get] answers as before, and none of the calls made is a
    store write. *)
Theorem Issue_leaves_content_store E c authToken credential options w :
  let w' := snd (Issue E c authToken credential options w) in
  contents w' = contents w /\
  profiles w' = profiles w /\
  (forall ct id, fst (Get c ct id w') = fst (Get c ct id w)) /\
  exists cs, calls w' = (calls w ++ cs)%list /\ Forall (fun k => ~ isWrite k) cs.
Proof.
  intros w'.
  destruct (Issue_calls E c authToken credential options w) as (Hp & Hc & cs & Hl & HP).
  fold w' in Hp, Hc, Hl.
  repeat split; auto.
  - intros ct id. by apply Get_same_contents.
  - exists cs. split; auto.
    eapply Forall_impl; [exact HP | apply issueCall_not_write].
Qed.

(** ** Verify *)

(** C10. [Verify] with a verification option that supplies no stored
    credential ID, no raw credential and no raw presentation returns
    [(false, "invalid verify request")] and leaves the world as it was: no
    call reaches the content store or the resolver. *)
Theorem Verify_invalid_request E c (options : VerificationOption) w :
  credentialID (options (mkVerifyOpts "" [] [])) = "" ->
  rawCredential (options (mkVerifyOpts "" [] [])) = [] ->
  rawPresentation (options (mkVerifyOpts "" [] [])) = [] ->
  Verify E c options w = ((false, Some (errorString "invalid verify request")), w) /\
  onlyCalls (fun k => ~ touchesStoreOrResolver k) w (snd (Verify E c options w)).
Proof.
  intros Hid Hvc Hvp.
  assert (Hrun : Verify E c options w
                 = ((false, Some (errorString "invalid verify request")), w)).
  { unfold Verify. rewrite Hid, Hvc, Hvp. reflexivity. }
  split; [exact Hrun |]. rewrite Hrun. apply onlyCalls_refl.
Qed.

Lemma Verify_invalid_request_witness :
  Verify Sample.env Sample.wallet (fun o => o) Sample.world
  = ((false, Some (errorString "invalid verify request")), Sample.world).
Proof.
  apply (Verify_invalid_request Sample.env Sample.wallet (fun o => o) Sample.world);
    reflexivity.
Defined.

(** ** Results depend on the stores only *)

Section Pipeline.

Variable E : Env.

Lemma walletVDR_Resolve_contents c did w1 w2 :
  contents w1 = contents w2 ->
  fst (walletVDR_Resolve E c did w1) = fst (walletVDR_Resolve E c did w2).
Proof.
  intros H. unfold walletVDR_Resolve, contents_Get, bind, record, getWorld, ret.
  simpl. rewrite H.
  by destruct (contents w2 !! contentKey (userID c) DIDResolutionResponse did).
Qed.

Lemma validateProofOption_contents c opts method w1 w2 :
  contents w1 = contents w2 ->
  fst (validateProofOption E c opts method w1) = fst (validateProofOption E c opts method w2).
Proof.
  intros H. unfold validateProofOption.
  destruct opts as [o|]; [| reflexivity].
  destruct (String.eqb (Controller o) ""); [reflexivity |].
  unfold bind.
  pose proof (walletVDR_Resolve_contents c (Controller o) w1 w2 H) as Hr.
  destruct (walletVDR_Resolve E c (Controller o) w1) as [r1 w1'].
  destruct (walletVDR_Resolve E c (Controller o) w2) as [r2 w2'].
  simpl in Hr. subst r2. destruct r1 as [err|res]; [reflexivity |].
  by destruct (validateVerificationMethod (DIDDocument res) o method).
Qed.

Lemma signWith_any_world {k} (p : provable k) opts rel suite popts w1 w2 :
  fst (signWith E p opts rel suite popts w1) = fst (signWith E p opts rel suite popts w2).
Proof.
  unfold signWith, AddLinkedDataProof, bind, record, ret.
  destruct (ProofRepresentation opts) as [repr|]; [simpl | reflexivity].
  by destruct (signDocument E k p _ popts).
Qed.

Lemma addLinkedDataProof_any_world {k} token (p : provable k) opts rel w1 w2 :
  fst (addLinkedDataProof E token p opts rel w1) = fst (addLinkedDataProof E token p opts rel w2).
Proof.
  unfold addLinkedDataProof, bind, record. simpl.
  destruct (newKMSSigner E token opts); [reflexivity |].
  repeat (match goal with |- context [if ?b then _ else _] => destruct b end);
    try apply signWith_any_world; [| reflexivity].
  destruct (bbsJSONLDDocumentLoader E); [reflexivity | apply signWith_any_world].
Qed.

Lemma ParseCredential_unchecked raw w :
  ParseCredential E raw [WithDisabledProofCheck] w
  = (decodeCredential E raw,
     mkWorld (profiles w) (contents w) (calls w ++ [callParseCredential raw false])).
Proof.
  unfold ParseCredential, bind, record, ret. simpl.
  by destruct (decodeCredential E raw).
Qed.

(** [Issue] is its three stages in sequence, each failure wrapped. *)
Lemma Issue_stages c authToken credential options w :
  fst (Issue E c authToken credential options w) =
  match decodeCredential E credential with
  | inl err => inl (wrapError "failed to parse credential" err)
  | inr vc =>
      match fst (validateProofOption E c options AssertionMethod w) with
      | inl err => inl (wrapError "failed to prepare proof" err)
      | inr opts =>
          match fst (addLinkedDataProof E (k := isCredential) authToken vc opts
                                        AssertionMethod w) with
          | inl err => inl (wrapError "failed to issue credential" err)
          | inr vc => inr vc
          end
      end
  end.
Proof.
  unfold Issue, bind at 1. rewrite ParseCredential_unchecked.
  destruct (decodeCredential E credential) as [err|vc]; [reflexivity |].
  cbv zeta. unfold bind at 1.
  set (w1 := mkWorld _ _ _).
  rewrite <- (validateProofOption_contents c options AssertionMethod w1 w eq_refl).
  destruct (validateProofOption E c options AssertionMethod w1) as [[err|opts] w2];
    [reflexivity |].
  cbn [fst snd]. unfold bind.
  rewrite (addLinkedDataProof_any_world (k := isCredential) authToken vc opts
             AssertionMethod w w2).
  by destruct (addLinkedDataProof E (k := isCredential) authToken vc opts
                 AssertionMethod w2) as [[?|?] ?].
Qed.

Lemma resolveOptionsToPresent_contents c creds w :
  contents (snd (resolveOptionsToPresent E c creds w)) = contents w.
Proof.
  apply (framed_resolveOptionsToPresent E (fun _ => True) c creds); auto.
Qed.

(** [Prove] is its three stages in sequence, each failure wrapped. *)
Lemma Prove_stages c authToken proofOptions creds w :
  fst (Prove E c authToken proofOptions creds w) =
  match fst (resolveOptionsToPresent E c creds w) with
  | inl err => inl (wrapError "failed to resolve credentials from request" err)
  | inr vp =>
      match fst (validateProofOption E c proofOptions Authentication w) with
      | inl err => inl (wrapError "failed to prepare proof" err)
      | inr opts =>
          match fst (addLinkedDataProof E (k := isPresentation) authToken
                                        (setHolder vp (Controller opts)) opts
                                        Authentication w) with
          | inl err => inl (wrapError "failed to prove credentials" err)
          | inr vp => inr vp
          end
      end
  end.
Proof.
  unfold Prove, bind at 1.
  pose proof (resolveOptionsToPresent_contents c creds w) as Hc.
  destruct (resolveOptionsToPresent E c creds w) as [[err|vp] w1]; [reflexivity |].
  cbn [fst snd] in *. unfold bind at 1.
  rewrite <- (validateProofOption_contents c proofOptions Authentication w1 w Hc).
  destruct (validateProofOption E c proofOptions Authentication w1) as [[err|opts] w2];
    [reflexivity |].
  cbn [fst snd]. unfold bind.
  rewrite (addLinkedDataProof_any_world (k := isPresentation) authToken
             (setHolder vp (Controller opts)) opts Authentication w w2).
  by destruct (addLinkedDataProof E (k := isPresentation) authToken
                 (setHolder vp (Controller opts)) opts Authentication w2) as [[?|?] ?].
Qed.

End Pipeline.

(** ** Selecting the verification method *)

Lemma selectVerificationMethod_given vms opts :
  VerificationMethodID opts <> "" ->
  selectVerificationMethod vms opts
  = if decide (VerificationMethodID opts ∈ map (fun v => vmID (verVerificationMethod v)) vms)
    then Some opts else None.
Proof.
  intros Hne. apply String.eqb_neq in Hne.
  induction vms as [|vm rest IH]; [reflexivity |].
  cbn [selectVerificationMethod map]. rewrite Hne.
  destruct (String.eqb_spec (VerificationMethodID opts) (vmID (verVerificationMethod vm)))
    as [Heq|Hneq].
  - rewrite decide_True; [reflexivity |]. rewrite Heq. apply elem_of_cons. by left.
  - rewrite IH.
    destruct (decide (VerificationMethodID opts
                        ∈ map (fun v => vmID (verVerificationMethod v)) rest)) as [Hin|Hnin].
    + rewrite decide_True; [reflexivity | apply elem_of_cons; by right].
    + rewrite decide_False; [reflexivity |].
      intros [?|?]%elem_of_cons; contradiction.
Qed.

Lemma selectVerificationMethod_omitted vms opts :
  VerificationMethodID opts = "" ->
  selectVerificationMethod vms opts
  = match vms with
    | [] => None
    | vm :: _ => Some (setVerificationMethod opts (vmID (verVerificationMethod vm)))
    end.
Proof. intros H. destruct vms; simpl; [reflexivity | by rewrite H]. Qed.

Lemma validateVerificationMethod_given didDoc opts r :
  VerificationMethodID opts <> "" ->
  validateVerificationMethod didDoc opts r
  = if decide (VerificationMethodID opts ∈ methodIDs didDoc r)
    then inr opts else inl (missingMethod r).
Proof.
  intros H. unfold validateVerificationMethod, methodIDs.
  rewrite (selectVerificationMethod_given _ _ H). by case_decide.
Qed.

Lemma validateVerificationMethod_omitted didDoc opts r :
  VerificationMethodID opts = "" ->
  validateVerificationMethod didDoc opts r
  = match methodIDs didDoc r with
    | [] => inl (missingMethod r)
    | id :: _ => inr (setVerificationMethod opts id)
    end.
Proof.
  intros H. unfold validateVerificationMethod, methodIDs.
  rewrite (selectVerificationMethod_omitted _ _ H).
  by destruct (VerificationMethods didDoc r).
Qed.

(** A validated method is one of the document's, the requested one when one
    was requested and the first one otherwise. *)
Lemma validateVerificationMethod_inr didDoc opts r o :
  validateVerificationMethod didDoc opts r = inr o ->
  VerificationMethodID o ∈ methodIDs didDoc r /\
  (VerificationMethodID opts <> "" -> o = opts) /\
  (VerificationMethodID opts = "" ->
   head (methodIDs didDoc r) = Some (VerificationMethodID o) /\
   o = setVerificationMethod opts (VerificationMethodID o)).
Proof.
  intros H. destruct (String.eqb_spec (VerificationMethodID opts) "") as [He|Hne].
  - rewrite (validateVerificationMethod_omitted _ _ _ He) in H.
    destruct (methodIDs didDoc r) as [|id rest]; [discriminate |].
    injection H as <-. simpl. split; [apply elem_of_cons; by left |].
    split; [intros Hn; by destruct Hn | done].
  - rewrite (validateVerificationMethod_given _ _ _ Hne) in H.
    case_decide as Hin; [| discriminate].
    injection H as <-. split; [done |]. split; [done | intros He; by destruct Hne].
Qed.

Section Validation.

Variable E : Env.

(** [validateProofOption] once the controller is resolved: the method is
    validated against the resolved document and the defaults are applied. *)
Lemma validateProofOption_resolved c opts method w res :
  Controller opts <> "" ->
  fst (walletVDR_Resolve E c (Controller opts) w) = inr res ->
  fst (validateProofOption E c (Some opts) method w)
  = match validateVerificationMethod (DIDDocument res) opts method with
    | inl err => inl err
    | inr o => inr (withDefaults o)
    end.
Proof.
  intros Hc Hr. apply String.eqb_neq in Hc.
  unfold validateProofOption. rewrite Hc. unfold bind.
  destruct (walletVDR_Resolve E c (Controller opts) w) as [r w1].
  simpl in Hr. subst r.
  destruct (validateVerificationMethod (DIDDocument res) opts method) as [err|o];
    [reflexivity |].
  unfold withDefaults, setProofType, setProofRepresentation, ret. simpl.
  destruct o as [ctl vm cr dom ch pt [r|]]; simpl; by destruct (String.eqb pt "").
Qed.

(** Converse: a successful validation resolved the controller and validated
    the method against the resolved document. *)
Lemma validateProofOption_inr c opts method w o :
  fst (validateProofOption E c opts method w) = inr o ->
  exists opts0 res o1,
    opts = Some opts0 /\ Controller opts0 <> "" /\
    fst (walletVDR_Resolve E c (Controller opts0) w) = inr res /\
    validateVerificationMethod (DIDDocument res) opts0 method = inr o1 /\
    o = withDefaults o1.
Proof.
  intros H. destruct opts as [opts0|]; [| discriminate].
  destruct (String.eqb_spec (Controller opts0) "") as [He|Hne].
  { unfold validateProofOption in H. rewrite He in H. discriminate. }
  destruct (fst (walletVDR_Resolve E c (Controller opts0) w)) as [err|res] eqn:Hr.
  { unfold validateProofOption, bind in H. apply String.eqb_neq in Hne. rewrite Hne in H.
    destruct (walletVDR_Resolve E c (Controller opts0) w) as [r w1].
    simpl in Hr. subst r. discriminate. }
  rewrite (validateProofOption_resolved c opts0 method w res Hne Hr) in H.
  destruct (validateVerificationMethod (DIDDocument res) opts0 method) as [err|o1] eqn:Hv;
    [discriminate |].
  injection H as <-. by exists opts0, res, o1.
Qed.

(** [addLinkedDataProof] succeeds only for a supported proof type, and then
    returns the document, with the BBS context added for a BBS proof, with
    one more proof built from the options. *)
Lemma addLinkedDataProof_inr {k} token (p p' : provable k) o rel w :
  fst (addLinkedDataProof E token p o rel w) = inr p' ->
  supportedProofType (ProofType o) /\
  exists repr sig,
    ProofRepresentation o = Some repr /\
    p' = appendProof (if String.eqb (ProofType o) BbsBlsSignature2020
                      then addContext p bbsContext else p)
                     (proofFor o rel repr sig).
Proof.
  assert (Hsign : forall (q : provable k) suite popts w0,
             fst (signWith E q o rel suite popts w0) = inr p' ->
             exists repr sig, ProofRepresentation o = Some repr /\
                              p' = appendProof q (proofFor o rel repr sig)).
  { intros q suite popts w0. unfold signWith, AddLinkedDataProof, bind, record, ret.
    destruct (ProofRepresentation o) as [repr|]; [simpl | discriminate].
    destruct (signDocument E k q _ popts) as [err|sig]; [discriminate |].
    simpl. intros [= <-]. by exists repr, sig. }
  unfold addLinkedDataProof, bind, record. simpl.
  destruct (newKMSSigner E token o) as [err|s]; [discriminate |].
  destruct (String.eqb_spec (ProofType o) Ed25519Signature2018) as [H1|H1].
  { intros H. split; [by left |]. apply Hsign in H. by rewrite H1. }
  destruct (String.eqb_spec (ProofType o) JSONWebSignature2020) as [H2|H2].
  { intros H. split; [right; by left |]. apply Hsign in H. by rewrite H2. }
  destruct (String.eqb_spec (ProofType o) BbsBlsSignature2020) as [H3|H3];
    [| discriminate].
  destruct (bbsJSONLDDocumentLoader E); [discriminate |].
  intros H. split; [right; by right |]. by apply Hsign in H.
Qed.

End Validation.

(** ** What a signing run leaves in the document *)

Lemma provableProofs_appendProof {k} (p : provable k) x :
  provableProofs (appendProof p x) = (provableProofs p ++ [x])%list.
Proof. by destruct k. Qed.

Lemma provableProofs_addContext {k} (p : provable k) ctx :
  provableProofs (addContext p ctx) = provableProofs p.
Proof.
  destruct k; simpl; [| reflexivity].
  by destruct (hasContext (vcContext p) ctx).
Qed.

(** The proofs of a signed document: those it had, then the new one. *)
Lemma addLinkedDataProof_proofs E {k} token (p p' : provable k) o rel w :
  fst (addLinkedDataProof E token p o rel w) = inr p' ->
  supportedProofType (ProofType o) /\
  exists repr sig,
    ProofRepresentation o = Some repr /\
    provableProofs p' = (provableProofs p ++ [proofFor o rel repr sig])%list.
Proof.
  intros H. apply addLinkedDataProof_inr in H as (Hs & repr & sig & Hr & ->).
  split; [exact Hs |]. exists repr, sig. split; [exact Hr |].
  rewrite provableProofs_appendProof.
  destruct (String.eqb (ProofType o) BbsBlsSignature2020);
    by rewrite ?provableProofs_addContext.
Qed.

(** ** C1 *)

(** C1. Once the controller resolves: a requested verification method is
    accepted exactly when its ID is among the document's methods for the
    required relationship and is refused with an error otherwise; with no
    method requested the first method of the relationship is written into
    the options, and an empty relationship is an error.  [Issue] validates
    against [assertionMethod] and [Prove] against [authentication]: a
    successful call signs with a method chosen that way, and a call whose
    method cannot be validated fails while the proof is prepared. *)
Theorem verification_method_validation E c opts w res :
  Controller opts <> "" ->
  fst (walletVDR_Resolve E c (Controller opts) w) = inr res ->
  let given := VerificationMethodID opts in
  (forall method,
      let ids := methodIDs (DIDDocument res) method in
      let validated := fst (validateProofOption E c (Some opts) method w) in
      (given <> "" -> given ∈ ids ->
       exists o, validated = inr o /\ VerificationMethodID o = given) /\
      (given <> "" -> given ∉ ids -> validated = inl (missingMethod method)) /\
      (given = "" -> forall id rest, ids = id :: rest ->
       exists o, validated = inr o /\ VerificationMethodID o = id) /\
      (given = "" -> ids = [] -> validated = inl (missingMethod method))) /\
  (forall token cred,
      let ids := methodIDs (DIDDocument res) AssertionMethod in
      (forall vc, fst (Issue E c token cred (Some opts) w) = inr vc ->
       exists p, last (vcProofs vc) = Some p /\
                 proofVerificationMethod p ∈ ids /\
                 (given <> "" -> proofVerificationMethod p = given) /\
                 (given = "" -> head ids = Some (proofVerificationMethod p))) /\
      (forall vc0, decodeCredential E cred = inr vc0 ->
       (given <> "" /\ given ∉ ids) \/ (given = "" /\ ids = []) ->
       fst (Issue E c token cred (Some opts) w)
       = inl (wrapError "failed to prepare proof" (missingMethod AssertionMethod)))) /\
  (forall token creds,
      let ids := methodIDs (DIDDocument res) Authentication in
      (forall vp, fst (Prove E c token (Some opts) creds w) = inr vp ->
       exists p, last (vpProofs vp) = Some p /\
                 proofVerificationMethod p ∈ ids /\
                 (given <> "" -> proofVerificationMethod p = given) /\
                 (given = "" -> head ids = Some (proofVerificationMethod p))) /\
      (forall vp0, fst (resolveOptionsToPresent E c creds w) = inr vp0 ->
       (given <> "" /\ given ∉ ids) \/ (given = "" /\ ids = []) ->
       fst (Prove E c token (Some opts) creds w)
       = inl (wrapError "failed to prepare proof" (missingMethod Authentication)))).
Proof.
  intros Hc Hr given.
  assert (Hval : forall method,
             fst (validateProofOption E c (Some opts) method w)
             = match validateVerificationMethod (DIDDocument res) opts method with
               | inl err => inl err
               | inr o => inr (withDefaults o)
               end)
    by (intros method; by apply validateProofOption_resolved).
  assert (Hbad : forall method,
             (given <> "" /\ given ∉ methodIDs (DIDDocument res) method)
             \/ (given = "" /\ methodIDs (DIDDocument res) method = []) ->
             fst (validateProofOption E c (Some opts) method w) = inl (missingMethod method)).
  { intros method Hcase. rewrite Hval. destruct Hcase as [[Hne Hnin]|[He Hnil]].
    - rewrite (validateVerificationMethod_given _ _ _ Hne). by rewrite decide_False.
    - rewrite (validateVerificationMethod_omitted _ _ _ He). fold given. by rewrite Hnil. }
  assert (Hgood : forall method o,
             fst (validateProofOption E c (Some opts) method w) = inr o ->
             VerificationMethodID o ∈ methodIDs (DIDDocument res) method /\
             (given <> "" -> VerificationMethodID o = given) /\
             (given = "" ->
              head (methodIDs (DIDDocument res) method) = Some (VerificationMethodID o))).
  { intros method o Ho. rewrite Hval in Ho.
    destruct (validateVerificationMethod (DIDDocument res) opts method) as [err|o1] eqn:Hv;
      [discriminate |].
    injection Ho as <-. apply validateVerificationMethod_inr in Hv as (Hin & Hg & He).
    split; [exact Hin |]. split.
    - intros Hne. by rewrite (Hg Hne).
    - intros Hempty. by destruct (He Hempty). }
  split; [| split].
  - intros method ids validated. subst ids validated. repeat split.
    + intros Hne Hin. rewrite Hval, (validateVerificationMethod_given _ _ _ Hne).
      rewrite decide_True by exact Hin. by exists (withDefaults opts).
    + intros Hne Hnin. apply Hbad. by left.
    + intros He id rest Hids. rewrite Hval, (validateVerificationMethod_omitted _ _ _ He).
      rewrite Hids. by exists (withDefaults (setVerificationMethod opts id)).
    + intros He Hnil. apply Hbad. by right.
  - intros token cred ids. split.
    + intros vc H. rewrite Issue_stages in H.
      destruct (decodeCredential E cred) as [err|vc0]; [discriminate |].
      destruct (fst (validateProofOption E c (Some opts) AssertionMethod w))
        as [err|o] eqn:Ho; [discriminate |].
      destruct (fst (addLinkedDataProof E (k := isCredential) token vc0 o AssertionMethod w))
        as [err|vc'] eqn:Hs; [discriminate |].
      injection H as <-.
      apply addLinkedDataProof_proofs in Hs as (_ & repr & sig & _ & Hp).
      simpl in Hp. exists (proofFor o AssertionMethod repr sig).
      rewrite Hp, last_snoc. split; [reflexivity |]. by apply Hgood.
    + intros vc0 Hd Hcase. rewrite Issue_stages, Hd. by rewrite (Hbad _ Hcase).
  - intros token creds ids. split.
    + intros vp H. rewrite Prove_stages in H.
      destruct (fst (resolveOptionsToPresent E c creds w)) as [err|vp0]; [discriminate |].
      destruct (fst (validateProofOption E c (Some opts) Authentication w))
        as [err|o] eqn:Ho; [discriminate |].
      destruct (fst (addLinkedDataProof E (k := isPresentation) token
                       (setHolder vp0 (Controller o)) o Authentication w))
        as [err|vp'] eqn:Hs; [discriminate |].
      injection H as <-.
      apply addLinkedDataProof_proofs in Hs as (_ & repr & sig & _ & Hp).
      simpl in Hp. exists (proofFor o Authentication repr sig).
      rewrite Hp, last_snoc. split; [reflexivity |]. by apply Hgood.
    + intros vp0 Hd Hcase. rewrite Prove_stages, Hd. by rewrite (Hbad _ Hcase).
Qed.

Lemma verification_method_validation_witness :
  (exists o,
      fst (validateProofOption Sample.env Sample.wallet (Some (Sample.options "" ""))
                               AssertionMethod Sample.world) = inr o
      /\ VerificationMethodID o = "did:example:alice#key-2")
  /\ fst (validateProofOption Sample.env Sample.wallet
            (Some (Sample.options "did:example:alice#key-2" "")) Authentication Sample.world)
     = inl (missingMethod Authentication).
Proof.
  split.
  - destruct (verification_method_validation Sample.env Sample.wallet
                (Sample.options "" "") Sample.world (mkDocResolution Sample.aliceDoc))
      as [Hv _]; [by apply String.eqb_neq | reflexivity |].
    destruct (Hv AssertionMethod) as (_ & _ & Hfirst & _).
    eapply Hfirst; reflexivity.
  - destruct (verification_method_validation Sample.env Sample.wallet
                (Sample.options "did:example:alice#key-2" "") Sample.world
                (mkDocResolution Sample.aliceDoc))
      as [Hv _]; [by apply String.eqb_neq | reflexivity |].
    destruct (Hv Authentication) as (_ & Hrefused & _).
    apply Hrefused; [by apply String.eqb_neq |].
    intros [Heq|Hin]%elem_of_cons; [discriminate Heq | by apply elem_of_nil in Hin].
Defined.

(** ** The calls of a signing run *)

Lemma onlyCalls_logged (P : call -> Prop) w cs :
  Forall P cs -> onlyCalls P w (mkWorld (profiles w) (contents w) (calls w ++ cs)).
Proof. intros H. repeat split. by exists cs. Qed.

Lemma signWith_calls E {k} (p : provable k) o rel suite popts :
  supportedProofType (ProofType o) ->
  framed (signingCall k o rel) (signWith E p o rel suite popts).
Proof.
  intros Hs. unfold signWith.
  destruct (ProofRepresentation o) as [repr|] eqn:Hr; [cbv zeta | apply framed_ret].
  apply framed_bind; [| intros r; frame].
  unfold AddLinkedDataProof. apply framed_bind; [| intros _; frame].
  apply framed_record. simpl. by rewrite Hr.
Qed.

Lemma addLinkedDataProof_calls E {k} token (p : provable k) o rel :
  framed (signingCall k o rel) (addLinkedDataProof E token p o rel).
Proof.
  unfold addLinkedDataProof.
  apply framed_bind; [by apply framed_record | intros _].
  destruct (newKMSSigner E token o) as [err|s]; [apply framed_ret |].
  destruct (String.eqb_spec (ProofType o) Ed25519Signature2018) as [H1|H1];
    [apply signWith_calls; by left |].
  destruct (String.eqb_spec (ProofType o) JSONWebSignature2020) as [H2|H2];
    [apply signWith_calls; right; by left |].
  destruct (String.eqb_spec (ProofType o) BbsBlsSignature2020) as [H3|H3];
    [| apply framed_ret].
  destruct (bbsJSONLDDocumentLoader E); [apply framed_ret |].
  apply signWith_calls. right; by right.
Qed.

Section SigningCalls.

Variable E : Env.

(** Every call of an [Issue] is one of its reads, and every proof it adds is
    added under the options its validation step returned. *)
Lemma Issue_signing_calls c token cred opts w :
  onlyCalls (fun k => issueCall k /\
                      (isAddProof k ->
                       exists o, fst (validateProofOption E c opts AssertionMethod w) = inr o /\
                                 signingCall isCredential o AssertionMethod k))
            w (snd (Issue E c token cred opts w)).
Proof.
  set (P := fun k => _ /\ _).
  assert (Hread : forall k, issueCall k -> ~ isAddProof k -> P k).
  { intros k Hk Hn. split; [exact Hk | intros; contradiction]. }
  unfold Issue, bind at 1. rewrite ParseCredential_unchecked.
  set (w1 := mkWorld _ _ _).
  assert (H1 : onlyCalls P w w1).
  { apply onlyCalls_logged. constructor; [| constructor]. apply Hread; simpl; tauto. }
  destruct (decodeCredential E cred) as [err|vc]; [exact H1 |].
  cbv zeta. unfold bind at 1.
  pose proof (validateProofOption_contents E c opts AssertionMethod w1 w eq_refl) as Hsame.
  assert (H2 : onlyCalls P w1 (snd (validateProofOption E c opts AssertionMethod w1))).
  { eapply onlyCalls_weaken;
      [| apply (framed_validateProofOption E
                  (fun k => issueCall k /\ ~ isAddProof k)); simpl; tauto].
    intros k [? ?]. by apply Hread. }
  destruct (validateProofOption E c opts AssertionMethod w1) as [[err|o] w2].
  { eapply onlyCalls_trans; eauto. }
  cbn [fst snd] in *. unfold bind.
  pose proof (addLinkedDataProof_calls E (k := isCredential) token vc o AssertionMethod w2)
    as H3.
  destruct (addLinkedDataProof E (k := isCredential) token vc o AssertionMethod w2)
    as [r w3].
  cbn [snd] in H3.
  assert (H3' : onlyCalls P w2 w3).
  { eapply onlyCalls_weaken; [| exact H3].
    intros k Hk. split.
    - destruct k; simpl in *; try tauto. by destruct Hk as [-> _].
    - intros _. exists o. by rewrite <- Hsame. }
  destruct r; cbn [snd]; eauto using onlyCalls_trans.
Qed.

(** The same for [Prove], whose documents are presentations and whose
    relationship is [authentication]. *)
Lemma Prove_signing_calls c token opts creds w :
  onlyCalls (fun k => proveCall k /\
                      (isAddProof k ->
                       exists o, fst (validateProofOption E c opts Authentication w) = inr o /\
                                 signingCall isPresentation o Authentication k))
            w (snd (Prove E c token opts creds w)).
Proof.
  set (P := fun k => _ /\ _).
  assert (Hread : forall k, proveCall k -> ~ isAddProof k -> P k).
  { intros k Hk Hn. split; [exact Hk | intros; contradiction]. }
  unfold Prove, bind at 1.
  assert (H1 : onlyCalls P w (snd (resolveOptionsToPresent E c creds w))).
  { eapply onlyCalls_weaken;
      [| apply (framed_resolveOptionsToPresent E
                  (fun k => proveCall k /\ ~ isAddProof k)); simpl; tauto].
    intros k [? ?]. by apply Hread. }
  destruct (resolveOptionsToPresent E c creds w) as [[err|vp] w1]; [exact H1 |].
  cbn [fst snd] in *. unfold bind at 1.
  assert (Hcont : contents w1 = contents w) by apply H1.
  pose proof (validateProofOption_contents E c opts Authentication w1 w Hcont) as Hsame.
  assert (H2 : onlyCalls P w1 (snd (validateProofOption E c opts Authentication w1))).
  { eapply onlyCalls_weaken;
      [| apply (framed_validateProofOption E
                  (fun k => proveCall k /\ ~ isAddProof k)); simpl; tauto].
    intros k [? ?]. by apply Hread. }
  destruct (validateProofOption E c opts Authentication w1) as [[err|o] w2].
  { eapply onlyCalls_trans; eauto. }
  cbn [fst snd] in *. unfold bind.
  pose proof (addLinkedDataProof_calls E (k := isPresentation) token
                (setHolder vp (Controller o)) o Authentication w2) as H3.
  destruct (addLinkedDataProof E (k := isPresentation) token
              (setHolder vp (Controller o)) o Authentication w2) as [r w3].
  cbn [snd] in H3.
  assert (H3' : onlyCalls P w2 w3).
  { eapply onlyCalls_weaken; [| exact H3].
    intros k Hk. split.
    - destruct k; simpl in *; try tauto. by destruct Hk as [-> _].
    - intros _. exists o. by rewrite <- Hsame. }
  destruct r; cbn [snd]; eauto using onlyCalls_trans.
Qed.

End SigningCalls.

(** ** What validation does to the options *)

(** Validation changes nothing but the verification method, the proof type
    and the proof representation. *)
Lemma validateProofOption_fields E c opts method w o :
  fst (validateProofOption E c opts method w) = inr o ->
  exists opts0,
    opts = Some opts0 /\
    Controller o = Controller opts0 /\
    Created o = Created opts0 /\ Domain o = Domain opts0 /\ Challenge o = Challenge opts0 /\
    ProofType o = ProofType (withDefaults opts0) /\
    ProofRepresentation o = ProofRepresentation (withDefaults opts0).
Proof.
  intros H. apply validateProofOption_inr in H as (opts0 & res & o1 & -> & _ & _ & Hv & ->).
  exists opts0. split; [reflexivity |].
  apply validateVerificationMethod_inr in Hv as (_ & Hg & He).
  destruct (String.eqb_spec (VerificationMethodID opts0) "") as [Hempty|Hne].
  - destruct (He Hempty) as [_ ->]. by repeat split.
  - rewrite (Hg Hne). by repeat split.
Qed.

(** With an unsupported proof type the signing run stops at the [default]
    branch, after the signer was made. *)
Lemma addLinkedDataProof_unsupported E {k} token (p : provable k) o rel w :
  ~ supportedProofType (ProofType o) ->
  fst (addLinkedDataProof E token p o rel w)
  = match newKMSSigner E token o with
    | inl err => inl err
    | inr _ => inl (unsupportedSignatureType (ProofType o))
    end.
Proof.
  intros Hn. unfold addLinkedDataProof, bind, record. simpl.
  destruct (newKMSSigner E token o) as [err|s]; [reflexivity |].
  destruct (String.eqb_spec (ProofType o) Ed25519Signature2018) as [H1|H1];
    [destruct Hn; by left |].
  destruct (String.eqb_spec (ProofType o) JSONWebSignature2020) as [H2|H2];
    [destruct Hn; right; by left |].
  destruct (String.eqb_spec (ProofType o) BbsBlsSignature2020) as [H3|H3];
    [destruct Hn; right; by right | reflexivity].
Qed.

(** ** C5 *)

(** C5, as the code has it.  With an explicit proof type that is none of
    [Ed25519Signature2018], [JsonWebSignature2020] and [BbsBlsSignature2020],
    [Issue] and [Prove] fail and never add a proof; when the stages before
    the suite is chosen succeed (the input parses, the options validate, the
    signer is made) the error is the unsupported-signature-type error naming
    the type, and otherwise it is the error of the first of them to fail. *)
Theorem unsupported_proof_type_fails E c opts token w :
  ProofType opts <> "" ->
  ~ supportedProofType (ProofType opts) ->
  (forall cred,
      let run := Issue E c token cred (Some opts) w in
      (exists err, fst run = inl err) /\
      onlyCalls (fun k => ~ isAddProof k) w (snd run) /\
      (forall vc o s,
          decodeCredential E cred = inr vc ->
          fst (validateProofOption E c (Some opts) AssertionMethod w) = inr o ->
          newKMSSigner E token o = inr s ->
          fst run = inl (wrapError "failed to issue credential"
                                   (unsupportedSignatureType (ProofType opts)))) /\
      fst run
      = match decodeCredential E cred with
        | inl e => inl (wrapError "failed to parse credential" e)
        | inr vc =>
            match fst (validateProofOption E c (Some opts) AssertionMethod w) with
            | inl e => inl (wrapError "failed to prepare proof" e)
            | inr o =>
                inl (wrapError "failed to issue credential"
                       match newKMSSigner E token o with
                       | inl e => e
                       | inr _ => unsupportedSignatureType (ProofType opts)
                       end)
            end
        end) /\
  (forall creds,
      let run := Prove E c token (Some opts) creds w in
      (exists err, fst run = inl err) /\
      onlyCalls (fun k => ~ isAddProof k) w (snd run) /\
      (forall vp o s,
          fst (resolveOptionsToPresent E c creds w) = inr vp ->
          fst (validateProofOption E c (Some opts) Authentication w) = inr o ->
          newKMSSigner E token o = inr s ->
          fst run = inl (wrapError "failed to prove credentials"
                                   (unsupportedSignatureType (ProofType opts)))) /\
      fst run
      = match fst (resolveOptionsToPresent E c creds w) with
        | inl e => inl (wrapError "failed to resolve credentials from request" e)
        | inr vp =>
            match fst (validateProofOption E c (Some opts) Authentication w) with
            | inl e => inl (wrapError "failed to prepare proof" e)
            | inr o =>
                inl (wrapError "failed to prove credentials"
                       match newKMSSigner E token o with
                       | inl e => e
                       | inr _ => unsupportedSignatureType (ProofType opts)
                       end)
            end
        end).
Proof.
  intros Hne Hun.
  assert (Hty : forall method o,
             fst (validateProofOption E c (Some opts) method w) = inr o ->
             ProofType o = ProofType opts).
  { intros method o Ho.
    apply validateProofOption_fields in Ho as (opts0 & Heq & _ & _ & _ & _ & Hpt & _).
    injection Heq as <-. rewrite Hpt. simpl.
    apply String.eqb_neq in Hne. by rewrite Hne. }
  split.
  - intros cred run. subst run. split; [| split; [| split]].
    + rewrite Issue_stages.
      destruct (decodeCredential E cred) as [err|vc]; [by eexists |].
      destruct (fst (validateProofOption E c (Some opts) AssertionMethod w))
        as [err|o] eqn:Ho; [by eexists |].
      rewrite addLinkedDataProof_unsupported by (by rewrite (Hty _ _ Ho)).
      destruct (newKMSSigner E token o); by eexists.
    + eapply onlyCalls_weaken; [| apply Issue_signing_calls].
      intros k [_ Hk] Hadd. destruct (Hk Hadd) as (o' & Ho' & Hsig).
      destruct k; try contradiction. destruct Hsig as (_ & Hs & _).
      apply Hun. by rewrite <- (Hty _ _ Ho').
    + intros vc o s Hd Ho Hs. rewrite Issue_stages, Hd, Ho.
      rewrite addLinkedDataProof_unsupported by (by rewrite (Hty _ _ Ho)).
      by rewrite Hs, (Hty _ _ Ho).
    + rewrite Issue_stages.
      destruct (decodeCredential E cred) as [err|vc]; [reflexivity |].
      destruct (fst (validateProofOption E c (Some opts) AssertionMethod w))
        as [err|o] eqn:Ho; [reflexivity |].
      rewrite addLinkedDataProof_unsupported by (by rewrite (Hty _ _ Ho)).
      rewrite (Hty _ _ Ho). by destruct (newKMSSigner E token o).
  - intros creds run. subst run. split; [| split; [| split]].
    + rewrite Prove_stages.
      destruct (fst (resolveOptionsToPresent E c creds w)) as [err|vp]; [by eexists |].
      destruct (fst (validateProofOption E c (Some opts) Authentication w))
        as [err|o] eqn:Ho; [by eexists |].
      rewrite addLinkedDataProof_unsupported by (by rewrite (Hty _ _ Ho)).
      destruct (newKMSSigner E token o); by eexists.
    + eapply onlyCalls_weaken; [| apply Prove_signing_calls].
      intros k [_ Hk] Hadd. destruct (Hk Hadd) as (o' & Ho' & Hsig).
      destruct k; try contradiction. destruct Hsig as (_ & Hs & _).
      apply Hun. by rewrite <- (Hty _ _ Ho').
    + intros vp o s Hd Ho Hs. rewrite Prove_stages, Hd, Ho.
      rewrite addLinkedDataProof_unsupported by (by rewrite (Hty _ _ Ho)).
      by rewrite Hs, (Hty _ _ Ho).
    + rewrite Prove_stages.
      destruct (fst (resolveOptionsToPresent E c creds w)) as [err|vp]; [reflexivity |].
      destruct (fst (validateProofOption E c (Some opts) Authentication w))
        as [err|o] eqn:Ho; [reflexivity |].
      rewrite addLinkedDataProof_unsupported by (by rewrite (Hty _ _ Ho)).
      rewrite (Hty _ _ Ho). by destruct (newKMSSigner E token o).
Qed.

Lemma unsupported_proof_type_fails_witness :
  fst (Issue Sample.env Sample.wallet "token" (Sample.bytes "vc-plain")
             (Some (Sample.options "" "RsaSignature2018")) Sample.world)
  = inl (wrapError "failed to issue credential"
                   (errorString "unsupported signature type 'RsaSignature2018'")).
Proof.
  destruct (unsupported_proof_type_fails Sample.env Sample.wallet
              (Sample.options "" "RsaSignature2018") "token" Sample.world)
    as [HIssue _].
  - by apply String.eqb_neq.
  - intros [H|[H|H]]; discriminate H.
  - destruct (HIssue (Sample.bytes "vc-plain")) as (_ & _ & Herr & _).
    eapply Herr; reflexivity.
Defined.

(** C5 as stated fails: the signer is asked for before the proof type is
    looked at, so an [Issue] with the unsupported type [RsaSignature2018]
    and an auth token no signer can be made for fails with the error of the
    token, and not with the unsupported-signature-type error. *)
Lemma unsupported_proof_type_counterexample :
  ~ supportedProofType "RsaSignature2018"
  /\ exists err,
      fst (Issue Sample.env Sample.wallet "expired" (Sample.bytes "vc-plain")
                 (Some (Sample.options "" "RsaSignature2018")) Sample.world) = inl err
      /\ Error err = "failed to issue credential: invalid auth token"
      /\ rootCause err <> unsupportedSignatureType "RsaSignature2018".
Proof.
  split; [intros [H|[H|H]]; discriminate H |].
  eexists. split; [reflexivity |]. split; [reflexivity | discriminate].
Qed.

(** ** C6 *)

(** C6. When the proof options pass validation, the options handed on to
    signing carry [Ed25519Signature2018] where the proof type was omitted and
    the JWS representation where the proof representation was omitted (a
    given type or representation is kept); every proof [Issue] or [Prove]
    then adds is added under that type and representation. *)
Theorem proof_option_defaults E c opts method w o :
  fst (validateProofOption E c opts method w) = inr o ->
  exists opts0,
    opts = Some opts0 /\
    (ProofType opts0 = "" -> ProofType o = Ed25519Signature2018) /\
    (ProofType opts0 <> "" -> ProofType o = ProofType opts0) /\
    (ProofRepresentation opts0 = None -> ProofRepresentation o = Some SignatureJWS) /\
    (forall r, ProofRepresentation opts0 = Some r -> ProofRepresentation o = Some r) /\
    (method = AssertionMethod ->
     forall token cred,
       onlyCalls (fun k => forall k' ctx, k = callAddLinkedDataProof k' ctx ->
                    ctxSignatureType ctx = ProofType o /\
                    Some (ctxSignatureRepresentation ctx) = ProofRepresentation o)
                 w (snd (Issue E c token cred opts w))) /\
    (method = Authentication ->
     forall token creds,
       onlyCalls (fun k => forall k' ctx, k = callAddLinkedDataProof k' ctx ->
                    ctxSignatureType ctx = ProofType o /\
                    Some (ctxSignatureRepresentation ctx) = ProofRepresentation o)
                 w (snd (Prove E c token opts creds w))).
Proof.
  intros Ho.
  destruct (validateProofOption_fields E c opts method w o Ho)
    as (opts0 & -> & _ & _ & _ & _ & Hpt & Hpr).
  exists opts0. split; [reflexivity |].
  simpl in Hpt, Hpr.
  split; [intros He; by rewrite Hpt, He |].
  split; [intros Hne; apply String.eqb_neq in Hne; by rewrite Hpt, Hne |].
  split; [intros Hn; by rewrite Hpr, Hn |].
  split; [intros r Hr; by rewrite Hpr, Hr |].
  split.
  - intros -> token cred.
    eapply onlyCalls_weaken; [| apply Issue_signing_calls].
    intros k [_ Hk] k' ctx ->. destruct (Hk I) as (o' & Ho' & Hsig).
    rewrite Ho in Ho'. injection Ho' as <-.
    destruct Hsig as (_ & _ & Ht & Hr & _). by rewrite Ht, Hr.
  - intros -> token creds.
    eapply onlyCalls_weaken; [| apply Prove_signing_calls].
    intros k [_ Hk] k' ctx ->. destruct (Hk I) as (o' & Ho' & Hsig).
    rewrite Ho in Ho'. injection Ho' as <-.
    destruct Hsig as (_ & _ & Ht & Hr & _). by rewrite Ht, Hr.
Qed.

Lemma proof_option_defaults_witness :
  exists o,
    fst (validateProofOption Sample.env Sample.wallet (Some (Sample.options "" ""))
                             AssertionMethod Sample.world) = inr o
    /\ ProofType o = "Ed25519Signature2018"
    /\ ProofRepresentation o = Some SignatureJWS.
Proof.
  eexists. split; [reflexivity |].
  destruct (proof_option_defaults Sample.env Sample.wallet (Some (Sample.options "" ""))
              AssertionMethod Sample.world _ eq_refl)
    as (opts0 & Heq & Hty & _ & Hrepr & _).
  injection Heq as <-. split; [by apply Hty | by apply Hrepr].
Defined.

(** ** What a successful Prove returns *)

Lemma Prove_inr E c token opts creds w vp :
  fst (Prove E c token opts creds w) = inr vp ->
  exists opts0 vp0 p,
    opts = Some opts0 /\
    fst (resolveOptionsToPresent E c creds w) = inr vp0 /\
    vpHolder vp = Controller opts0 /\
    vpCredentials vp = vpCredentials vp0 /\
    vpProofs vp = (vpProofs vp0 ++ [p])%list /\
    proofPurpose p = "authentication".
Proof.
  intros H. rewrite Prove_stages in H.
  destruct (fst (resolveOptionsToPresent E c creds w)) as [err|vp0]; [discriminate |].
  destruct (fst (validateProofOption E c opts Authentication w)) as [err|o] eqn:Ho;
    [discriminate |].
  destruct (fst (addLinkedDataProof E (k := isPresentation) token
                   (setHolder vp0 (Controller o)) o Authentication w))
    as [err|vp'] eqn:Hs; [discriminate |].
  injection H as <-.
  apply validateProofOption_fields in Ho as (opts0 & -> & Hctl & _).
  apply addLinkedDataProof_inr in Hs as (_ & repr & sig & _ & ->).
  exists opts0, vp0, (proofFor o Authentication repr sig).
  rewrite <- Hctl. by destruct (String.eqb (ProofType o) BbsBlsSignature2020).
Qed.

(** ** C7 *)

(** C7. A successful [Prove] returns the resolved presentation with its
    holder set to the controller of the proof options and one more proof,
    whose purpose is ["authentication"]; a successful [Issue] returns the
    parsed credential with one more proof, whose purpose is
    ["assertionMethod"].  Every proof either operation adds, whether or not
    the call goes on to succeed, is added under that purpose. *)
Theorem prove_holder_and_purpose E c token opts w :
  (forall creds vp,
      fst (Prove E c token opts creds w) = inr vp ->
      exists opts0 vp0 p,
        opts = Some opts0 /\
        fst (resolveOptionsToPresent E c creds w) = inr vp0 /\
        vpHolder vp = Controller opts0 /\
        vpCredentials vp = vpCredentials vp0 /\
        vpProofs vp = (vpProofs vp0 ++ [p])%list /\
        proofPurpose p = "authentication") /\
  (forall creds,
      onlyCalls (fun k => forall k' ctx, k = callAddLinkedDataProof k' ctx ->
                   ctxPurpose ctx = "authentication")
                w (snd (Prove E c token opts creds w))) /\
  (forall cred vc,
      fst (Issue E c token cred opts w) = inr vc ->
      exists vc0 p,
        decodeCredential E cred = inr vc0 /\
        vcProofs vc = (vcProofs vc0 ++ [p])%list /\
        proofPurpose p = "assertionMethod") /\
  (forall cred,
      onlyCalls (fun k => forall k' ctx, k = callAddLinkedDataProof k' ctx ->
                   ctxPurpose ctx = "assertionMethod")
                w (snd (Issue E c token cred opts w))).
Proof.
  split; [| split; [| split]].
  - intros creds vp H. exact (Prove_inr E c token opts creds w vp H).
  - intros creds. eapply onlyCalls_weaken; [| apply Prove_signing_calls].
    intros k [_ Hk] k' ctx ->. destruct (Hk I) as (o' & _ & Hsig).
    by destruct Hsig as (_ & _ & _ & _ & _ & ->).
  - intros cred vc H. rewrite Issue_stages in H.
    destruct (decodeCredential E cred) as [err|vc0]; [discriminate |].
    destruct (fst (validateProofOption E c opts AssertionMethod w)) as [err|o] eqn:Ho;
      [discriminate |].
    destruct (fst (addLinkedDataProof E (k := isCredential) token vc0 o AssertionMethod w))
      as [err|vc'] eqn:Hs; [discriminate |].
    injection H as <-.
    apply addLinkedDataProof_proofs in Hs as (_ & repr & sig & _ & Hp).
    by exists vc0, (proofFor o AssertionMethod repr sig).
  - intros cred. eapply onlyCalls_weaken; [| apply Issue_signing_calls].
    intros k [_ Hk] k' ctx ->. destruct (Hk I) as (o' & _ & Hsig).
    by destruct Hsig as (_ & _ & _ & _ & _ & ->).
Qed.

Lemma prove_holder_and_purpose_witness :
  exists vp p,
    fst (Prove Sample.env Sample.wallet "token"
               (Some (Sample.options "" "JsonWebSignature2020"))
               [WithStoredCredentialsToProve ["c1"]] Sample.world) = inr vp
    /\ vpHolder vp = "did:example:alice"
    /\ vpCredentials vp = [Sample.vcPlain]
    /\ vpProofs vp = [p]
    /\ proofPurpose p = "authentication".
Proof.
  destruct (prove_holder_and_purpose Sample.env Sample.wallet "token"
              (Some (Sample.options "" "JsonWebSignature2020")) Sample.world)
    as [HProve _].
  destruct (HProve [WithStoredCredentialsToProve ["c1"]] _ eq_refl)
    as (opts0 & vp0 & p & Heq & Hres & Hh & Hc & Hp & Hpurpose).
  injection Heq as <-. vm_compute in Hres. injection Hres as <-.
  eexists. exists p. split; [reflexivity |]. by repeat split.
Defined.

(** ** C2: the BBS context *)

Lemma occurrences_app x l1 l2 :
  occurrences x (l1 ++ l2) = occurrences x l1 + occurrences x l2.
Proof. induction l1 as [|y l1 IH]; simpl; [reflexivity | rewrite IH; lia]. Qed.

Lemma hasContext_occurrences l x :
  hasContext l x = negb (Nat.eqb (occurrences x l) 0).
Proof.
  induction l as [|y l IH]; simpl; [reflexivity |].
  destruct (String.eqb y x); [reflexivity | exact IH].
Qed.

Lemma addContext_credential (vc : Credential) ctx :
  vcContext (addContext (k := isCredential) vc ctx)
  = if hasContext (vcContext vc) ctx then vcContext vc else (vcContext vc ++ [ctx])%list.
Proof. simpl. by destruct (hasContext (vcContext vc) ctx). Qed.

Lemma addContext_occurrences (vc : Credential) ctx :
  occurrences ctx (vcContext (addContext (k := isCredential) vc ctx))
  = Nat.max 1 (occurrences ctx (vcContext vc)).
Proof.
  rewrite addContext_credential, hasContext_occurrences.
  destruct (Nat.eqb_spec (occurrences ctx (vcContext vc)) 0) as [Hz|Hnz]; simpl.
  - rewrite occurrences_app, Hz. simpl. by rewrite String.eqb_refl.
  - lia.
Qed.

Lemma addContext_idempotent (vc : Credential) ctx :
  addContext (k := isCredential) (addContext (k := isCredential) vc ctx) ctx
  = addContext (k := isCredential) vc ctx.
Proof.
  pose proof (addContext_occurrences vc ctx) as Hocc.
  set (vc' := addContext (k := isCredential) vc ctx) in *.
  simpl. rewrite hasContext_occurrences, Hocc.
  by destruct (occurrences ctx (vcContext vc)).
Qed.

(** X20.  A successful [Issue] with proof type
    [BbsBlsSignature2020] returns a credential whose [@context] is that of
    the parsed credential with the BBS context appended when it was absent,
    and unchanged when it was present: adding the context twice is adding it
    once, the output contains the URI, and contains it exactly once whenever
    the input contained it at most once. *)
Theorem bbs_context_added_to_credential E c token opts cred w vc :
  ProofType opts = BbsBlsSignature2020 ->
  fst (Issue E c token cred (Some opts) w) = inr vc ->
  exists vc0,
    decodeCredential E cred = inr vc0 /\
    vcContext vc
    = (if hasContext (vcContext vc0) bbsContext then vcContext vc0
       else (vcContext vc0 ++ [bbsContext])%list) /\
    addContext (k := isCredential) (addContext (k := isCredential) vc0 bbsContext) bbsContext
    = addContext (k := isCredential) vc0 bbsContext /\
    occurrences bbsContext (vcContext vc) = Nat.max 1 (occurrences bbsContext (vcContext vc0)) /\
    (occurrences bbsContext (vcContext vc0) <= 1 -> occurrences bbsContext (vcContext vc) = 1).
Proof.
  intros Hty H. rewrite Issue_stages in H.
  destruct (decodeCredential E cred) as [err|vc0]; [discriminate |].
  destruct (fst (validateProofOption E c (Some opts) AssertionMethod w)) as [err|o] eqn:Ho;
    [discriminate |].
  destruct (fst (addLinkedDataProof E (k := isCredential) token vc0 o AssertionMethod w))
    as [err|vc'] eqn:Hs; [discriminate |].
  injection H as <-.
  apply validateProofOption_fields in Ho as (opts0 & Heq & _ & _ & _ & _ & Hpt & _).
  injection Heq as <-. simpl in Hpt. rewrite Hty in Hpt. simpl in Hpt.
  apply addLinkedDataProof_inr in Hs as (_ & repr & sig & _ & ->).
  rewrite Hpt. change (String.eqb BbsBlsSignature2020 BbsBlsSignature2020) with true.
  cbv iota.
  assert (Hctx : vcContext (appendProof (k := isCredential)
                              (addContext (k := isCredential) vc0 bbsContext)
                              (proofFor o AssertionMethod repr sig))
                 = vcContext (addContext (k := isCredential) vc0 bbsContext))
    by reflexivity.
  exists vc0. split; [reflexivity |]. rewrite Hctx.
  split; [apply addContext_credential |].
  split; [apply addContext_idempotent |].
  split; [apply addContext_occurrences |].
  intros Hle. rewrite addContext_occurrences. lia.
Qed.

Lemma bbs_context_added_to_credential_witness :
  exists vc,
    fst (Issue Sample.env Sample.wallet "token" (Sample.bytes "vc-plain")
               (Some (Sample.options "" "BbsBlsSignature2020")) Sample.world) = inr vc
    /\ vcContext vc = [Sample.credentialsV1; bbsContext]
    /\ occurrences bbsContext (vcContext vc) = 1.
Proof.
  eexists. split; [reflexivity |].
  destruct (bbs_context_added_to_credential Sample.env Sample.wallet "token"
              (Sample.options "" "BbsBlsSignature2020") (Sample.bytes "vc-plain")
              Sample.world _ eq_refl eq_refl)
    as (vc0 & Hd & Hctx & _ & _ & Hone).
  injection Hd as <-. split; [exact Hctx |]. apply Hone. vm_compute. lia.
Defined.

(** C2 at a presentation.  A [Prove] with proof type [BbsBlsSignature2020]
    over a stored credential succeeds and attaches a BBS proof, and the
    presentation it returns has the context it was assembled with: the BBS
    context, which the signing run adds to a credential, is not in it. *)
Lemma bbs_context_missing_from_presentation :
  exists vp,
    fst (Prove Sample.env Sample.wallet "token"
               (Some (Sample.options "" "BbsBlsSignature2020"))
               [WithStoredCredentialsToProve ["c1"]] Sample.world) = inr vp
    /\ map proofType (vpProofs vp) = [BbsBlsSignature2020]
    /\ vpContext vp = [Sample.credentialsV1]
    /\ occurrences bbsContext (vpContext vp) = 0.
Proof. eexists. repeat split. Qed.

(** ** C3: resolving the credentials to present *)

Section Resolution.

Variable E : Env.

Lemma contents_Get_run c ct id w :
  contents_Get c ct id w
  = (match contents w !! contentKey (userID c) ct id with
     | Some blob => inr blob
     | None => inl NotFound
     end,
     mkWorld (profiles w) (contents w) (calls w ++ [callContentGet ct id])).
Proof.
  unfold contents_Get, bind, record, getWorld, ret. simpl.
  by destruct (contents w !! contentKey (userID c) ct id).
Qed.

Lemma resolveStoredCredentials_inr c ids all w res :
  fst (resolveStoredCredentials E c ids all w) = inr res ->
  exists decoded, res = (all ++ decoded)%list /\ Forall2 (storedAs E c w) ids decoded.
Proof.
  revert all w. induction ids as [|id rest IH]; intros all w H.
  - injection H as <-. exists []. by rewrite app_nil_r.
  - cbn [resolveStoredCredentials] in H. unfold bind at 1 in H.
    rewrite contents_Get_run in H.
    destruct (contents w !! contentKey (userID c) Credential_ id) as [raw|] eqn:Hget;
      [| discriminate].
    unfold bind at 1 in H. rewrite ParseCredential_unchecked in H.
    destruct (decodeCredential E raw) as [err|vc] eqn:Hd; [discriminate |].
    apply IH in H as (decoded & -> & Hall).
    exists (vc :: decoded). split; [by rewrite <- app_assoc |].
    constructor; [by exists raw | exact Hall].
Qed.

Lemma resolveRawCredentials_inr raws all w res :
  fst (resolveRawCredentials E raws all w) = inr res ->
  exists decoded,
    res = (all ++ decoded)%list /\
    Forall2 (fun raw vc => decodeCredential E raw = inr vc) raws decoded.
Proof.
  revert all w. induction raws as [|raw rest IH]; intros all w H.
  - injection H as <-. exists []. by rewrite app_nil_r.
  - cbn [resolveRawCredentials] in H. unfold bind at 1 in H.
    rewrite ParseCredential_unchecked in H.
    destruct (decodeCredential E raw) as [err|vc] eqn:Hd; [discriminate |].
    apply IH in H as (decoded & -> & Hall).
    exists (vc :: decoded). split; [by rewrite <- app_assoc |].
    by constructor.
Qed.

(** The presentation to sign holds the credentials of the presentation
    given, if any, then the stored, the raw and the parsed credentials, each
    taken as it decodes. *)
Lemma resolveOptionsToPresent_inr c creds w vp :
  fst (resolveOptionsToPresent E c creds w) = inr vp ->
  exists stored raws,
    Forall2 (storedAs E c w) (storedCredentials (getProveOpts creds)) stored /\
    Forall2 (fun raw vc => decodeCredential E raw = inr vc)
            (rawCredentials (getProveOpts creds)) raws /\
    vpCredentials vp
    = (match presentation (getProveOpts creds) with
       | Some vp0 => vpCredentials vp0
       | None => []
       end ++ stored ++ raws ++ credentials (getProveOpts creds))%list.
Proof.
  unfold resolveOptionsToPresent.
  set (o := getProveOpts creds). unfold bind at 1.
  destruct (resolveStoredCredentials E c (storedCredentials o) [] w) as [r1 w1] eqn:H1.
  assert (H1' : fst (resolveStoredCredentials E c (storedCredentials o) [] w) = r1)
    by (by rewrite H1).
  destruct r1 as [err|all1]; [discriminate |].
  apply resolveStoredCredentials_inr in H1' as (stored & -> & Hstored).
  unfold bind at 1.
  destruct (resolveRawCredentials E (rawCredentials o) ([] ++ stored) w1) as [r2 w2] eqn:H2.
  assert (H2' : fst (resolveRawCredentials E (rawCredentials o) ([] ++ stored) w1) = r2)
    by (by rewrite H2).
  destruct r2 as [err|all2]; [discriminate |].
  apply resolveRawCredentials_inr in H2' as (raws & -> & Hraws).
  intros H. exists stored, raws. split; [exact Hstored |]. split; [exact Hraws |].
  assert (Hall : (if Nat.ltb 0 (length (credentials o))
                  then ((([] ++ stored) ++ raws) ++ credentials o)%list
                  else (([] ++ stored) ++ raws)%list)
                 = (stored ++ raws ++ credentials o)%list).
  { destruct (credentials o) as [|x l]; simpl; [by rewrite app_nil_r |].
    by rewrite <- app_assoc. }
  rewrite Hall in H.
  destruct (presentation o) as [vp0|]; injection H as <-; reflexivity.
Qed.

(** None of this looks at the proof checkers. *)
Lemma resolveStoredCredentials_checks chkC chkP c ids all w :
  resolveStoredCredentials (withProofChecks E chkC chkP) c ids all w
  = resolveStoredCredentials E c ids all w.
Proof.
  revert all w. induction ids as [|id rest IH]; intros all w; [reflexivity |].
  cbn [resolveStoredCredentials]. unfold bind at 1 3.
  destruct (contents_Get c Credential_ id w) as [[err|raw] w1]; [reflexivity |].
  unfold bind. rewrite !ParseCredential_unchecked.
  change (decodeCredential (withProofChecks E chkC chkP) raw) with (decodeCredential E raw).
  destruct (decodeCredential E raw); [reflexivity | apply IH].
Qed.

Lemma resolveRawCredentials_checks chkC chkP raws all w :
  resolveRawCredentials (withProofChecks E chkC chkP) raws all w
  = resolveRawCredentials E raws all w.
Proof.
  revert all w. induction raws as [|raw rest IH]; intros all w; [reflexivity |].
  cbn [resolveRawCredentials]. unfold bind. rewrite !ParseCredential_unchecked.
  change (decodeCredential (withProofChecks E chkC chkP) raw) with (decodeCredential E raw).
  destruct (decodeCredential E raw); [reflexivity | apply IH].
Qed.

Lemma resolveOptionsToPresent_checks chkC chkP c creds w :
  resolveOptionsToPresent (withProofChecks E chkC chkP) c creds w
  = resolveOptionsToPresent E c creds w.
Proof.
  unfold resolveOptionsToPresent. unfold bind at 1 3.
  rewrite resolveStoredCredentials_checks.
  destruct (resolveStoredCredentials E c _ [] w) as [[err|all1] w1]; [reflexivity |].
  unfold bind. rewrite resolveRawCredentials_checks.
  by destruct (resolveRawCredentials E _ all1 w1) as [[err|all2] w2].
Qed.

Lemma Prove_checks chkC chkP c token opts creds w :
  Prove (withProofChecks E chkC chkP) c token opts creds w = Prove E c token opts creds w.
Proof.
  unfold Prove. unfold bind at 1 4. rewrite resolveOptionsToPresent_checks.
  by destruct (resolveOptionsToPresent E c creds w) as [[err|vp] w1].
Qed.

End Resolution.

(** C3. [Prove] never verifies the proofs of the credentials it assembles.
    No credential it parses is parsed with the proof check on; its outcome is
    the same whatever the proof checkers would answer; and when it succeeds
    the presentation holds every credential of every input form (those of a
    presentation passed in, the stored ones, the raw ones, the parsed ones),
    each as it decodes. *)
Theorem prove_does_not_verify E c token opts creds w :
  onlyCalls (fun k => ~ isCheckedParse k) w (snd (Prove E c token opts creds w)) /\
  (forall chkC chkP,
      Prove (withProofChecks E chkC chkP) c token opts creds w
      = Prove E c token opts creds w) /\
  (forall vp,
      fst (Prove E c token opts creds w) = inr vp ->
      exists stored raws,
        Forall2 (storedAs E c w) (storedCredentials (getProveOpts creds)) stored /\
        Forall2 (fun raw vc => decodeCredential E raw = inr vc)
                (rawCredentials (getProveOpts creds)) raws /\
        vpCredentials vp
        = (match presentation (getProveOpts creds) with
           | Some vp0 => vpCredentials vp0
           | None => []
           end ++ stored ++ raws ++ credentials (getProveOpts creds))%list).
Proof.
  split; [| split].
  - eapply onlyCalls_weaken; [| apply Prove_calls].
    intros k Hk. destruct k as [| | | | | |raw []| | |]; simpl in *; tauto.
  - intros chkC chkP. apply Prove_checks.
  - intros vp H.
    destruct (Prove_inr E c token opts creds w vp H)
      as (opts0 & vp0 & p & _ & Hres & _ & Hcreds & _).
    rewrite Hcreds. by apply resolveOptionsToPresent_inr.
Qed.

Lemma prove_does_not_verify_witness :
  (forall raw vc, decodeCredential Sample.env raw = inr vc ->
                  checkCredentialProofs Sample.env None vc
                  = Some (errorString "invalid signature"))
  /\ exists vp,
      fst (Prove Sample.env Sample.wallet "token" (Some (Sample.options "" ""))
                 [WithStoredCredentialsToProve ["c1"];
                  WithRawCredentialsToProve [Sample.bytes "vc-bbs"]] Sample.world) = inr vp
      /\ exists stored raws,
          Forall2 (storedAs Sample.env Sample.wallet Sample.world) ["c1"] stored
          /\ Forall2 (fun raw vc => decodeCredential Sample.env raw = inr vc)
                     [Sample.bytes "vc-bbs"] raws
          /\ vpCredentials vp = ([] ++ stored ++ raws ++ [])%list.
Proof.
  split; [reflexivity |].
  eexists. split; [reflexivity |].
  apply (prove_does_not_verify Sample.env Sample.wallet "token"
           (Some (Sample.options "" ""))
           [WithStoredCredentialsToProve ["c1"];
            WithRawCredentialsToProve [Sample.bytes "vc-bbs"]] Sample.world).
  reflexivity.
Defined.

(** ** C4: verification *)

Section Verification.

Variable E : Env.
Variable c : Wallet.

Lemma logged_logged w cs1 cs2 : logged (logged w cs1) cs2 = logged w (cs1 ++ cs2).
Proof. unfold logged. simpl. by rewrite app_assoc. Qed.

Lemma logged_nil w : logged w [] = w.
Proof. unfold logged. rewrite app_nil_r. by destruct w. Qed.

Lemma verifyCredential_run raw w :
  verifyCredential E c raw w
  = (match credentialFailure E c (contents w) raw with
     | Some err => (false, Some (wrapError "credential verification failed" err))
     | None => (true, None)
     end,
     logged w [callParseCredential raw true]).
Proof.
  unfold verifyCredential, ParseCredential, credentialFailure, bind, record, getWorld, ret,
    logged.
  simpl. destruct (decodeCredential E raw) as [err|vc]; [reflexivity |].
  by destruct (checkCredentialProofs E _ vc).
Qed.

Lemma ParsePresentation_run raw w :
  ParsePresentation E raw [WithPresPublicKeyFetcher (NewVDRKeyResolver E c (contents w))] w
  = (presentationParsed E c (contents w) raw, logged w [callParsePresentation raw]).
Proof.
  unfold ParsePresentation, presentationParsed, bind, record, ret, logged. simpl.
  destruct (decodePresentation E raw) as [err|vp]; [reflexivity |].
  by destruct (checkPresentationProofs E _ vp).
Qed.

(** One turn of the loop. *)
Lemma verifyEachCredential_cons cred rest w :
  verifyEachCredential E c (cred :: rest) w
  = match embeddedFailure E c (contents w) cred with
    | Some err => ((false, Some err), logged w (verificationCalls E [cred]))
    | None => verifyEachCredential E c rest (logged w (verificationCalls E [cred]))
    end.
Proof.
  cbn [verifyEachCredential]. unfold embeddedFailure, verificationCalls. simpl.
  destruct (marshalCredential E cred) as [err|raw]; simpl.
  - by rewrite logged_nil.
  - unfold bind. rewrite verifyCredential_run.
    by destruct (credentialFailure E c (contents w) raw).
Qed.

Lemma verificationCalls_app l1 l2 :
  verificationCalls E (l1 ++ l2) = (verificationCalls E l1 ++ verificationCalls E l2)%list.
Proof. unfold verificationCalls. by rewrite flat_map_app. Qed.

(** Credentials that verify are passed over, each leaving its parse in the
    log. *)
Lemma verifyEachCredential_prefix l1 rest w :
  Forall (fun cred => embeddedFailure E c (contents w) cred = None) l1 ->
  verifyEachCredential E c (l1 ++ rest) w
  = verifyEachCredential E c rest (logged w (verificationCalls E l1)).
Proof.
  revert w. induction l1 as [|cred l1 IH]; intros w Hall.
  - by rewrite logged_nil.
  - inversion Hall as [|? ? Hcred Hrest]; subst.
    rewrite <- app_comm_cons, verifyEachCredential_cons, Hcred.
    rewrite IH by exact Hrest. rewrite logged_logged.
    by rewrite <- verificationCalls_app.
Qed.

Lemma verifyEachCredential_pass creds w :
  Forall (fun cred => embeddedFailure E c (contents w) cred = None) creds ->
  verifyEachCredential E c creds w = ((true, None), logged w (verificationCalls E creds)).
Proof.
  intros Hall. rewrite <- (app_nil_r creds) at 1.
  by rewrite verifyEachCredential_prefix.
Qed.

Lemma verifyEachCredential_fail l1 cred l2 err w :
  Forall (fun cr => embeddedFailure E c (contents w) cr = None) l1 ->
  embeddedFailure E c (contents w) cred = Some err ->
  verifyEachCredential E c (l1 ++ cred :: l2) w
  = ((false, Some err), logged w (verificationCalls E (l1 ++ [cred]))).
Proof.
  intros Hall Hfail. rewrite verifyEachCredential_prefix by exact Hall.
  rewrite verifyEachCredential_cons. simpl. rewrite Hfail.
  by rewrite logged_logged, verificationCalls_app.
Qed.

(** Either every credential verifies or there is a first one that does not. *)
Lemma first_failure store (creds : list Credential) :
  Forall (fun cred => embeddedFailure E c store cred = None) creds \/
  exists l1 cred l2 err,
    creds = (l1 ++ cred :: l2)%list /\
    Forall (fun cr => embeddedFailure E c store cr = None) l1 /\
    embeddedFailure E c store cred = Some err.
Proof.
  induction creds as [|cred rest IH]; [by left |].
  destruct (embeddedFailure E c store cred) as [err|] eqn:Hcred.
  - right. by exists [], cred, rest, err.
  - destruct IH as [Hall|(l1 & cr & l2 & err & -> & Hall & Hfail)].
    + left. by constructor.
    + right. exists (cred :: l1), cr, l2, err. split; [reflexivity |].
      split; [by constructor | exact Hfail].
Qed.

Lemma verifyEachCredential_verdict creds w :
  verdict (fst (verifyEachCredential E c creds w)).
Proof.
  destruct (first_failure (contents w) creds)
    as [Hall|(l1 & cr & l2 & err & -> & Hall & Hfail)].
  - rewrite verifyEachCredential_pass by exact Hall. by left.
  - rewrite (verifyEachCredential_fail _ _ _ err) by assumption. right. by exists err.
Qed.

Lemma verifyCredential_verdict raw w : verdict (fst (verifyCredential E c raw w)).
Proof.
  rewrite verifyCredential_run. simpl.
  destruct (credentialFailure E c (contents w) raw) as [err|]; [right | left];
    [by eexists | reflexivity].
Qed.

Lemma verifyPresentation_run raw w :
  verifyPresentation E c raw w
  = match presentationParsed E c (contents w) raw with
    | inl err =>
        ((false, Some (wrapError "presentation verification failed" err)),
         logged w [callParsePresentation raw])
    | inr vp =>
        verifyEachCredential E c (vpCredentials vp) (logged w [callParsePresentation raw])
    end.
Proof.
  unfold verifyPresentation, bind, getWorld. rewrite ParsePresentation_run.
  by destruct (presentationParsed E c (contents w) raw).
Qed.

Lemma verifyPresentation_verdict raw w : verdict (fst (verifyPresentation E c raw w)).
Proof.
  rewrite verifyPresentation_run.
  destruct (presentationParsed E c (contents w) raw) as [err|vp].
  - right. by eexists.
  - apply verifyEachCredential_verdict.
Qed.

Lemma Verify_verdict options w : verdict (fst (Verify E c options w)).
Proof.
  unfold Verify.
  destruct (negb (String.eqb (credentialID (options (mkVerifyOpts "" [] []))) "")).
  - unfold bind. rewrite contents_Get_run.
    destruct (contents w !! _) as [raw|]; [apply verifyCredential_verdict |].
    right. by eexists.
  - destruct (Nat.ltb 0 (length (rawCredential (options (mkVerifyOpts "" [] []))))).
    + apply verifyCredential_verdict.
    + destruct (Nat.ltb 0 (length (rawPresentation (options (mkVerifyOpts "" [] []))))).
      * apply verifyPresentation_verdict.
      * right. by eexists.
Qed.

End Verification.

(** C4. Verifying a presentation parses and proof-checks the presentation
    first: if that fails the result is [(false, err)] and no embedded
    credential is looked at.  Otherwise the embedded credentials are verified
    in order: the result is [(true, nil)] exactly when each of them verifies,
    and at the first one that does not the loop ends with [(false, err)] for
    that credential, the ones after it never parsed.  [Verify] hands raw
    presentation bytes to this procedure, and every verification operation
    answers [(true, nil)] or [(false, err)].  Verifying a credential is one
    parse with the proofs checked: [(true, nil)] exactly when the credential
    parses and its proofs check out, and [(false, err)] with the failure
    wrapped otherwise.  [Verify] hands raw credential bytes to it as they
    are, and a stored credential once it is read from the store, so that
    [Verify] answers [(true, nil)] for a credential exactly when its proofs
    check out; a stored credential that is missing gives [(false, err)]
    without any parse. *)
Theorem verify_presentation_short_circuits E c raw w :
  let store := contents w in
  let w1 := logged w [callParsePresentation raw] in
  (forall err,
      presentationParsed E c store raw = inl err ->
      verifyPresentation E c raw w
      = ((false, Some (wrapError "presentation verification failed" err)), w1)) /\
  (forall vp,
      presentationParsed E c store raw = inr vp ->
      (Forall (fun cred => embeddedFailure E c store cred = None) (vpCredentials vp)
       <-> fst (verifyPresentation E c raw w) = (true, None)) /\
      (forall l1 cred l2 err,
          vpCredentials vp = (l1 ++ cred :: l2)%list ->
          Forall (fun cr => embeddedFailure E c store cr = None) l1 ->
          embeddedFailure E c store cred = Some err ->
          verifyPresentation E c raw w
          = ((false, Some err), logged w1 (verificationCalls E (l1 ++ [cred]))))) /\
  (forall options : VerificationOption,
      credentialID (options (mkVerifyOpts "" [] [])) = "" ->
      rawCredential (options (mkVerifyOpts "" [] [])) = [] ->
      rawPresentation (options (mkVerifyOpts "" [] [])) = raw ->
      raw <> [] ->
      Verify E c options w = verifyPresentation E c raw w) /\
  (forall options, verdict (fst (Verify E c options w))) /\
  verdict (fst (verifyPresentation E c raw w)) /\
  (forall rawc,
      verdict (fst (verifyCredential E c rawc w)) /\
      (fst (verifyCredential E c rawc w) = (true, None)
       <-> credentialFailure E c store rawc = None)) /\
  (forall rawc,
      verifyCredential E c rawc w
      = (match credentialFailure E c store rawc with
         | Some err => (false, Some (wrapError "credential verification failed" err))
         | None => (true, None)
         end,
         logged w [callParseCredential rawc true])) /\
  (forall (options : VerificationOption) rawc,
      credentialID (options (mkVerifyOpts "" [] [])) = "" ->
      rawCredential (options (mkVerifyOpts "" [] [])) = rawc ->
      rawc <> [] ->
      Verify E c options w = verifyCredential E c rawc w /\
      (fst (Verify E c options w) = (true, None)
       <-> credentialFailure E c store rawc = None)) /\
  (forall (options : VerificationOption) id,
      credentialID (options (mkVerifyOpts "" [] [])) = id ->
      id <> "" ->
      let w2 := logged w [callContentGet Credential_ id] in
      match store !! contentKey (userID c) Credential_ id with
      | None =>
          Verify E c options w
          = ((false, Some (wrapError "failed to get credential" NotFound)), w2)
      | Some rawc =>
          Verify E c options w = verifyCredential E c rawc w2 /\
          (fst (Verify E c options w) = (true, None)
           <-> credentialFailure E c store rawc = None)
      end).
Proof.
  intros store w1. subst store w1.
  split; [| split; [| split; [| split; [| split; [| split; [| split; [| split]]]]]]].
  - intros err Herr. by rewrite verifyPresentation_run, Herr.
  - intros vp Hvp. split.
    + rewrite verifyPresentation_run, Hvp. split.
      * intros Hall. by rewrite verifyEachCredential_pass.
      * intros Htrue.
        destruct (first_failure E c (contents w) (vpCredentials vp))
          as [Hall|(l1 & cr & l2 & err & Heq & Hall & Hfail)]; [exact Hall |].
        rewrite Heq, (verifyEachCredential_fail E c l1 cr l2 err) in Htrue
          by assumption.
        discriminate Htrue.
    + intros l1 cred l2 err Heq Hall Hfail.
      rewrite verifyPresentation_run, Hvp, Heq.
      by apply verifyEachCredential_fail.
  - intros options Hid Hvc Hvp Hne. unfold Verify. rewrite Hid, Hvc, Hvp. simpl.
    by destruct raw.
  - intros options. apply Verify_verdict.
  - apply verifyPresentation_verdict.
  - intros rawc. split; [apply verifyCredential_verdict |].
    rewrite verifyCredential_run. simpl.
    by destruct (credentialFailure E c (contents w) rawc).
  - intros rawc. apply verifyCredential_run.
  - intros options rawc Hid Hraw Hne.
    assert (Hrun : Verify E c options w = verifyCredential E c rawc w).
    { unfold Verify. rewrite Hid, Hraw. simpl. by destruct rawc. }
    split; [exact Hrun |]. rewrite Hrun, verifyCredential_run. simpl.
    by destruct (credentialFailure E c (contents w) rawc).
  - intros options id Hid Hne w2. subst w2. apply String.eqb_neq in Hne.
    unfold Verify. rewrite Hid, Hne. simpl. unfold bind. rewrite contents_Get_run.
    destruct (contents w !! contentKey (userID c) Credential_ id) as [rawc|];
      [| reflexivity].
    split; [reflexivity |]. rewrite verifyCredential_run. simpl.
    by destruct (credentialFailure E c (contents w) rawc).
Qed.

Lemma verify_presentation_short_circuits_witness :
  Verify Sample.env Sample.wallet (WithRawPresentationToVerify (Sample.bytes "vp-plain"))
         Sample.world
  = ((false, Some (wrapError "presentation verification failed"
                     (wrapError "credential verification failed"
                                (errorString "invalid signature")))),
     logged Sample.world [callParsePresentation (Sample.bytes "vp-plain");
                           callParseCredential (Sample.bytes "vc-plain") true])
  /\ fst (verifyPresentation Sample.trustingEnv Sample.wallet (Sample.bytes "vp-plain")
                             Sample.world) = (true, None)
  /\ fst (Verify Sample.env Sample.wallet (WithStoredCredentialToVerify "c1") Sample.world)
     = (false, Some (wrapError "credential verification failed"
                               (errorString "invalid signature")))
  /\ fst (Verify Sample.trustingEnv Sample.wallet (WithStoredCredentialToVerify "c1")
                 Sample.world) = (true, None)
  /\ fst (Verify Sample.trustingEnv Sample.wallet
                 (WithRawCredentialToVerify (Sample.bytes "vc-plain")) Sample.world)
     = (true, None).
Proof.
  split; [| split; [| split; [| split]]].
  - destruct (verify_presentation_short_circuits Sample.env Sample.wallet
                (Sample.bytes "vp-plain") Sample.world)
      as (_ & Hloop & HVerify & _).
    rewrite (HVerify (WithRawPresentationToVerify (Sample.bytes "vp-plain")));
      [| reflexivity | reflexivity | reflexivity | discriminate].
    destruct (Hloop Sample.vpPlain eq_refl) as [_ Hfirst].
    apply (Hfirst [] Sample.vcPlain []); [reflexivity | constructor | reflexivity].
  - destruct (verify_presentation_short_circuits Sample.trustingEnv Sample.wallet
                (Sample.bytes "vp-plain") Sample.world)
      as (_ & Hloop & _).
    destruct (Hloop Sample.vpPlain eq_refl) as [Hall _].
    apply Hall. repeat constructor.
  - destruct (verify_presentation_short_circuits Sample.env Sample.wallet
                (Sample.bytes "vp-plain") Sample.world)
      as (_ & _ & _ & _ & _ & _ & _ & _ & Hstored).
    pose proof (Hstored (WithStoredCredentialToVerify "c1") "c1" eq_refl) as H.
    cbv zeta in H. destruct H as [Hrun _]; [discriminate |].
    by rewrite Hrun.
  - destruct (verify_presentation_short_circuits Sample.trustingEnv Sample.wallet
                (Sample.bytes "vp-plain") Sample.world)
      as (_ & _ & _ & _ & _ & _ & _ & _ & Hstored).
    pose proof (Hstored (WithStoredCredentialToVerify "c1") "c1" eq_refl) as H.
    cbv zeta in H. destruct H as [_ Hiff]; [discriminate |].
    by apply Hiff.
  - destruct (verify_presentation_short_circuits Sample.trustingEnv Sample.wallet
                (Sample.bytes "vp-plain") Sample.world)
      as (_ & _ & _ & _ & _ & _ & _ & Hraw & _).
    destruct (Hraw (WithRawCredentialToVerify (Sample.bytes "vc-plain"))
                   (Sample.bytes "vc-plain") eq_refl eq_refl) as [_ Hiff]; [discriminate |].
    by apply Hiff.
Defined.

(** ** C8: profiles *)

Ltac run_profile :=
  unfold CreateProfile, UpdateProfile, createOrUpdate, newProfileStore, profileStore_save,
    profileStore_get, createProfile, setKMSOptions, bind, ret, getWorld, record, putProfiles;
  cbn [fst snd profiles contents calls].

(** When the profile store cannot be opened nothing else is done. *)
Lemma createOrUpdate_store_closed E user update options w e :
  openProfileStore E = Some e ->
  createOrUpdate E user update options w
  = (Some (wrapError "failed to get store to save VC wallet profile" e), w).
Proof. intros He. run_profile. by rewrite He. Qed.

Lemma CreateProfile_existing E user options w p :
  profiles w !! profileKey user = Some p ->
  exists err,
    CreateProfile E user options w = (Some err, w) /\
    (forall b, openProfileStore E = None -> requestedBinding options = inr b ->
               err = wrapError "failed to save VC wallet profile" AlreadyExists) /\
    (forall e, openProfileStore E = None -> requestedBinding options = inl e ->
               err = wrapError "failed to create new  wallet user profile" e).
Proof.
  intros Hp. run_profile. unfold requestedBinding.
  destruct (openProfileStore E) as [e|].
  { eexists. split; [reflexivity |]. split; discriminate. }
  destruct (completeBinding _ _ _) as [err|b].
  - eexists. split; [reflexivity |]. split; [discriminate |]. by intros e _ [= <-].
  - cbn [profileUser profiles]. rewrite Hp. eexists. split; [reflexivity |].
    split; [done | discriminate].
Qed.

Lemma UpdateProfile_missing E user options w :
  profiles w !! profileKey user = None ->
  exists err,
    fst (UpdateProfile E user options w) = Some err /\
    (openProfileStore E = None ->
     err = wrapError "failed to update wallet user profile" NotFound) /\
    profiles (snd (UpdateProfile E user options w)) = profiles w /\
    contents (snd (UpdateProfile E user options w)) = contents w.
Proof.
  intros Hp. run_profile. destruct (openProfileStore E) as [e|].
  { eexists. split; [reflexivity |]. by split. }
  cbn. rewrite Hp. cbn. eexists. by repeat split.
Qed.

Lemma CreateProfile_fresh E user options w b :
  openProfileStore E = None ->
  profiles w !! profileKey user = None ->
  requestedBinding options = inr b ->
  fst (CreateProfile E user options w) = None /\
  profiles (snd (CreateProfile E user options w))
  = <[profileKey user := mkProfile user b]> (profiles w).
Proof.
  intros Ho Hp Hb. unfold requestedBinding in Hb. run_profile. rewrite Ho, Hb.
  cbn [profileUser profiles]. rewrite Hp. by cbn.
Qed.

Lemma UpdateProfile_existing E user options w p b :
  openProfileStore E = None ->
  profiles w !! profileKey user = Some p ->
  profileUser p = user ->
  requestedBinding options = inr b ->
  fst (UpdateProfile E user options w) = None /\
  profiles (snd (UpdateProfile E user options w))
  = <[profileKey user := mkProfile user b]> (profiles w).
Proof.
  intros Ho Hp Hu Hb. unfold requestedBinding in Hb. run_profile. rewrite Ho. cbn.
  rewrite Hp. cbn. rewrite Hb. cbn. rewrite Hu, Hp. by cbn.
Qed.

Lemma profileKey_inj u1 u2 : profileKey u1 = profileKey u2 -> u1 = u2.
Proof. unfold profileKey. simpl. intros H. by simplify_eq. Qed.

(** Creating and updating keep every record under the key of its user, as
    the update case of C8 assumes of the record it finds. *)
Lemma createOrUpdate_keyed E user update options w :
  profilesKeyed w -> profilesKeyed (snd (createOrUpdate E user update options w)).
Proof.
  intros Hw.
  assert (Hins : forall w0 p, profiles w0 = profiles w ->
                   profilesKeyed (mkWorld (<[profileKey (profileUser p) := p]> (profiles w0))
                                          (contents w0)
                                          (calls w0 ++ [callProfilePut (profileUser p)]))).
  { intros w0 p Hsame u q. cbn [profiles]. rewrite Hsame.
    destruct (decide (profileKey (profileUser p) = profileKey u)) as [Heq|Hne].
    - rewrite Heq, lookup_insert_eq. intros [= <-]. by apply profileKey_inj.
    - rewrite lookup_insert_ne by exact Hne. apply Hw. }
  run_profile. destruct (openProfileStore E) as [e|]; [exact Hw |]. destruct update.
  - cbn. destruct (profiles w !! profileKey user) as [p|] eqn:Hp; cbn; [| exact Hw].
    destruct (completeBinding _ _ _) as [err|b]; cbn; [exact Hw |].
    destruct (profiles w !! profileKey (profileUser p)); cbn; [| exact Hw].
    by apply (Hins _ (mkProfile (profileUser p) b)).
  - destruct (completeBinding _ _ _) as [err|b]; cbn; [exact Hw |].
    destruct (profiles w !! profileKey user); cbn; [exact Hw |].
    by apply (Hins _ (mkProfile user b)).
Qed.

(** C8, as the code has it.  [CreateProfile] for a user who has a profile
    always fails and leaves the world as it was; its error is the
    already-exists error of the store when the profile store opens and the
    KMS options are complete, and the error of the options when they are
    not, since the profile is built from the options before the store is
    asked to save it.  [UpdateProfile] for a user who has none fails, with
    the not-found error when the profile store opens, and stores nothing.
    When the profile store opens and the KMS options are complete,
    [CreateProfile] for a new user and [UpdateProfile] for an existing one
    succeed and leave exactly one record under the user's key, the one asked
    for, the records of other users untouched.  When the profile store does
    not open, both fail with its error and do nothing else. *)
Theorem profile_create_update E user options w :
  (forall p,
      profiles w !! profileKey user = Some p ->
      exists err,
        CreateProfile E user options w = (Some err, w) /\
        (forall b, openProfileStore E = None -> requestedBinding options = inr b ->
                   err = wrapError "failed to save VC wallet profile" AlreadyExists /\
                   rootCause err = AlreadyExists) /\
        (forall e, openProfileStore E = None -> requestedBinding options = inl e ->
                   err = wrapError "failed to create new  wallet user profile" e)) /\
  (profiles w !! profileKey user = None ->
   exists err,
     fst (UpdateProfile E user options w) = Some err /\
     (openProfileStore E = None ->
      err = wrapError "failed to update wallet user profile" NotFound /\
      rootCause err = NotFound) /\
     profiles (snd (UpdateProfile E user options w)) = profiles w) /\
  (forall b,
      openProfileStore E = None ->
      profiles w !! profileKey user = None ->
      requestedBinding options = inr b ->
      let w' := snd (CreateProfile E user options w) in
      fst (CreateProfile E user options w) = None /\
      profiles w' !! profileKey user = Some (mkProfile user b) /\
      (forall k, k <> profileKey user -> profiles w' !! k = profiles w !! k) /\
      size (profiles w') = S (size (profiles w))) /\
  (forall p b,
      openProfileStore E = None ->
      profiles w !! profileKey user = Some p ->
      profileUser p = user ->
      requestedBinding options = inr b ->
      let w' := snd (UpdateProfile E user options w) in
      fst (UpdateProfile E user options w) = None /\
      profiles w' !! profileKey user = Some (mkProfile user b) /\
      (forall k, k <> profileKey user -> profiles w' !! k = profiles w !! k) /\
      size (profiles w') = size (profiles w)) /\
  (forall e update,
      openProfileStore E = Some e ->
      createOrUpdate E user update options w
      = (Some (wrapError "failed to get store to save VC wallet profile" e), w)).
Proof.
  split; [| split; [| split; [| split]]].
  - intros p Hp.
    destruct (CreateProfile_existing E user options w p Hp) as (err & Hrun & Hb & He).
    exists err. split; [exact Hrun |]. split; [| exact He].
    intros b Ho Hopt. by rewrite (Hb b Ho Hopt).
  - intros Hp.
    destruct (UpdateProfile_missing E user options w Hp) as (err & H1 & H2 & H3 & _).
    exists err. split; [exact H1 |]. split; [| exact H3].
    intros Ho. by rewrite (H2 Ho).
  - intros b Ho Hp Hb w'. subst w'.
    destruct (CreateProfile_fresh E user options w b Ho Hp Hb) as [Hok Hst].
    rewrite Hst. split; [exact Hok |].
    split; [apply lookup_insert_eq |].
    split; [intros k Hk; by apply lookup_insert_ne |].
    by apply map_size_insert_None.
  - intros p b Ho Hp Hu Hb w'. subst w'.
    destruct (UpdateProfile_existing E user options w p b Ho Hp Hu Hb) as [Hok Hst].
    rewrite Hst. split; [exact Hok |].
    split; [apply lookup_insert_eq |].
    split; [intros k Hk; by apply lookup_insert_ne |].
    by eapply map_size_insert_Some.
  - intros e update He. by apply createOrUpdate_store_closed.
Qed.

(** The scenario of the specification: create, create again, update, get. *)
Lemma profile_create_update_witness :
  let w1 := snd (CreateProfile Sample.env "alice" [WithPassphrase "p1"] Sample.emptyWorld) in
  let w2 := snd (CreateProfile Sample.env "alice" [WithPassphrase "p2"] w1) in
  let w3 := snd (UpdateProfile Sample.env "alice" [WithPassphrase "p2"] w2) in
  fst (CreateProfile Sample.env "alice" [WithPassphrase "p1"] Sample.emptyWorld) = None
  /\ (exists err, CreateProfile Sample.env "alice" [WithPassphrase "p2"] w1 = (Some err, w1)
                  /\ rootCause err = AlreadyExists)
  /\ fst (UpdateProfile Sample.env "alice" [WithPassphrase "p2"] w2) = None
  /\ fst (profileStore_get "alice" w3) = inr (mkProfile "alice" (bindPassphrase "p2")).
Proof.
  intros w1 w2 w3.
  destruct (profile_create_update Sample.env "alice" [WithPassphrase "p1"] Sample.emptyWorld)
    as (_ & _ & Hfresh & _).
  destruct (Hfresh (bindPassphrase "p1") eq_refl eq_refl eq_refl) as (Hok1 & Hp1 & _).
  split; [exact Hok1 |].
  destruct (profile_create_update Sample.env "alice" [WithPassphrase "p2"] w1)
    as (Hexists & _ & _ & _).
  destruct (Hexists _ Hp1) as (err & Hrun & Hroot & _).
  split; [exists err; split;
          [exact Hrun | by apply (Hroot (bindPassphrase "p2") eq_refl eq_refl)] |].
  split; reflexivity.
Defined.

(** C8 as stated fails: [CreateProfile] for a user who has a profile, called
    without KMS options, fails with the error of the options and not with
    the already-exists error, the store never asked to save. *)
Lemma profile_create_existing_counterexample :
  Sample.world.(profiles) !! profileKey "alice"
  = Some (mkProfile "alice" (bindPassphrase "p1"))
  /\ exists err,
      CreateProfile Sample.env "alice" [] Sample.world = (Some err, Sample.world)
      /\ Error err = "failed to create new  wallet user profile: invalid key manager options"
      /\ rootCause err <> AlreadyExists.
Proof.
  split; [reflexivity |]. eexists. split; [reflexivity |]. split; [reflexivity |].
  discriminate.
Qed.

(** * Further properties of the wallet *)

(** ** Options without a controller *)

Lemma validateProofOption_no_controller E c opts method w :
  opts = None \/ (exists o, opts = Some o /\ Controller o = "") ->
  validateProofOption E c opts method w = (inl controllerRequired, w).
Proof.
  intros [-> | (o & -> & Hc)]; [reflexivity |].
  unfold validateProofOption. by rewrite Hc.
Qed.

(** X1. With nil proof options, or options whose controller is empty, [Issue]
    and [Prove] fail with the controller-required error as soon as their
    input is resolved: no DID is resolved, no signer is asked for, and the
    world is left as the parse or the resolution of the credentials left
    it. *)
Theorem no_controller_fails_before_resolution E c token opts w :
  opts = None \/ (exists o, opts = Some o /\ Controller o = "") ->
  (forall cred vc,
      decodeCredential E cred = inr vc ->
      Issue E c token cred opts w
      = (inl (wrapError "failed to prepare proof" controllerRequired),
         logged w [callParseCredential cred false])) /\
  (forall creds vp,
      fst (resolveOptionsToPresent E c creds w) = inr vp ->
      Prove E c token opts creds w
      = (inl (wrapError "failed to prepare proof" controllerRequired),
         snd (resolveOptionsToPresent E c creds w))).
Proof.
  intros Hopts. split.
  - intros cred vc Hd. unfold Issue, bind at 1. rewrite ParseCredential_unchecked, Hd.
    cbv zeta. unfold bind.
    by rewrite (validateProofOption_no_controller E c opts AssertionMethod _ Hopts).
  - intros creds vp Hres. unfold Prove, bind at 1.
    destruct (resolveOptionsToPresent E c creds w) as [r w1]. cbn [fst snd] in *. subst r.
    unfold bind.
    by rewrite (validateProofOption_no_controller E c opts Authentication _ Hopts).
Qed.

Lemma no_controller_fails_before_resolution_witness :
  Issue Sample.env Sample.wallet "token" (Sample.bytes "vc-plain") None Sample.world
  = (inl (wrapError "failed to prepare proof" controllerRequired),
     logged Sample.world [callParseCredential (Sample.bytes "vc-plain") false]).
Proof.
  destruct (no_controller_fails_before_resolution Sample.env Sample.wallet "token" None
              Sample.world) as [HIssue _]; [by left |].
  by apply (HIssue (Sample.bytes "vc-plain") Sample.vcPlain).
Defined.

(** ** Stage by stage *)

Section Stages.

Variable E : Env.
Variable c : Wallet.

(** The calls of an [Issue], stage by stage: [P] holds of all of them when it
    holds of the parse, of the reads of DID resolution, and of the calls of
    the signing run over the validated options. *)
Lemma Issue_onlyCalls (P : call -> Prop) token cred opts w :
  P (callParseCredential cred false) ->
  (forall did, P (callContentGet DIDResolutionResponse did)) ->
  (forall did, P (callVDRResolve did)) ->
  (forall vc o w2,
      decodeCredential E cred = inr vc ->
      fst (validateProofOption E c opts AssertionMethod w) = inr o ->
      onlyCalls P w2 (snd (addLinkedDataProof E (k := isCredential) token vc o
                                              AssertionMethod w2))) ->
  onlyCalls P w (snd (Issue E c token cred opts w)).
Proof.
  intros Hparse Hget Hres Hsign.
  unfold Issue, bind at 1. rewrite ParseCredential_unchecked.
  set (w1 := mkWorld _ _ _).
  assert (H1 : onlyCalls P w w1) by (apply onlyCalls_logged; by repeat constructor).
  destruct (decodeCredential E cred) as [err|vc] eqn:Hd; [exact H1 |].
  cbv zeta. unfold bind at 1.
  pose proof (validateProofOption_contents E c opts AssertionMethod w1 w eq_refl) as Hsame.
  pose proof (framed_validateProofOption E P c opts AssertionMethod Hget Hres w1) as H2.
  destruct (validateProofOption E c opts AssertionMethod w1) as [[err|o] w2];
    cbn [fst snd] in *; [eauto using onlyCalls_trans |].
  unfold bind.
  pose proof (Hsign vc o w2 eq_refl (eq_sym Hsame)) as H3.
  destruct (addLinkedDataProof E (k := isCredential) token vc o AssertionMethod w2)
    as [[err|vc'] w3]; cbn [snd] in *; eauto using onlyCalls_trans.
Qed.

(** The same for [Prove]. *)
Lemma Prove_onlyCalls (P : call -> Prop) token opts creds w :
  (forall id, P (callContentGet Credential_ id)) ->
  (forall raw, P (callParseCredential raw false)) ->
  (forall did, P (callContentGet DIDResolutionResponse did)) ->
  (forall did, P (callVDRResolve did)) ->
  (forall vp o w2,
      fst (resolveOptionsToPresent E c creds w) = inr vp ->
      fst (validateProofOption E c opts Authentication w) = inr o ->
      onlyCalls P w2 (snd (addLinkedDataProof E (k := isPresentation) token
                                              (setHolder vp (Controller o)) o
                                              Authentication w2))) ->
  onlyCalls P w (snd (Prove E c token opts creds w)).
Proof.
  intros Hcget Hparse Hget Hres Hsign.
  unfold Prove, bind at 1.
  pose proof (framed_resolveOptionsToPresent E P c creds Hcget Hparse w) as H1.
  destruct (resolveOptionsToPresent E c creds w) as [[err|vp] w1];
    cbn [fst snd] in *; [exact H1 |].
  unfold bind at 1.
  assert (Hcont : contents w1 = contents w) by apply H1.
  pose proof (validateProofOption_contents E c opts Authentication w1 w Hcont) as Hsame.
  pose proof (framed_validateProofOption E P c opts Authentication Hget Hres w1) as H2.
  destruct (validateProofOption E c opts Authentication w1) as [[err|o] w2];
    cbn [fst snd] in *; [eauto using onlyCalls_trans |].
  unfold bind.
  pose proof (Hsign vp o w2 eq_refl (eq_sym Hsame)) as H3.
  destruct (addLinkedDataProof E (k := isPresentation) token
              (setHolder vp (Controller o)) o Authentication w2)
    as [[err|vp'] w3]; cbn [snd] in *; eauto using onlyCalls_trans.
Qed.

Lemma addLinkedDataProof_signer_fails {k} token (p : provable k) o rel w err :
  newKMSSigner E token o = inl err ->
  addLinkedDataProof E token p o rel w = (inl err, logged w [callNewKMSSigner token]).
Proof.
  intros Hs. unfold addLinkedDataProof, bind, record. simpl. by rewrite Hs.
Qed.

Lemma addLinkedDataProof_loader_fails {k} token (p : provable k) o rel w s err :
  ProofType o = BbsBlsSignature2020 ->
  newKMSSigner E token o = inr s ->
  bbsJSONLDDocumentLoader E = inl err ->
  addLinkedDataProof E token p o rel w = (inl err, logged w [callNewKMSSigner token]).
Proof.
  intros Hty Hs Hl. unfold addLinkedDataProof, bind, record. simpl.
  by rewrite Hs, Hty, Hl.
Qed.

End Stages.

(** X2. [Issue] and [Prove] stop at their first failing stage and make no
    call of a later one.  A credential that does not decode is reported as a
    parse failure with nothing but the parse done, whatever the options; a
    failure to resolve the credentials to present is reported with the world
    as the resolution left it; and when the proof options do not validate the
    error is that of the validation, wrapped once, and neither a signer is
    asked for nor a proof added. *)
Theorem first_failing_stage E c token opts w :
  (forall cred err,
      decodeCredential E cred = inl err ->
      Issue E c token cred opts w
      = (inl (wrapError "failed to parse credential" err),
         logged w [callParseCredential cred false])) /\
  (forall cred vc err,
      decodeCredential E cred = inr vc ->
      fst (validateProofOption E c opts AssertionMethod w) = inl err ->
      fst (Issue E c token cred opts w) = inl (wrapError "failed to prepare proof" err) /\
      onlyCalls (fun k => ~ isSigning k) w (snd (Issue E c token cred opts w))) /\
  (forall creds err,
      fst (resolveOptionsToPresent E c creds w) = inl err ->
      Prove E c token opts creds w
      = (inl (wrapError "failed to resolve credentials from request" err),
         snd (resolveOptionsToPresent E c creds w))) /\
  (forall creds vp err,
      fst (resolveOptionsToPresent E c creds w) = inr vp ->
      fst (validateProofOption E c opts Authentication w) = inl err ->
      fst (Prove E c token opts creds w) = inl (wrapError "failed to prepare proof" err) /\
      onlyCalls (fun k => ~ isSigning k) w (snd (Prove E c token opts creds w))).
Proof.
  split; [| split; [| split]].
  - intros cred err Hd. unfold Issue, bind. by rewrite ParseCredential_unchecked, Hd.
  - intros cred vc err Hd Hv. split; [by rewrite Issue_stages, Hd, Hv |].
    apply Issue_onlyCalls; simpl; try tauto.
    intros vc' o w2 _ Ho. rewrite Hv in Ho. discriminate Ho.
  - intros creds err Hres. unfold Prove, bind.
    destruct (resolveOptionsToPresent E c creds w) as [r w1]. cbn [fst snd] in *.
    by subst r.
  - intros creds vp err Hres Hv. split; [by rewrite Prove_stages, Hres, Hv |].
    apply Prove_onlyCalls; simpl; try tauto.
    intros vp' o w2 _ Ho. rewrite Hv in Ho. discriminate Ho.
Qed.

Lemma first_failing_stage_witness :
  Issue Sample.env Sample.wallet "token" (Sample.bytes "not a credential") None Sample.world
  = (inl (wrapError "failed to parse credential"
                    (errorString "unexpected end of JSON input")),
     logged Sample.world [callParseCredential (Sample.bytes "not a credential") false])
  /\ fst (Prove Sample.env Sample.wallet "token" (Some (Sample.options "" ""))
               [WithStoredCredentialsToProve ["missing"]] Sample.world)
     = inl (wrapError "failed to resolve credentials from request" NotFound).
Proof.
  split.
  - by apply (first_failing_stage Sample.env Sample.wallet "token" None Sample.world).
  - destruct (first_failing_stage Sample.env Sample.wallet "token"
                (Some (Sample.options "" "")) Sample.world) as (_ & _ & HProve & _).
    by rewrite (HProve [WithStoredCredentialsToProve ["missing"]] NotFound).
Defined.

(** X3. The auth token is checked before the proof type is looked at.  When
    no signer can be made for the validated options, [Issue] and [Prove] fail
    with the signer's error, wrapped once, whatever the proof type, supported
    or not, and no proof is added. *)
Theorem signer_failure_comes_first E c token opts w o err :
  newKMSSigner E token o = inl err ->
  (forall cred vc,
      decodeCredential E cred = inr vc ->
      fst (validateProofOption E c opts AssertionMethod w) = inr o ->
      fst (Issue E c token cred opts w) = inl (wrapError "failed to issue credential" err) /\
      onlyCalls (fun k => ~ isAddProof k) w (snd (Issue E c token cred opts w))) /\
  (forall creds vp,
      fst (resolveOptionsToPresent E c creds w) = inr vp ->
      fst (validateProofOption E c opts Authentication w) = inr o ->
      fst (Prove E c token opts creds w) = inl (wrapError "failed to prove credentials" err) /\
      onlyCalls (fun k => ~ isAddProof k) w (snd (Prove E c token opts creds w))).
Proof.
  intros Hs. split.
  - intros cred vc Hd Hv. split.
    + rewrite Issue_stages, Hd, Hv.
      by rewrite (addLinkedDataProof_signer_fails E token _ o _ _ err Hs).
    + apply Issue_onlyCalls; simpl; try tauto.
      intros vc' o' w2 _ Ho. rewrite Hv in Ho. injection Ho as <-.
      rewrite (addLinkedDataProof_signer_fails E token _ o _ _ err Hs).
      apply onlyCalls_logged. repeat constructor. simpl. tauto.
  - intros creds vp Hres Hv. split.
    + rewrite Prove_stages, Hres, Hv.
      by rewrite (addLinkedDataProof_signer_fails E token _ o _ _ err Hs).
    + apply Prove_onlyCalls; simpl; try tauto.
      intros vp' o' w2 _ Ho. rewrite Hv in Ho. injection Ho as <-.
      rewrite (addLinkedDataProof_signer_fails E token _ o _ _ err Hs).
      apply onlyCalls_logged. repeat constructor. simpl. tauto.
Qed.

Lemma signer_failure_comes_first_witness :
  fst (Issue Sample.env Sample.wallet "expired" (Sample.bytes "vc-plain")
             (Some (Sample.options "" "RsaSignature2018")) Sample.world)
  = inl (wrapError "failed to issue credential" (errorString "invalid auth token")).
Proof.
  destruct (signer_failure_comes_first Sample.env Sample.wallet "expired"
              (Some (Sample.options "" "RsaSignature2018")) Sample.world
              (mkProofOptions Sample.alice "did:example:alice#key-2" None "" ""
                              "RsaSignature2018" (Some SignatureJWS))
              (errorString "invalid auth token") eq_refl) as [HIssue _].
  by apply (HIssue (Sample.bytes "vc-plain") Sample.vcPlain).
Defined.

(** ** The BBS context loader *)

Lemma addLinkedDataProof_withLoader E loader reader content {k} token (p : provable k)
      o rel w :
  ProofType o <> BbsBlsSignature2020 ->
  addLinkedDataProof (withLoader E loader reader content) token p o rel w
  = addLinkedDataProof E token p o rel w.
Proof.
  intros Hty. apply String.eqb_neq in Hty.
  unfold addLinkedDataProof, bind, record. simpl.
  destruct (newKMSSigner E token o) as [err|s]; [reflexivity |].
  rewrite Hty.
  by repeat (match goal with |- context [if ?b then _ else _] => destruct b end).
Qed.

Lemma validated_not_bbs E c opts method w o :
  (forall o0, opts = Some o0 -> ProofType o0 <> BbsBlsSignature2020) ->
  fst (validateProofOption E c opts method w) = inr o ->
  ProofType o <> BbsBlsSignature2020.
Proof.
  intros Hty Ho.
  apply validateProofOption_fields in Ho as (opts0 & Heq & _ & _ & _ & _ & Hpt & _).
  rewrite Hpt. simpl. specialize (Hty opts0 Heq).
  by destruct (String.eqb (ProofType opts0) "").
Qed.

(** X4. The bundled BBS context is loaded for BBS signing only.  If it cannot
    be read, a BBS [Issue] fails with the reader's error, wrapped once by
    [Issue], after the signer is made and before any proof is added; and an
    [Issue] or a [Prove] whose proof type is not [BbsBlsSignature2020] runs
    the same whatever the loader, the reader and the bundled document are. *)
Theorem bbs_loader_only_for_bbs E c token opts w :
  (forall o s err cred vc,
      DocumentFromReader E (contextBBSContent E) = inl err ->
      decodeCredential E cred = inr vc ->
      fst (validateProofOption E c opts AssertionMethod w) = inr o ->
      ProofType o = BbsBlsSignature2020 ->
      newKMSSigner E token o = inr s ->
      fst (Issue E c token cred opts w) = inl (wrapError "failed to issue credential" err) /\
      onlyCalls (fun k => ~ isAddProof k) w (snd (Issue E c token cred opts w))) /\
  ((forall o, opts = Some o -> ProofType o <> BbsBlsSignature2020) ->
   forall loader reader content,
     (forall cred,
         Issue (withLoader E loader reader content) c token cred opts w
         = Issue E c token cred opts w) /\
     (forall creds,
         Prove (withLoader E loader reader content) c token opts creds w
         = Prove E c token opts creds w)).
Proof.
  split.
  - intros o s err cred vc Hread Hd Hv Hty Hs.
    assert (Hl : bbsJSONLDDocumentLoader E = inl err)
      by (unfold bbsJSONLDDocumentLoader; by rewrite Hread).
    split.
    + rewrite Issue_stages, Hd, Hv.
      by rewrite (addLinkedDataProof_loader_fails E token _ o _ _ s err Hty Hs Hl).
    + apply Issue_onlyCalls; simpl; try tauto.
      intros vc' o' w2 _ Ho. rewrite Hv in Ho. injection Ho as <-.
      rewrite (addLinkedDataProof_loader_fails E token _ o _ _ s err Hty Hs Hl).
      apply onlyCalls_logged. repeat constructor. simpl. tauto.
  - intros Hty loader reader content. split.
    + intros cred. unfold Issue, bind.
      change (ParseCredential (withLoader E loader reader content) cred
                [WithDisabledProofCheck] w)
        with (ParseCredential E cred [WithDisabledProofCheck] w).
      destruct (ParseCredential E cred [WithDisabledProofCheck] w) as [[err|vc] w1];
        [reflexivity |].
      change (validateProofOption (withLoader E loader reader content) c opts
                AssertionMethod w1)
        with (validateProofOption E c opts AssertionMethod w1).
      destruct (validateProofOption E c opts AssertionMethod w1) as [[err|o] w2] eqn:Hv;
        [reflexivity |].
      rewrite addLinkedDataProof_withLoader; [reflexivity |].
      apply (validated_not_bbs E c opts AssertionMethod w1 o Hty). by rewrite Hv.
    + intros creds. unfold Prove, bind.
      assert (Hres : resolveOptionsToPresent (withLoader E loader reader content) c creds w
                     = resolveOptionsToPresent E c creds w).
      { unfold resolveOptionsToPresent, bind.
        assert (Hst : forall ids all w0,
                   resolveStoredCredentials (withLoader E loader reader content) c ids all w0
                   = resolveStoredCredentials E c ids all w0).
        { induction ids as [|id rest IH]; intros all w0; [reflexivity |].
          cbn [resolveStoredCredentials]. unfold bind.
          destruct (contents_Get c Credential_ id w0) as [[err|raw] w1]; [reflexivity |].
          change (ParseCredential (withLoader E loader reader content) raw
                    [WithDisabledProofCheck] w1)
            with (ParseCredential E raw [WithDisabledProofCheck] w1).
          destruct (ParseCredential E raw [WithDisabledProofCheck] w1) as [[err|vc] w2];
            [reflexivity | apply IH]. }
        assert (Hraw : forall raws all w0,
                   resolveRawCredentials (withLoader E loader reader content) raws all w0
                   = resolveRawCredentials E raws all w0).
        { induction raws as [|raw rest IH]; intros all w0; [reflexivity |].
          cbn [resolveRawCredentials]. unfold bind.
          change (ParseCredential (withLoader E loader reader content) raw
                    [WithDisabledProofCheck] w0)
            with (ParseCredential E raw [WithDisabledProofCheck] w0).
          destruct (ParseCredential E raw [WithDisabledProofCheck] w0) as [[err|vc] w2];
            [reflexivity | apply IH]. }
        rewrite Hst.
        destruct (resolveStoredCredentials E c _ [] w) as [[err|all1] w1]; [reflexivity |].
        rewrite Hraw.
        by destruct (resolveRawCredentials E _ all1 w1) as [[err|all2] w2]. }
      rewrite Hres.
      destruct (resolveOptionsToPresent E c creds w) as [[err|vp] w1]; [reflexivity |].
      change (validateProofOption (withLoader E loader reader content) c opts
                Authentication w1)
        with (validateProofOption E c opts Authentication w1).
      destruct (validateProofOption E c opts Authentication w1) as [[err|o] w2] eqn:Hv;
        [reflexivity |].
      rewrite addLinkedDataProof_withLoader; [reflexivity |].
      apply (validated_not_bbs E c opts Authentication w1 o Hty). by rewrite Hv.
Qed.

Lemma bbs_loader_only_for_bbs_witness :
  let broken := withLoader Sample.env (mkDocumentLoader [])
                           (fun _ => inl (errorString "invalid character")) "" in
  fst (Issue broken Sample.wallet "token" (Sample.bytes "vc-plain")
             (Some (Sample.options "" "BbsBlsSignature2020")) Sample.world)
  = inl (wrapError "failed to issue credential" (errorString "invalid character"))
  /\ Issue broken Sample.wallet "token" (Sample.bytes "vc-plain")
           (Some (Sample.options "" "")) Sample.world
     = Issue Sample.env Sample.wallet "token" (Sample.bytes "vc-plain")
             (Some (Sample.options "" "")) Sample.world.
Proof.
  intros broken. split.
  - destruct (bbs_loader_only_for_bbs broken Sample.wallet "token"
                (Some (Sample.options "" "BbsBlsSignature2020")) Sample.world)
      as [Hfail _].
    by apply (Hfail (mkProofOptions Sample.alice "did:example:alice#key-2" None "" ""
                                    "BbsBlsSignature2020" (Some SignatureJWS))
                    (mkSigner "kms" "did:example:alice#key-2")
                    (errorString "invalid character")
                    (Sample.bytes "vc-plain") Sample.vcPlain).
  - destruct (bbs_loader_only_for_bbs Sample.env Sample.wallet "token"
                (Some (Sample.options "" "")) Sample.world) as [_ Hsame].
    apply Hsame. intros o [= <-]. discriminate.
Defined.

(** ** What a signing run asks for *)






(** ** Validating again *)

Lemma withDefaults_idempotent o : withDefaults (withDefaults o) = withDefaults o.
Proof.
  destruct o as [ctl vm cr dom ch pt repr]. unfold withDefaults. simpl.
  by destruct (String.eqb pt "") eqn:Hpt; [| rewrite Hpt].
Qed.

(** X6. Validation is idempotent: the options it returns, which in the Go
    code are the caller's options as it left them, validate again to
    themselves under the same relationship.  Under the other relationship,
    when the method chosen has an ID that is not empty, they validate to
    themselves exactly when that method is also one of that relationship,
    and are refused otherwise: options left by an [Issue] serve a [Prove]
    only if the assertion method it picked is an authentication method too.
    A chosen method whose ID is empty counts as no choice: the first method
    of the other relationship is written into the options, which are refused
    when it has none. *)
Theorem validation_idempotent E c opts method w o :
  fst (validateProofOption E c opts method w) = inr o ->
  fst (validateProofOption E c (Some o) method w) = inr o /\
  forall res other,
    fst (walletVDR_Resolve E c (Controller o) w) = inr res ->
    (VerificationMethodID o <> "" ->
     VerificationMethodID o ∈ methodIDs (DIDDocument res) other ->
     fst (validateProofOption E c (Some o) other w) = inr o) /\
    (VerificationMethodID o <> "" ->
     VerificationMethodID o ∉ methodIDs (DIDDocument res) other ->
     fst (validateProofOption E c (Some o) other w) = inl (missingMethod other)) /\
    (VerificationMethodID o = "" ->
     fst (validateProofOption E c (Some o) other w)
     = match methodIDs (DIDDocument res) other with
       | [] => inl (missingMethod other)
       | id :: _ => inr (setVerificationMethod o id)
       end).
Proof.
  intros H.
  destruct (validateProofOption_inr E c opts method w o H)
    as (opts0 & res & o1 & -> & Hctl & Hres & Hv & ->).
  pose proof (validateVerificationMethod_inr _ _ _ _ Hv) as (Hin & Hgiven & Homitted).
  assert (Hctl1 : Controller (withDefaults o1) = Controller opts0).
  { destruct (String.eqb_spec (VerificationMethodID opts0) "") as [He|Hne].
    - destruct (Homitted He) as [_ ->]. reflexivity.
    - by rewrite (Hgiven Hne). }
  assert (Hc' : Controller (withDefaults o1) <> "") by (by rewrite Hctl1).
  assert (Hany : forall other res',
             fst (walletVDR_Resolve E c (Controller (withDefaults o1)) w) = inr res' ->
             VerificationMethodID o1 <> "" ->
             fst (validateProofOption E c (Some (withDefaults o1)) other w)
             = if decide (VerificationMethodID o1 ∈ methodIDs (DIDDocument res') other)
               then inr (withDefaults o1) else inl (missingMethod other)).
  { intros other res' Hres' Hne.
    rewrite (validateProofOption_resolved E c _ other w res' Hc' Hres').
    rewrite validateVerificationMethod_given by exact Hne.
    change (VerificationMethodID (withDefaults o1)) with (VerificationMethodID o1).
    case_decide; [by rewrite withDefaults_idempotent | reflexivity]. }
  assert (Hnone : forall other res',
             fst (walletVDR_Resolve E c (Controller (withDefaults o1)) w) = inr res' ->
             VerificationMethodID o1 = "" ->
             fst (validateProofOption E c (Some (withDefaults o1)) other w)
             = match methodIDs (DIDDocument res') other with
               | [] => inl (missingMethod other)
               | id :: _ => inr (setVerificationMethod (withDefaults o1) id)
               end).
  { intros other res' Hres' He.
    rewrite (validateProofOption_resolved E c _ other w res' Hc' Hres').
    rewrite validateVerificationMethod_omitted by exact He.
    destruct (methodIDs (DIDDocument res') other) as [|id rest]; [reflexivity |].
    f_equal. destruct o1 as [ctl vm cr dom ch pt repr]. unfold withDefaults. simpl.
    by destruct (String.eqb pt "") eqn:Hpt; [| rewrite Hpt]. }
  split.
  - assert (Hres' : fst (walletVDR_Resolve E c (Controller (withDefaults o1)) w) = inr res)
      by (by rewrite Hctl1).
    destruct (String.eqb_spec (VerificationMethodID o1) "") as [He|Hne].
    + rewrite (Hnone method res Hres' He).
      destruct (String.eqb_spec (VerificationMethodID opts0) "") as [He0|Hne0].
      * destruct (Homitted He0) as [Hhead _].
        destruct (methodIDs (DIDDocument res) method) as [|id rest]; [discriminate |].
        injection Hhead as ->. rewrite He. f_equal.
        destruct o1 as [a vm b d e f g]. simpl in He. subst vm. reflexivity.
      * exfalso. rewrite (Hgiven Hne0) in He. contradiction.
    + rewrite (Hany method res Hres' Hne). by rewrite decide_True.
  - intros res' other Hres'. change (VerificationMethodID (withDefaults o1))
      with (VerificationMethodID o1) in *.
    split; [| split].
    + intros Hne Hmem. rewrite (Hany other res' Hres' Hne). by rewrite decide_True.
    + intros Hne Hmem. rewrite (Hany other res' Hres' Hne). by rewrite decide_False.
    + intros He. apply (Hnone other res' Hres' He).
Qed.

Lemma validation_idempotent_witness :
  let left_by_issue :=
    mkProofOptions Sample.alice "did:example:alice#key-2" None "" ""
                   "Ed25519Signature2018" (Some SignatureJWS) in
  fst (validateProofOption Sample.env Sample.wallet (Some left_by_issue) AssertionMethod
                           Sample.world) = inr left_by_issue
  /\ fst (validateProofOption Sample.env Sample.wallet (Some left_by_issue) Authentication
                              Sample.world) = inl (missingMethod Authentication).
Proof.
  intros left_by_issue.
  destruct (validation_idempotent Sample.env Sample.wallet (Some (Sample.options "" ""))
              AssertionMethod Sample.world left_by_issue eq_refl) as [Hsame Hother].
  split; [exact Hsame |].
  destruct (Hother (mkDocResolution Sample.aliceDoc) Authentication eq_refl)
    as (_ & Hrefused & _).
  apply Hrefused; [discriminate |].
  intros [Heq|Hin]%elem_of_cons; [discriminate Heq | by apply elem_of_nil in Hin].
Defined.

(** ** Resolving stored credentials stops at the first that fails *)

Section StoredResolution.

Variable E : Env.
Variable c : Wallet.

Lemma resolveStoredCredentials_cons id rest all w :
  resolveStoredCredentials E c (id :: rest) all w
  = match contents w !! contentKey (userID c) Credential_ id with
    | None => (inl NotFound, logged w (resolutionCalls c (contents w) [id]))
    | Some raw =>
        match decodeCredential E raw with
        | inl err => (inl err, logged w (resolutionCalls c (contents w) [id]))
        | inr vc =>
            resolveStoredCredentials E c rest (all ++ [vc])
                                     (logged w (resolutionCalls c (contents w) [id]))
        end
    end.
Proof.
  cbn [resolveStoredCredentials]. unfold bind at 1. rewrite contents_Get_run.
  unfold resolutionCalls, logged. simpl.
  destruct (contents w !! contentKey (userID c) Credential_ id) as [raw|]; [| reflexivity].
  unfold bind. rewrite ParseCredential_unchecked. simpl.
  rewrite <- app_assoc. simpl.
  by destruct (decodeCredential E raw).
Qed.

Lemma resolutionCalls_app store l1 l2 :
  resolutionCalls c store (l1 ++ l2)
  = (resolutionCalls c store l1 ++ resolutionCalls c store l2)%list.
Proof. unfold resolutionCalls. by rewrite flat_map_app. Qed.

Lemma resolveStoredCredentials_fail l1 id l2 err all w :
  Forall (fun i => storedFailure E c (contents w) i = None) l1 ->
  storedFailure E c (contents w) id = Some err ->
  resolveStoredCredentials E c (l1 ++ id :: l2) all w
  = (inl err, logged w (resolutionCalls c (contents w) (l1 ++ [id]))).
Proof.
  revert all w. induction l1 as [|i l1 IH]; intros all w Hall Hfail.
  - rewrite app_nil_l, resolveStoredCredentials_cons. unfold storedFailure in Hfail.
    destruct (contents w !! contentKey (userID c) Credential_ id) as [raw|].
    + destruct (decodeCredential E raw); [by injection Hfail as -> | discriminate].
    + by injection Hfail as <-.
  - inversion Hall as [|? ? Hi Hrest]; subst.
    rewrite <- app_comm_cons, resolveStoredCredentials_cons.
    unfold storedFailure in Hi.
    destruct (contents w !! contentKey (userID c) Credential_ i) as [raw|] eqn:Hget;
      [| discriminate].
    destruct (decodeCredential E raw) as [e|vc] eqn:Hd; [discriminate |].
    rewrite IH by assumption. rewrite logged_logged.
    change (contents (logged w (resolutionCalls c (contents w) [i]))) with (contents w).
    by rewrite <- resolutionCalls_app.
Qed.

End StoredResolution.

(** X7. Resolving the credentials to present stops at the first stored
    credential that is missing or does not decode: [Prove] fails with that
    error, wrapped once, having read the IDs up to and including the failing
    one and parsed the blobs it found; the IDs after it are never read and
    the raw credentials never parsed. *)
Theorem prove_stops_at_first_unresolved E c token opts creds w l1 id l2 err :
  storedCredentials (getProveOpts creds) = (l1 ++ id :: l2)%list ->
  Forall (fun i => storedFailure E c (contents w) i = None) l1 ->
  storedFailure E c (contents w) id = Some err ->
  Prove E c token opts creds w
  = (inl (wrapError "failed to resolve credentials from request" err),
     logged w (resolutionCalls c (contents w) (l1 ++ [id]))).
Proof.
  intros Hids Hall Hfail.
  unfold Prove, bind at 1. unfold resolveOptionsToPresent, bind at 1.
  rewrite Hids, (resolveStoredCredentials_fail E c l1 id l2 err) by assumption.
  reflexivity.
Qed.

Lemma prove_stops_at_first_unresolved_witness :
  Prove Sample.env Sample.wallet "token" (Some (Sample.options "" ""))
        [WithStoredCredentialsToProve ["c1"; "c2"; "c3"];
         WithRawCredentialsToProve [Sample.bytes "vc-bbs"]] Sample.world
  = (inl (wrapError "failed to resolve credentials from request" NotFound),
     logged Sample.world [callContentGet Credential_ "c1";
                           callParseCredential (Sample.bytes "vc-plain") false;
                           callContentGet Credential_ "c2"]).
Proof.
  apply (prove_stops_at_first_unresolved Sample.env Sample.wallet "token"
           (Some (Sample.options "" ""))
           [WithStoredCredentialsToProve ["c1"; "c2"; "c3"];
            WithRawCredentialsToProve [Sample.bytes "vc-bbs"]] Sample.world
           ["c1"] "c2" ["c3"] NotFound);
    [reflexivity | by repeat constructor | reflexivity].
Defined.

(** ** Verify reads, and reads the content store only *)

Section VerifyReads.

Variable E : Env.
Variable c : Wallet.

Lemma verifyEachCredential_outcome creds w :
  exists r cs,
    verifyEachCredential E c creds w = (r, logged w cs) /\
    Forall (fun k => ~ isWrite k) cs /\
    forall w', contents w' = contents w -> fst (verifyEachCredential E c creds w') = r.
Proof.
  destruct (first_failure E c (contents w) creds)
    as [Hall|(l1 & cr & l2 & err & -> & Hall & Hfail)].
  - exists (true, None), (verificationCalls E creds).
    split; [by apply verifyEachCredential_pass |]. split.
    + unfold verificationCalls. apply Forall_flat_map, Forall_forall. intros cr _.
      destruct (marshalCredential E cr); repeat constructor. simpl. tauto.
    + intros w' Hc. rewrite verifyEachCredential_pass; [reflexivity | by rewrite Hc].
  - exists (false, Some err), (verificationCalls E (l1 ++ [cr])).
    split; [by apply verifyEachCredential_fail |]. split.
    + unfold verificationCalls. apply Forall_flat_map, Forall_forall. intros x _.
      destruct (marshalCredential E x); repeat constructor. simpl. tauto.
    + intros w' Hc. rewrite (verifyEachCredential_fail E c l1 cr l2 err);
        [reflexivity | by rewrite Hc | by rewrite Hc].
Qed.

Lemma Verify_outcome options w :
  exists r cs,
    Verify E c options w = (r, logged w cs) /\
    Forall (fun k => ~ isWrite k) cs /\
    forall w', contents w' = contents w -> fst (Verify E c options w') = r.
Proof.
  assert (Hcred : forall raw pre,
             Forall (fun k => ~ isWrite k) pre ->
             exists r cs,
               verifyCredential E c raw (logged w pre) = (r, logged w cs) /\
               Forall (fun k => ~ isWrite k) cs /\
               forall w', contents w' = contents w -> fst (verifyCredential E c raw w') = r).
  { intros raw pre Hpre. eexists. exists (pre ++ [callParseCredential raw true])%list.
    rewrite verifyCredential_run, logged_logged. split; [reflexivity |]. split.
    - apply Forall_app. split; [exact Hpre |]. repeat constructor. simpl. tauto.
    - intros w' Hc. rewrite verifyCredential_run. simpl. by rewrite Hc. }
  unfold Verify.
  destruct (negb (String.eqb (credentialID (options (mkVerifyOpts "" [] []))) "")).
  - unfold bind. rewrite contents_Get_run.
    destruct (contents w !! contentKey (userID c) Credential_ _) as [raw|] eqn:Hget.
    + destruct (Hcred raw [callContentGet Credential_
                             (credentialID (options (mkVerifyOpts "" [] [])))])
        as (r & cs & Hrun & Hcs & Hsame); [repeat constructor; simpl; tauto |].
      exists r, cs. split; [exact Hrun |]. split; [exact Hcs |].
      intros w' Hc. rewrite contents_Get_run, Hc, Hget. by apply Hsame.
    + eexists. eexists. split; [reflexivity |]. split.
      * repeat constructor. simpl. tauto.
      * intros w' Hc. by rewrite contents_Get_run, Hc, Hget.
  - destruct (Nat.ltb 0 (length (rawCredential (options (mkVerifyOpts "" [] []))))).
    + destruct (Hcred (rawCredential (options (mkVerifyOpts "" [] []))) [])
        as (r & cs & Hrun & Hcs & Hsame); [constructor |].
      rewrite logged_nil in Hrun. by exists r, cs.
    + destruct (Nat.ltb 0 (length (rawPresentation (options (mkVerifyOpts "" [] []))))).
      * set (raw := rawPresentation (options (mkVerifyOpts "" [] []))).
        rewrite verifyPresentation_run.
        destruct (presentationParsed E c (contents w) raw) as [err|vp] eqn:Hp.
        -- eexists. eexists. split; [reflexivity |]. split.
           ++ repeat constructor. simpl. tauto.
           ++ intros w' Hc. by rewrite verifyPresentation_run, Hc, Hp.
        -- destruct (verifyEachCredential_outcome (vpCredentials vp)
                       (logged w [callParsePresentation raw]))
             as (r & cs & Hrun & Hcs & Hsame).
           exists r, ([callParsePresentation raw] ++ cs)%list.
           rewrite Hrun, logged_logged. split; [reflexivity |]. split.
           ++ apply Forall_app. split; [| exact Hcs]. repeat constructor. simpl. tauto.
           ++ intros w' Hc. rewrite verifyPresentation_run, Hc, Hp. by apply Hsame.
      * exists (false, Some (errorString "invalid verify request")), [].
        rewrite logged_nil. split; [reflexivity |]. split; [constructor | reflexivity].
Qed.

End VerifyReads.

(** X8. [Verify] only reads.  Whatever it is asked, the profile store and
    the content store after the call are those before it and none of its
    calls is a write; and its answer depends on the content store alone, so
    it is the same before and after any [Issue], whatever that [Issue] was
    asked and whether or not it succeeded. *)
Theorem Verify_only_reads E c options w :
  onlyCalls (fun k => ~ isWrite k) w (snd (Verify E c options w)) /\
  (forall w', contents w' = contents w ->
              fst (Verify E c options w') = fst (Verify E c options w)) /\
  (forall token cred opts,
      fst (Verify E c options (snd (Issue E c token cred opts w)))
      = fst (Verify E c options w)).
Proof.
  destruct (Verify_outcome E c options w) as (r & cs & Hrun & Hcs & Hsame).
  split; [| split].
  - rewrite Hrun. by apply onlyCalls_logged.
  - intros w' Hc. rewrite Hrun. by apply Hsame.
  - intros token cred opts. rewrite Hrun. apply Hsame.
    apply (Issue_calls E c token cred opts w).
Qed.

Lemma Verify_only_reads_witness :
  fst (Verify Sample.env Sample.wallet (WithStoredCredentialToVerify "c1")
              (logged Sample.world [callVDRResolve "did:example:bob"]))
  = fst (Verify Sample.env Sample.wallet (WithStoredCredentialToVerify "c1") Sample.world).
Proof.
  by apply (Verify_only_reads Sample.env Sample.wallet (WithStoredCredentialToVerify "c1")
              Sample.world).
Defined.

(** ** Derive *)

Section DeriveProperties.

Variable E : Env.
Variable G : Credential -> RawMessage -> list Byte.byte -> PublicKeyFetcher -> error + Credential.
Variable c : Wallet.

Lemma resolveCredentialToDerive_calls credential :
  framed (fun k => ~ isWrite k /\ ~ isCheckedParse k)
         (resolveCredentialToDerive E c credential).
Proof.
  unfold resolveCredentialToDerive. cbv zeta.
  destruct (deriveCredential _); [apply framed_ret |].
  destruct (Nat.ltb 0 _); [apply framed_ParseCredential; simpl; tauto |].
  destruct (negb _); [| apply framed_ret].
  apply framed_bind; [apply framed_contents_Get; simpl; tauto | intros r].
  destruct r; [apply framed_ret | apply framed_ParseCredential; simpl; tauto].
Qed.

Lemma Derive_calls credential options :
  framed (fun k => ~ isWrite k /\ ~ isCheckedParse k) (Derive E G c credential options).
Proof.
  unfold Derive.
  apply framed_bind; [apply resolveCredentialToDerive_calls | intros r].
  destruct r as [err|vc]; [apply framed_ret |].
  destruct options as [o|]; [| apply framed_ret].
  apply framed_bind; [apply framed_getWorld | intros w0]. frame.
Qed.

Lemma resolveCredentialToDerive_checks chkC chkP credential w :
  resolveCredentialToDerive (withProofChecks E chkC chkP) c credential w
  = resolveCredentialToDerive E c credential w.
Proof.
  unfold resolveCredentialToDerive. cbv zeta.
  destruct (deriveCredential _); [reflexivity |].
  destruct (Nat.ltb 0 _); [by rewrite !ParseCredential_unchecked |].
  destruct (negb _); [| reflexivity].
  unfold bind. destruct (contents_Get c Credential_ _ w) as [[err|raw] w1]; [reflexivity |].
  by rewrite !ParseCredential_unchecked.
Qed.

End DeriveProperties.

(** X9. Where [Derive] takes its credential from.  A credential instance is
    used as it is, with no call made, whatever else the request holds; raw
    bytes are preferred to a stored ID, so that the store is not read when
    both are given, the opposite of [Verify], which prefers the stored ID and
    does not parse the raw bytes; and a request that holds none of the three
    fails as an invalid request, the world untouched, even with nil derive
    options.  The derivation's own failure comes back wrapped once. *)
Theorem derive_sources E G c w :
  (forall credential options vc,
      deriveCredential (credential (mkDeriveOpts None [] "")) = Some vc ->
      Derive E G c credential (Some options) w
      = (match G vc (Frame options) (String.list_byte_of_string (Nonce options))
                 (NewVDRKeyResolver E c (contents w)) with
         | inl err => inl (wrapError "failed to derive credential " err)
         | inr derived => inr derived
         end, w)) /\
  (forall raw id options,
      raw <> [] ->
      Derive E G c (fun _ => mkDeriveOpts None raw id) options w
      = Derive E G c (fun _ => mkDeriveOpts None raw "") options w) /\
  (forall raw rawvp id,
      id <> "" ->
      Verify E c (fun _ => mkVerifyOpts id raw rawvp) w
      = Verify E c (fun _ => mkVerifyOpts id [] []) w) /\
  (forall credential options,
      deriveCredential (credential (mkDeriveOpts None [] "")) = None ->
      deriveRawCredential (credential (mkDeriveOpts None [] "")) = [] ->
      deriveCredentialID (credential (mkDeriveOpts None [] "")) = "" ->
      Derive E G c credential options w
      = (inl (wrapError "failed to resolve request "
                        (errorString "invalid request to derive credential")), w)).
Proof.
  split; [| split; [| split]].
  - intros credential options vc Hvc.
    unfold Derive, resolveCredentialToDerive, bind, ret, getWorld. cbv zeta.
    rewrite Hvc.
    by destruct (G vc _ _ _).
  - intros raw id options Hraw.
    unfold Derive, resolveCredentialToDerive. cbv zeta. simpl.
    by destruct raw.
  - intros raw rawvp id Hid. apply String.eqb_neq in Hid.
    unfold Verify. simpl. by rewrite Hid.
  - intros credential options Hvc Hraw Hid.
    unfold Derive, resolveCredentialToDerive, bind, ret. cbv zeta.
    by rewrite Hvc, Hraw, Hid.
Qed.

Lemma derive_sources_witness :
  Derive Sample.env (fun vc _ _ _ => inl (errorString "no BBS proof")) Sample.wallet
         (fun _ => mkDeriveOpts (Some Sample.vcPlain) (Sample.bytes "vc-bbs") "c1")
         (Some (mkDeriveOptions (Sample.bytes "{}") "abc")) Sample.world
  = (inl (wrapError "failed to derive credential " (errorString "no BBS proof")),
     Sample.world)
  /\ Derive Sample.env (fun vc _ _ _ => inr vc) Sample.wallet (fun o => o) None Sample.world
     = (inl (wrapError "failed to resolve request "
                       (errorString "invalid request to derive credential")),
        Sample.world).
Proof.
  split.
  - destruct (derive_sources Sample.env (fun vc _ _ _ => inl (errorString "no BBS proof"))
                Sample.wallet Sample.world) as [Hinstance _].
    exact (Hinstance (fun _ => mkDeriveOpts (Some Sample.vcPlain) (Sample.bytes "vc-bbs") "c1")
                     (mkDeriveOptions (Sample.bytes "{}") "abc") Sample.vcPlain eq_refl).
  - destruct (derive_sources Sample.env (fun vc _ _ _ => inr vc) Sample.wallet Sample.world)
      as (_ & _ & _ & Hnone).
    exact (Hnone (fun o => o) None eq_refl eq_refl eq_refl).
Defined.

(** What [Derive] answers once the credential is resolved. *)
Lemma Derive_resolved E G c credential options w vc :
  fst (resolveCredentialToDerive E c credential w) = inr vc ->
  fst (Derive E G c credential (Some options) w)
  = match G vc (Frame options) (String.list_byte_of_string (Nonce options))
            (NewVDRKeyResolver E c (contents w)) with
    | inl err => inl (wrapError "failed to derive credential " err)
    | inr derived => inr derived
    end.
Proof.
  intros Hres. unfold Derive, bind, getWorld, ret.
  pose proof (resolveCredentialToDerive_calls E c credential w) as (_ & Hc & _).
  destruct (resolveCredentialToDerive E c credential w) as [r w1].
  cbn [fst snd] in *. subst r. rewrite Hc.
  by destruct (G vc _ _ _).
Qed.

(** X10. The wallet's part of [Derive] checks no proof and writes nothing.
    The calls of a [Derive] are reads and parses with the proof check off,
    and both stores are as they were.  Raw bytes, and the blob of a stored
    ID, are resolved to the credential they decode to, whatever the proof
    checkers would say of it, and [Derive] then answers what
    [GenerateBBSSelectiveDisclosure] answers for that credential, an error
    of it wrapped once: a proof is verified in a [Derive] only if that
    routine, which is handed the key fetcher, verifies it. *)
Theorem derive_resolves_unchecked E G c credential w :
  let request := credential (mkDeriveOpts None [] "") in
  (forall options,
      onlyCalls (fun k => ~ isWrite k /\ ~ isCheckedParse k) w
                (snd (Derive E G c credential options w))) /\
  (forall chkC chkP,
      resolveCredentialToDerive (withProofChecks E chkC chkP) c credential w
      = resolveCredentialToDerive E c credential w) /\
  (forall vc,
      deriveCredential request = None ->
      deriveRawCredential request <> [] ->
      decodeCredential E (deriveRawCredential request) = inr vc ->
      fst (resolveCredentialToDerive E c credential w) = inr vc) /\
  (forall raw vc,
      deriveCredential request = None ->
      deriveRawCredential request = [] ->
      deriveCredentialID request <> "" ->
      contents w !! contentKey (userID c) Credential_ (deriveCredentialID request)
      = Some raw ->
      decodeCredential E raw = inr vc ->
      fst (resolveCredentialToDerive E c credential w) = inr vc) /\
  (forall options vc,
      fst (resolveCredentialToDerive E c credential w) = inr vc ->
      fst (Derive E G c credential (Some options) w)
      = match G vc (Frame options) (String.list_byte_of_string (Nonce options))
                (NewVDRKeyResolver E c (contents w)) with
        | inl err => inl (wrapError "failed to derive credential " err)
        | inr derived => inr derived
        end).
Proof.
  intros request. subst request.
  split; [| split; [| split; [| split]]].
  - intros options. apply Derive_calls.
  - intros chkC chkP. apply resolveCredentialToDerive_checks.
  - intros vc Hnone Hraw Hdec. unfold resolveCredentialToDerive. cbv zeta.
    rewrite Hnone.
    destruct (deriveRawCredential (credential (mkDeriveOpts None [] ""))) as [|x raw] eqn:Hr;
      [done |].
    cbn [length Nat.ltb Nat.leb]. rewrite ParseCredential_unchecked. simpl.
    by rewrite Hdec.
  - intros raw vc Hnone Hraw Hid Hget Hdec. apply String.eqb_neq in Hid.
    unfold resolveCredentialToDerive. cbv zeta. rewrite Hnone, Hraw, Hid. simpl.
    unfold bind. rewrite contents_Get_run, Hget.
    rewrite ParseCredential_unchecked. simpl. by rewrite Hdec.
  - intros options vc Hres. by apply Derive_resolved.
Qed.

Lemma derive_resolves_unchecked_witness :
  (forall raw vc, decodeCredential Sample.env raw = inr vc ->
                  checkCredentialProofs Sample.env None vc
                  = Some (errorString "invalid signature"))
  /\ fst (Derive Sample.env (fun vc _ _ _ => inr vc) Sample.wallet
                 (fun _ => mkDeriveOpts None [] "c1")
                 (Some (mkDeriveOptions (Sample.bytes "{}") "abc")) Sample.world)
     = inr Sample.vcPlain.
Proof.
  split; [reflexivity |].
  destruct (derive_resolves_unchecked Sample.env (fun vc _ _ _ => inr vc) Sample.wallet
              (fun _ => mkDeriveOpts None [] "c1") Sample.world)
    as (_ & _ & _ & Hstored & Hrun).
  rewrite (Hrun (mkDeriveOptions (Sample.bytes "{}") "abc") Sample.vcPlain);
    [reflexivity |].
  apply (Hstored (Sample.bytes "vc-plain")); [reflexivity | reflexivity | discriminate | |];
    reflexivity.
Defined.

(** * The DID exchange service *)

Section DIDExchangeProperties.

Import DIDExchange.

Variable did : string.

Lemma append_inj_r (p a b : string) : p ++ a = p ++ b -> a = b.
Proof. induction p as [|x p IH]; simpl; [done |]. intros [= H]. by apply IH. Qed.

Lemma ConnectionInvite_triggers_nothing :
  canTriggerActionEvents did (ConnectionInvite did) = false.
Proof.
  unfold canTriggerActionEvents.
  assert (H : forall s, s <> "invitation" ->
                        String.eqb (ConnectionInvite did) (DIDExchangeSpec did ++ s) = false).
  { intros s Hs. apply String.eqb_neq. unfold ConnectionInvite. intros Heq.
    apply append_inj_r in Heq. by destruct Hs. }
  unfold ConnectionRequest, ConnectionResponse, ConnectionAck.
  by rewrite !H.
Qed.

(** X11. The service accepts exactly the invitation and the message types
    that trigger action events (request, response and ack); the invitation
    itself never triggers one.  So a type that triggers action events is
    always accepted, and an accepted type that does not is the invitation. *)
Theorem accepted_types (msgType : string) :
  Accept did msgType
  = String.eqb msgType (ConnectionInvite did) || canTriggerActionEvents did msgType /\
  canTriggerActionEvents did (ConnectionInvite did) = false /\
  (canTriggerActionEvents did msgType = true -> Accept did msgType = true) /\
  (Accept did msgType = true -> canTriggerActionEvents did msgType = false ->
   msgType = ConnectionInvite did).
Proof.
  assert (Heq : Accept did msgType
                = String.eqb msgType (ConnectionInvite did)
                  || canTriggerActionEvents did msgType).
  { unfold Accept, canTriggerActionEvents.
    destruct (String.eqb msgType (ConnectionInvite did));
      destruct (String.eqb msgType (ConnectionRequest did));
      destruct (String.eqb msgType (ConnectionResponse did));
      by destruct (String.eqb msgType (ConnectionAck did)). }
  split; [exact Heq |]. split; [apply ConnectionInvite_triggers_nothing |]. split.
  - intros Ht. rewrite Heq, Ht. apply orb_true_r.
  - intros Ha Hn. rewrite Heq, Hn, orb_false_r in Ha. by apply String.eqb_eq.
Qed.

End DIDExchangeProperties.

Lemma accepted_types_witness :
  DIDExchange.Accept "did:sov:BzCbsNYhMrjHiqZDTUASHg"
                     "did:sov:BzCbsNYhMrjHiqZDTUASHg;spec/didexchange/1.0/request" = true.
Proof.
  by apply (accepted_types "did:sov:BzCbsNYhMrjHiqZDTUASHg"
              "did:sov:BzCbsNYhMrjHiqZDTUASHg;spec/didexchange/1.0/request").
Defined.

Section EventRegistration.

Import DIDExchange.

Context {A M : Type} `{EqDecision A} `{EqDecision M}.

(** X12. One action-event channel at a time.  Registering succeeds exactly
    when none is registered and otherwise fails leaving the service as it
    was.  While a channel is registered every registration fails, and
    unregistering any other channel fails, both leaving it registered;
    unregistering that channel succeeds and leaves none registered, so that
    a registration then succeeds. *)
Theorem action_event_registration (s : Service (A := A) (M := M)) (a : A) :
  actionEvent s = None ->
  let s1 := snd (RegisterActionEvent s (Some a)) in
  fst (RegisterActionEvent s (Some a)) = None /\
  actionEvent s1 = Some a /\
  msgEvents s1 = msgEvents s /\
  (forall ch, exists err, RegisterActionEvent s1 ch = (Some err, s1)) /\
  (forall ch, ch <> Some a -> exists err, UnregisterActionEvent s1 ch = (Some err, s1)) /\
  UnregisterActionEvent s1 (Some a) = (None, s) /\
  (forall ch, fst (RegisterActionEvent (snd (UnregisterActionEvent s1 (Some a))) ch) = None).
Proof.
  intros Hnone s1. subst s1.
  assert (Hreg : RegisterActionEvent s (Some a) = (None, mkService (Some a) (msgEvents s)))
    by (unfold RegisterActionEvent; by rewrite Hnone).
  rewrite Hreg. cbn [fst snd actionEvent msgEvents].
  split; [reflexivity |]. split; [reflexivity |]. split; [reflexivity |].
  split; [| split; [| split]].
  - intros ch. unfold RegisterActionEvent. simpl. by eexists.
  - intros ch Hne. unfold UnregisterActionEvent. simpl.
    rewrite decide_True by (intros Heq; by destruct Hne). by eexists.
  - unfold UnregisterActionEvent. simpl.
    rewrite decide_False by (by intros Hne). destruct s as [ae me]. simpl in *. by subst ae.
  - intros ch. unfold UnregisterActionEvent. simpl.
    by rewrite decide_False by (by intros Hne).
Qed.

Lemma unregisterLoop_spec (ch : M) (rest : list M) :
  forall fuel pre,
    length rest <= fuel ->
    unregisterLoop fuel ch (Z.of_nat (length pre)) (pre ++ rest)
    = Some (pre ++ filter (fun h => h <> ch) rest)%list.
Proof.
  induction rest as [|e rest IH]; intros fuel pre Hfuel.
  - assert (Hlt : Z.ltb (Z.of_nat (length pre)) (Z.of_nat (length (pre ++ []))) = false).
    { rewrite app_nil_r. apply Z.ltb_irrefl. }
    by destruct fuel; simpl; rewrite Hlt.
  - destruct fuel as [|fuel]; [simpl in Hfuel; lia |].
    simpl in Hfuel. cbn [unregisterLoop].
    assert (Hlt : Z.ltb (Z.of_nat (length pre)) (Z.of_nat (length (pre ++ e :: rest))) = true).
    { apply Z.ltb_lt. rewrite length_app. simpl. lia. }
    assert (Hneg : Z.ltb (Z.of_nat (length pre)) 0 = false) by (apply Z.ltb_ge; lia).
    rewrite Hlt, Hneg, Nat2Z.id, list_lookup_middle by reflexivity.
    destruct (decide (e = ch)) as [Heq|Hne].
    + rewrite delete_middle.
      replace (Z.of_nat (length pre) - 1 + 1)%Z with (Z.of_nat (length pre)) by lia.
      rewrite IH by lia. rewrite filter_cons_False; [reflexivity | by intros Hn].
    + replace (Z.of_nat (length pre) + 1)%Z with (Z.of_nat (length (pre ++ [e])))
        by (rewrite length_app; simpl; lia).
      replace (pre ++ e :: rest)%list with ((pre ++ [e]) ++ rest)%list
        by (by rewrite <- app_assoc).
      rewrite IH by lia. rewrite filter_cons_True by exact Hne.
      by rewrite <- app_assoc.
Qed.

Lemma UnregisterMsgEvent_filter (s : Service (A := A) (M := M)) (ch : M) :
  UnregisterMsgEvent s ch
  = Some (None, mkService (actionEvent s) (filter (fun h => h <> ch) (msgEvents s))).
Proof.
  unfold UnregisterMsgEvent.
  pose proof (unregisterLoop_spec ch (msgEvents s) (length (msgEvents s)) [] (le_n _)) as H.
  change (unregisterLoop (length (msgEvents s)) ch 0 (msgEvents s)
          = Some (filter (fun h => h <> ch) (msgEvents s))) in H.
  by rewrite H.
Qed.

(** X13. Unregistering a message-event channel always runs to its end and
    removes every registration of that channel, the other registrations
    kept in their order: afterwards a message event is sent to the handlers
    it was sent to before, but for that channel.  A channel registered twice
    is sent every message twice, and one unregistration removes both; a
    channel that was not registered is back out after registering and
    unregistering it. *)
Theorem message_event_registration (s : Service (A := A) (M := M)) (ch : M) :
  UnregisterMsgEvent s ch
  = Some (None, mkService (actionEvent s) (filter (fun h => h <> ch) (msgEvents s))) /\
  (forall s', UnregisterMsgEvent s ch = Some (None, s') ->
              (ch ∉ msgEvents s') /\
              forall (Msg : Type) (msg : Msg),
                sendMsgEvents s' msg
                = filter (fun d => fst d <> ch) (sendMsgEvents s msg)) /\
  (forall (Msg : Type) (msg : Msg),
      sendMsgEvents (snd (RegisterMsgEvent (snd (RegisterMsgEvent s ch)) ch)) msg
      = (sendMsgEvents s msg ++ [(ch, msg); (ch, msg)])%list) /\
  (ch ∉ msgEvents s ->
   UnregisterMsgEvent (snd (RegisterMsgEvent (snd (RegisterMsgEvent s ch)) ch)) ch
   = Some (None, s)).
Proof.
  split; [apply UnregisterMsgEvent_filter |]. split; [| split].
  - intros s' Hs'. rewrite UnregisterMsgEvent_filter in Hs'. injection Hs' as <-.
    simpl. split.
    + intros Hin. apply list_elem_of_filter in Hin as [Hne _]. by destruct Hne.
    + intros Msg msg. unfold sendMsgEvents. simpl.
      induction (msgEvents s) as [|h l IH]; [reflexivity |].
      simpl. destruct (decide (h = ch)) as [Heq|Hne].
      * rewrite filter_cons_False by (by intros Hn).
        rewrite filter_cons_False by (simpl; by intros Hn). exact IH.
      * rewrite filter_cons_True by exact Hne.
        rewrite filter_cons_True by exact Hne. simpl. by rewrite IH.
  - intros Msg msg. unfold sendMsgEvents, RegisterMsgEvent. simpl.
    by rewrite <- app_assoc, map_app.
  - intros Hnin. rewrite UnregisterMsgEvent_filter. unfold RegisterMsgEvent. simpl.
    rewrite <- app_assoc, filter_app. simpl.
    rewrite filter_cons_False by (by intros Hn).
    rewrite filter_cons_False by (by intros Hn).
    rewrite filter_nil, app_nil_r.
    assert (Hid : filter (fun h => h <> ch) (msgEvents s) = msgEvents s).
    { induction (msgEvents s) as [|h l IH]; [reflexivity |].
      apply not_elem_of_cons in Hnin as [Hne Hl].
      rewrite filter_cons_True by (by intros Heq; destruct Hne). by rewrite IH. }
    rewrite Hid. by destruct s.
Qed.

End EventRegistration.

Lemma action_event_registration_witness :
  DIDExchange.UnregisterActionEvent
    (snd (DIDExchange.RegisterActionEvent (DIDExchange.mkService (M := nat) None []) (Some 1)))
    (Some 1)
  = (None, DIDExchange.mkService None []).
Proof.
  destruct (action_event_registration (DIDExchange.mkService (M := nat) None []) 1 eq_refl)
    as (_ & _ & _ & _ & _ & Hback & _).
  exact Hback.
Defined.

Lemma message_event_registration_witness :
  DIDExchange.UnregisterMsgEvent (A := nat) (DIDExchange.mkService None [3; 7; 3; 5; 7]) 7
  = Some (None, DIDExchange.mkService None [3; 3; 5])
  /\ DIDExchange.UnregisterMsgEvent (A := nat)
       (snd (DIDExchange.RegisterMsgEvent
               (snd (DIDExchange.RegisterMsgEvent (DIDExchange.mkService None [3; 5]) 7)) 7))
       7
     = Some (None, DIDExchange.mkService None [3; 5]).
Proof.
  split.
  - destruct (message_event_registration (A := nat)
                (DIDExchange.mkService None [3; 7; 3; 5; 7]) 7) as [Hrun _].
    rewrite Hrun. reflexivity.
  - destruct (message_event_registration (A := nat) (DIDExchange.mkService None [3; 5]) 7)
      as (_ & _ & _ & Hback).
    apply Hback.
    intros [H|[H|H]%elem_of_cons]%elem_of_cons; [discriminate | discriminate |].
    by apply elem_of_nil in H.
Defined.

Section Invitations.

Import DIDExchange.

Variable did : string.
Variable jsonMarshal : Invitation -> error + list Byte.byte.
Variable base64URLEncode : list Byte.byte -> string.

Lemma encodedExchangeInvitation_type inv t :
  encodedExchangeInvitation did jsonMarshal base64URLEncode (setType inv t)
  = encodedExchangeInvitation did jsonMarshal base64URLEncode inv /\
  invType (snd (encodedExchangeInvitation did jsonMarshal base64URLEncode inv))
  = ConnectionInvite did.
Proof.
  unfold encodedExchangeInvitation, setType. simpl.
  split; by destruct (jsonMarshal _).
Qed.

Lemma GenerateInviteWithPublicDID_valid inv :
  invID inv <> "" -> invDID inv <> "" ->
  GenerateInviteWithPublicDID did jsonMarshal base64URLEncode inv
  = encodedExchangeInvitation did jsonMarshal base64URLEncode inv.
Proof.
  intros Hid Hdid. apply String.eqb_neq in Hid. apply String.eqb_neq in Hdid.
  unfold GenerateInviteWithPublicDID. by rewrite Hid, Hdid.
Qed.

Lemma GenerateInviteWithKeyAndEndpoint_valid inv :
  invID inv <> "" -> invServiceEndpoint inv <> "" -> invRecipientKeys inv <> [] ->
  GenerateInviteWithKeyAndEndpoint did jsonMarshal base64URLEncode inv
  = encodedExchangeInvitation did jsonMarshal base64URLEncode inv.
Proof.
  intros Hid Hep Hkeys. apply String.eqb_neq in Hid. apply String.eqb_neq in Hep.
  unfold GenerateInviteWithKeyAndEndpoint. rewrite Hid, Hep.
  by destruct (invRecipientKeys inv).
Qed.

(** X14. Generating an invitation.  Each generator refuses an invitation
    that lacks one of its mandatory fields (ID and DID; ID, service endpoint
    and at least one recipient key) and then leaves it untouched.  An
    invitation that has the mandatory fields of a generator is given the
    invitation message type by it, whatever type it carried, before it is
    encoded: the caller's invitation ends up with the invitation type and
    what the generator returns does not depend on the type the invitation
    came with.  This holds of either generator on its own mandatory fields,
    the other fields being what they may; and the two generators return the
    same for an invitation that has the mandatory fields of both. *)
Theorem invitation_generation (inv : Invitation) :
  (invID inv = "" \/ invDID inv = "" ->
   GenerateInviteWithPublicDID did jsonMarshal base64URLEncode inv
   = (inl (errorString "ID and DID are mandatory"), inv)) /\
  (invID inv = "" \/ invServiceEndpoint inv = "" \/ invRecipientKeys inv = [] ->
   GenerateInviteWithKeyAndEndpoint did jsonMarshal base64URLEncode inv
   = (inl (errorString "ID, Event Endpoint and Recipient Key are mandatory"), inv)) /\
  (invID inv <> "" -> invDID inv <> "" ->
   snd (GenerateInviteWithPublicDID did jsonMarshal base64URLEncode inv)
   = setType inv (ConnectionInvite did) /\
   fst (GenerateInviteWithPublicDID did jsonMarshal base64URLEncode inv)
   = match jsonMarshal (setType inv (ConnectionInvite did)) with
     | inl err => inl (wrapError "JSON Marshal Error " err)
     | inr invitationJSON => inr (base64URLEncode invitationJSON)
     end /\
   (forall t, GenerateInviteWithPublicDID did jsonMarshal base64URLEncode (setType inv t)
              = GenerateInviteWithPublicDID did jsonMarshal base64URLEncode inv)) /\
  (invID inv <> "" -> invServiceEndpoint inv <> "" -> invRecipientKeys inv <> [] ->
   snd (GenerateInviteWithKeyAndEndpoint did jsonMarshal base64URLEncode inv)
   = setType inv (ConnectionInvite did) /\
   fst (GenerateInviteWithKeyAndEndpoint did jsonMarshal base64URLEncode inv)
   = match jsonMarshal (setType inv (ConnectionInvite did)) with
     | inl err => inl (wrapError "JSON Marshal Error " err)
     | inr invitationJSON => inr (base64URLEncode invitationJSON)
     end /\
   (forall t, GenerateInviteWithKeyAndEndpoint did jsonMarshal base64URLEncode (setType inv t)
              = GenerateInviteWithKeyAndEndpoint did jsonMarshal base64URLEncode inv)) /\
  (invID inv <> "" -> invDID inv <> "" ->
   invServiceEndpoint inv <> "" -> invRecipientKeys inv <> [] ->
   GenerateInviteWithKeyAndEndpoint did jsonMarshal base64URLEncode inv
   = GenerateInviteWithPublicDID did jsonMarshal base64URLEncode inv).
Proof.
  assert (Hrun : snd (encodedExchangeInvitation did jsonMarshal base64URLEncode inv)
                 = setType inv (ConnectionInvite did) /\
                 fst (encodedExchangeInvitation did jsonMarshal base64URLEncode inv)
                 = match jsonMarshal (setType inv (ConnectionInvite did)) with
                   | inl err => inl (wrapError "JSON Marshal Error " err)
                   | inr invitationJSON => inr (base64URLEncode invitationJSON)
                   end).
  { unfold encodedExchangeInvitation.
    by destruct (jsonMarshal (setType inv (ConnectionInvite did))). }
  split; [| split; [| split; [| split]]].
  - intros Hmissing. unfold GenerateInviteWithPublicDID.
    destruct Hmissing as [-> | ->]; [reflexivity |]. by rewrite orb_true_r.
  - intros Hmissing. unfold GenerateInviteWithKeyAndEndpoint.
    destruct Hmissing as [-> | [-> | ->]]; [reflexivity | |].
    + by rewrite orb_true_r.
    + by rewrite orb_true_r.
  - intros Hid Hdid. rewrite (GenerateInviteWithPublicDID_valid inv Hid Hdid).
    split; [apply Hrun |]. split; [apply Hrun |].
    intros t. rewrite (GenerateInviteWithPublicDID_valid (setType inv t) Hid Hdid).
    apply encodedExchangeInvitation_type.
  - intros Hid Hep Hkeys.
    rewrite (GenerateInviteWithKeyAndEndpoint_valid inv Hid Hep Hkeys).
    split; [apply Hrun |]. split; [apply Hrun |].
    intros t.
    rewrite (GenerateInviteWithKeyAndEndpoint_valid (setType inv t) Hid Hep Hkeys).
    apply encodedExchangeInvitation_type.
  - intros Hid Hdid Hep Hkeys.
    by rewrite (GenerateInviteWithKeyAndEndpoint_valid inv Hid Hep Hkeys),
         (GenerateInviteWithPublicDID_valid inv Hid Hdid).
Qed.

End Invitations.

Lemma invitation_generation_witness :
  let marshal := fun inv => inr (String.list_byte_of_string (DIDExchange.invType inv)) in
  let inv := DIDExchange.mkInvitation "something-else" "invite-1" "alice" ""
                                      ["key-1"] "https://alice.example.com" in
  DIDExchange.GenerateInviteWithKeyAndEndpoint "did:sov:aries" marshal
    String.string_of_list_byte inv
  = (inr "did:sov:aries;spec/didexchange/1.0/invitation",
     DIDExchange.mkInvitation "did:sov:aries;spec/didexchange/1.0/invitation" "invite-1"
                              "alice" "" ["key-1"] "https://alice.example.com")
  /\ DIDExchange.GenerateInviteWithPublicDID "did:sov:aries" marshal
       String.string_of_list_byte inv
     = (inl (errorString "ID and DID are mandatory"), inv).
Proof.
  intros marshal inv.
  destruct (invitation_generation "did:sov:aries" marshal String.string_of_list_byte inv)
    as (Hrefused & _ & _ & Hkeys & _).
  split.
  - destruct Hkeys as (Hinv & Hstr & _); [discriminate | discriminate | discriminate |].
    rewrite (surjective_pairing (DIDExchange.GenerateInviteWithKeyAndEndpoint _ _ _ _)).
    by rewrite Hinv, Hstr.
  - apply Hrefused. by right.
Defined.

(** * The did:key creator *)

(** The code table of [fetchECKeyCodeFromVerMethod], read at a length. *)
Lemma fetchECKeyCodeFromVerMethod_code I method :
  KeyVDR.fetchECKeyCodeFromVerMethod I method
  = inr (codeByLength I (length (vmValue method))).
Proof.
  unfold KeyVDR.fetchECKeyCodeFromVerMethod, codeByLength. f_equal.
  destruct (decide (length (vmValue method) = 64)) as [->|H64].
  { by rewrite lookup_insert_eq. }
  rewrite lookup_insert_ne by done.
  destruct (decide (length (vmValue method) = 96)) as [->|H96].
  { by rewrite lookup_insert_eq. }
  rewrite lookup_insert_ne by done.
  destruct (decide (length (vmValue method) = 132)) as [->|H132].
  { by rewrite lookup_singleton_eq. }
  by rewrite lookup_singleton_ne.
Qed.

(** The key code [Create] computes: [keyType] is empty there. *)
Lemma getKeyCode_no_key_type I vm :
  KeyVDR.getKeyCode I "" vm
  = if decide (vmType vm ∈ supportedKeyTypes) then
      inr (if decide (vmType vm = KeyVDR.ed25519VerificationKey2018)
           then KeyVDR.ED25519PubKeyMultiCodec I
           else if decide (vmType vm = KeyVDR.bls12381G2Key2020)
                then KeyVDR.BLS12381g2PubKeyMultiCodec I
                else codeByLength I (length (vmValue vm)))
    else inl (errorString ("not supported public key type: " ++ vmType vm)).
Proof.
  unfold KeyVDR.getKeyCode, supportedKeyTypes.
  destruct (String.eqb_spec (vmType vm) KeyVDR.ed25519VerificationKey2018) as [He|He].
  { rewrite decide_True by (rewrite He; apply elem_of_cons; by left).
    by rewrite decide_True. }
  destruct (String.eqb_spec (vmType vm) KeyVDR.bls12381G2Key2020) as [Hb|Hb].
  { rewrite decide_True by (rewrite Hb; apply elem_of_cons; right; apply elem_of_cons; by left).
    rewrite decide_False by done. by rewrite decide_True. }
  destruct (String.eqb_spec (vmType vm) KeyVDR.jsonWebKey2020) as [Hj|Hj].
  { rewrite decide_True
      by (rewrite Hj; do 2 (apply elem_of_cons; right); apply elem_of_cons; by left).
    rewrite !decide_False by done. simpl.
    apply fetchECKeyCodeFromVerMethod_code. }
  rewrite decide_False; [done |].
  intros [?|[?|[?|?%elem_of_nil]%elem_of_cons]%elem_of_cons]%elem_of_cons; done.
Qed.

(** [Create] once the first method and its code are known. *)
Lemma Create_run I didDoc opts first rest code :
  docVerificationMethod didDoc = first :: rest ->
  KeyVDR.getKeyCode I "" first = inr code ->
  KeyVDR.Create I didDoc opts
  = let didKey := (KeyVDR.CreateDIDKeyByCode I code (vmValue first)).1 in
    let keyID := (KeyVDR.CreateDIDKeyByCode I code (vmValue first)).2 in
    let publicKey :=
      KeyVDR.NewVerificationMethodFromBytes I keyID (vmType first) didKey (vmValue first) in
    let derived :=
      if decide (vmType first = KeyVDR.ed25519VerificationKey2018) then
        match KeyVDR.PublicEd25519toCurve25519 I (vmValue first) with
        | inl err => inl err
        | inr curve =>
            inr (Some (KeyVDR.NewVerificationMethodFromBytes I
                         (didKey ++ "#"
                            ++ KeyVDR.KeyFingerprint I (KeyVDR.X25519PubKeyMultiCodec I) curve)
                         KeyVDR.x25519KeyAgreementKey2019 didKey curve))
        end
      else inr None in
    match derived with
    | inl err => inl err
    | inr keyAgr =>
        match encryptionKeyOption I opts with
        | None => inr (KeyVDR.createDoc I publicKey keyAgr didKey)
        | Some (KeyVDR.verificationMethodValue k) =>
            inr (KeyVDR.createDoc I publicKey k didKey)
        | Some (KeyVDR.otherValue _) =>
            inl (errorString "encryptionKey not VerificationMethod")
        end
    end.
Proof.
  intros Hvm Hcode. unfold KeyVDR.Create, encryptionKeyOption.
  rewrite Hvm, Hcode.
  destruct (KeyVDR.CreateDIDKeyByCode I code (vmValue first)) as [didKey keyID].
  cbn [fst snd]. unfold KeyVDR.keyAgreementFromEd25519.
  destruct (String.eqb_spec (vmType first) KeyVDR.ed25519VerificationKey2018) as [He|He].
  - rewrite decide_True by done.
    by destruct (KeyVDR.PublicEd25519toCurve25519 I (vmValue first)).
  - by rewrite decide_False.
Qed.



(** A successful [Create] had a first method with a key code. *)
Lemma Create_inr I didDoc opts d :
  KeyVDR.Create I didDoc opts = inr d ->
  exists first rest code,
    docVerificationMethod didDoc = first :: rest /\
    KeyVDR.getKeyCode I "" first = inr code.
Proof.
  unfold KeyVDR.Create. intros H.
  destruct (docVerificationMethod didDoc) as [|first rest]; [discriminate |].
  destruct (KeyVDR.getKeyCode I "" first) as [e|code] eqn:Hcode; [discriminate |].
  exists first, rest, code. by split.
Qed.

(** X16.  A document [Create] returns is built from the first verification
    method of the input alone, of which it reads the type and the key: its
    ID is the did:key of that key, its only verification method is that key
    under its did:key ID, authentication, assertion, capability delegation
    and capability invocation each hold that one method, by reference, key
    agreement holds at most one, and both time stamps are the one reading of
    the clock. *)
Theorem Create_document I didDoc opts d :
  KeyVDR.Create I didDoc opts = inr d ->
  exists first code,
    head (docVerificationMethod didDoc) = Some first /\
    KeyVDR.getKeyCode I "" first = inr code /\
    let didKey := (KeyVDR.CreateDIDKeyByCode I code (vmValue first)).1 in
    let keyID := (KeyVDR.CreateDIDKeyByCode I code (vmValue first)).2 in
    let publicKey :=
      KeyVDR.NewVerificationMethodFromBytes I keyID (vmType first) didKey (vmValue first) in
    KeyVDR.keyDocContext d = [KeyVDR.schemaV1] /\
    docID (KeyVDR.keyDocBody d) = didKey /\
    docVerificationMethod (KeyVDR.keyDocBody d) = [publicKey] /\
    docAuthentication (KeyVDR.keyDocBody d)
    = [KeyVDR.NewReferencedVerification I publicKey Authentication] /\
    docAssertionMethod (KeyVDR.keyDocBody d)
    = [KeyVDR.NewReferencedVerification I publicKey AssertionMethod] /\
    docCapabilityDelegation (KeyVDR.keyDocBody d)
    = [KeyVDR.NewReferencedVerification I publicKey CapabilityDelegation] /\
    docCapabilityInvocation (KeyVDR.keyDocBody d)
    = [KeyVDR.NewReferencedVerification I publicKey CapabilityInvocation] /\
    length (docKeyAgreement (KeyVDR.keyDocBody d)) <= 1 /\
    KeyVDR.keyDocCreated d = Some (KeyVDR.now I) /\
    KeyVDR.keyDocUpdated d = Some (KeyVDR.now I).
Proof.
  intros H. destruct (Create_inr _ _ _ _ H) as (first & rest & code & Hvm & Hcode).
  exists first, code. split; [by rewrite Hvm |]. split; [done |].
  rewrite (Create_run I didDoc opts first rest code Hvm Hcode) in H. cbv zeta in H.
  assert (Hdoc : exists ka,
             d = KeyVDR.createDoc I
                   (KeyVDR.NewVerificationMethodFromBytes I
                      (KeyVDR.CreateDIDKeyByCode I code (vmValue first)).2 (vmType first)
                      (KeyVDR.CreateDIDKeyByCode I code (vmValue first)).1 (vmValue first))
                   ka (KeyVDR.CreateDIDKeyByCode I code (vmValue first)).1).
  { destruct (decide (vmType first = KeyVDR.ed25519VerificationKey2018));
      [destruct (KeyVDR.PublicEd25519toCurve25519 I (vmValue first)); [discriminate |] |];
      destruct (encryptionKeyOption I opts) as [[k|s]|]; try discriminate;
      injection H as <-; by eexists. }
  destruct Hdoc as [ka ->]. cbv zeta. simpl.
  repeat (split; [reflexivity |]).
  split; [| done]. destruct ka; simpl; lia.
Qed.

Lemma Create_document_witness :
  KeyVDR.Create KeySample.imports (KeySample.docOf [KeySample.edKey; KeySample.jwkKey]) []
  = inr sampleEdDocument
  /\ docID (KeyVDR.keyDocBody sampleEdDocument) = "did:key:z6k1"
  /\ map vmID (docVerificationMethod (KeyVDR.keyDocBody sampleEdDocument))
     = ["did:key:z6k1#z6k1"].
Proof.
  split; [reflexivity |].
  destruct (Create_document KeySample.imports
              (KeySample.docOf [KeySample.edKey; KeySample.jwkKey]) [] sampleEdDocument
              eq_refl)
    as (first & code & Hhead & Hcode & _ & Hid & Hvm & _).
  injection Hhead as <-. injection Hcode as <-.
  split; [exact Hid |]. by rewrite Hvm.
Defined.

(** X17.  The key agreement of a created document.  A verification method
    given as the [EncryptionKey] option is the key agreement, embedded, in
    place of any derived one, and a nil one given there leaves the document
    without key agreement, also for an Ed25519 key.  Without the option an
    Ed25519 key gets the X25519 key converted from it, under the ID
    [<did>#<fingerprint>], and any other key gets none. *)
Theorem Create_key_agreement I didDoc opts d first :
  KeyVDR.Create I didDoc opts = inr d ->
  head (docVerificationMethod didDoc) = Some first ->
  let didKey := docID (KeyVDR.keyDocBody d) in
  (forall k, encryptionKeyOption I opts = Some (KeyVDR.verificationMethodValue k) ->
     docKeyAgreement (KeyVDR.keyDocBody d)
     = match k with
       | Some key => [KeyVDR.NewEmbeddedVerification I key KeyAgreement]
       | None => []
       end) /\
  (encryptionKeyOption I opts = None ->
   vmType first <> KeyVDR.ed25519VerificationKey2018 ->
   docKeyAgreement (KeyVDR.keyDocBody d) = []) /\
  (encryptionKeyOption I opts = None ->
   vmType first = KeyVDR.ed25519VerificationKey2018 ->
   exists curve,
     KeyVDR.PublicEd25519toCurve25519 I (vmValue first) = inr curve /\
     docKeyAgreement (KeyVDR.keyDocBody d)
     = [KeyVDR.NewEmbeddedVerification I
          (KeyVDR.NewVerificationMethodFromBytes I
             (didKey ++ "#"
                ++ KeyVDR.KeyFingerprint I (KeyVDR.X25519PubKeyMultiCodec I) curve)
             KeyVDR.x25519KeyAgreementKey2019 didKey curve)
          KeyAgreement]).
Proof.
  intros H Hhead.
  destruct (Create_inr _ _ _ _ H) as (first' & rest & code & Hvm & Hcode).
  rewrite Hvm in Hhead. injection Hhead as ->.
  rewrite (Create_run I didDoc opts first rest code Hvm Hcode) in H. cbv zeta in H.
  cbv zeta.
  destruct (decide (vmType first = KeyVDR.ed25519VerificationKey2018)) as [He|He].
  - destruct (KeyVDR.PublicEd25519toCurve25519 I (vmValue first)) as [e|curve];
      [discriminate |].
    destruct (encryptionKeyOption I opts) as [[k|s]|]; [| discriminate |];
      injection H as <-; simpl.
    + split; [by intros k' [= <-] |]. split; discriminate.
    + split; [discriminate |]. split; [done |]. intros _ _. by exists curve.
  - destruct (encryptionKeyOption I opts) as [[k|s]|]; [| discriminate |];
      injection H as <-; simpl.
    + split; [by intros k' [= <-] |]. split; discriminate.
    + split; [discriminate |]. split; [done | done].
Qed.

Lemma Create_key_agreement_witness :
  let doc := KeySample.docOf [KeySample.edKey] in
  let given := KeySample.withEncryptionKey
                 (KeyVDR.verificationMethodValue (Some KeySample.x25519Key)) in
  let none := KeySample.withEncryptionKey (KeyVDR.verificationMethodValue None) in
  (exists d, KeyVDR.Create KeySample.imports doc [none; given] = inr d /\
             docKeyAgreement (KeyVDR.keyDocBody d)
             = [mkVerification KeySample.x25519Key KeyAgreement])
  /\ (exists d, KeyVDR.Create KeySample.imports doc [given; none] = inr d /\
                docKeyAgreement (KeyVDR.keyDocBody d) = [])
  /\ docKeyAgreement (KeyVDR.keyDocBody sampleEdDocument)
     = [mkVerification
          (mkVerificationMethod "did:key:z6k1#z61k" KeyVDR.x25519KeyAgreementKey2019
                                (Sample.bytes "1k"))
          KeyAgreement].
Proof.
  intros doc given none. split; [| split].
  - eexists. split; [reflexivity |].
    pose proof (Create_key_agreement KeySample.imports doc [none; given] _ KeySample.edKey
                  eq_refl eq_refl) as H.
    cbv zeta in H. destruct H as (Hgiven & _ & _).
    exact (Hgiven (Some KeySample.x25519Key) eq_refl).
  - eexists. split; [reflexivity |].
    pose proof (Create_key_agreement KeySample.imports doc [given; none] _ KeySample.edKey
                  eq_refl eq_refl) as H.
    cbv zeta in H. destruct H as (Hgiven & _ & _).
    exact (Hgiven None eq_refl).
  - pose proof (Create_key_agreement KeySample.imports doc [] sampleEdDocument
                  KeySample.edKey eq_refl eq_refl) as H.
    cbv zeta in H. destruct H as (_ & _ & Hderived).
    destruct (Hderived eq_refl eq_refl) as (curve & Hcurve & Hka).
    injection Hcurve as <-. exact Hka.
Defined.

(** X18.  A JsonWebKey2020 key is accepted whatever its length, as long as
    the [EncryptionKey] option, if given, is a verification method.  Its
    code is read off the length of the key alone, 64, 96 and 132 bytes
    giving P-256, P-384 and P-521, and a key of any other length is given
    code 0 rather than an error: the DID is made with that code. *)
Theorem jwk_key_of_any_length I didDoc opts first rest :
  docVerificationMethod didDoc = first :: rest ->
  vmType first = KeyVDR.jsonWebKey2020 ->
  (forall s, encryptionKeyOption I opts <> Some (KeyVDR.otherValue s)) ->
  exists d,
    KeyVDR.Create I didDoc opts = inr d /\
    docID (KeyVDR.keyDocBody d)
    = (KeyVDR.CreateDIDKeyByCode I (codeByLength I (length (vmValue first)))
                                 (vmValue first)).1 /\
    (length (vmValue first) ∉ [64; 96; 132] ->
     docID (KeyVDR.keyDocBody d)
     = (KeyVDR.CreateDIDKeyByCode I 0%Z (vmValue first)).1).
Proof.
  intros Hvm Hty Hopt.
  assert (Hcode : KeyVDR.getKeyCode I "" first
                  = inr (codeByLength I (length (vmValue first)))).
  { rewrite getKeyCode_no_key_type, Hty.
    rewrite decide_True
      by (do 2 (apply elem_of_cons; right); apply elem_of_cons; by left).
    by rewrite !decide_False. }
  rewrite (Create_run I didDoc opts first rest _ Hvm Hcode). cbv zeta.
  rewrite decide_False by (rewrite Hty; done).
  assert (Hzero : length (vmValue first) ∉ [64; 96; 132] ->
                  codeByLength I (length (vmValue first)) = 0%Z).
  { intros Hlen. unfold codeByLength.
    rewrite !decide_False; [done | | |]; intros Heq; apply Hlen; rewrite Heq.
    - do 2 (apply elem_of_cons; right). apply elem_of_cons. by left.
    - apply elem_of_cons; right. apply elem_of_cons. by left.
    - apply elem_of_cons. by left. }
  destruct (encryptionKeyOption I opts) as [[k|s]|] eqn:Ho.
  - eexists. split; [reflexivity |]. simpl. split; [done |].
    intros Hlen. by rewrite (Hzero Hlen).
  - by destruct (Hopt s).
  - eexists. split; [reflexivity |]. simpl. split; [done |].
    intros Hlen. by rewrite (Hzero Hlen).
Qed.

Lemma jwk_key_of_any_length_witness :
  exists d,
    KeyVDR.Create KeySample.imports (KeySample.docOf [KeySample.jwkKey; KeySample.edKey]) []
    = inr d /\
    docID (KeyVDR.keyDocBody d) = "did:key:z0abc".
Proof.
  destruct (jwk_key_of_any_length KeySample.imports
              (KeySample.docOf [KeySample.jwkKey; KeySample.edKey]) []
              KeySample.jwkKey [KeySample.edKey] eq_refl eq_refl)
    as (d & Hrun & _ & Hzero).
  { intros s. vm_compute. discriminate. }
  exists d. split; [exact Hrun |].
  rewrite Hzero; [reflexivity |].
  intros [?|[?|[?|?%elem_of_nil]%elem_of_cons]%elem_of_cons]%elem_of_cons; done.
Defined.

(** * The signature of a JWT *)

Lemma firstKeyID_first pre h post :
  Forall (fun x => JWS.KeyID x = "") pre ->
  JWS.KeyID h <> "" ->
  JWS.firstKeyID (pre ++ h :: post)%list = JWS.KeyID h.
Proof.
  intros Hpre Hh. induction Hpre as [|x pre Hx _ IH]; simpl.
  - apply String.eqb_neq in Hh. by rewrite Hh.
  - by rewrite Hx.
Qed.

Lemma firstKeyID_none headers :
  Forall (fun x => JWS.KeyID x = "") headers ->
  JWS.firstKeyID headers = "".
Proof.
  induction 1 as [|x rest Hx _ IH]; simpl; [done |]. by rewrite Hx.
Qed.

(** X19.  The key a JWT is verified with is fetched for the first key ID
    among its headers that is not empty: headers before it, which have none,
    and every header after it play no part.  When no header has a key ID
    the key is fetched for the empty ID.  A failure of the fetcher or of the
    signature check is wrapped in the error returned. *)
Theorem jwt_key_id {PublicKey Claims : Type} (token : JWS.JSONWebToken PublicKey Claims)
        (fetcher : JWS.PublicKeyFetcher) (issuer : string) (pre rest : list JWS.Header) :
  JWS.Headers token = (pre ++ rest)%list ->
  Forall (fun x => JWS.KeyID x = "") pre ->
  (forall h, head rest = Some h -> JWS.KeyID h <> "") ->
  JWS.verifyJWTSignature token fetcher issuer
  = match fetcher issuer (match rest with h :: _ => JWS.KeyID h | [] => "" end) with
    | inl err =>
        inl (wrapError "failed to get public key for JWT signature verification" err)
    | inr publicKey =>
        match JWS.tokenClaims token publicKey with
        | inl err => inl (wrapError "JWT signature verification failed" err)
        | inr claims => inr claims
        end
    end.
Proof.
  intros Hh Hpre Hrest. unfold JWS.verifyJWTSignature. rewrite Hh.
  destruct rest as [|h post].
  - rewrite app_nil_r. by rewrite (firstKeyID_none _ Hpre).
  - by rewrite (firstKeyID_first pre h post Hpre (Hrest h eq_refl)).
Qed.

Lemma jwt_key_id_witness :
  let fetcher : JWS.PublicKeyFetcher :=
    fun _ keyID => if String.eqb keyID "key-2" then inr 2%nat
                   else inl (errorString "no such key") in
  let token := JWS.mkJSONWebToken
                 [JWS.mkHeader ""; JWS.mkHeader "key-2"; JWS.mkHeader "key-3"]
                 (fun publicKey : nat => if decide (publicKey = 2%nat) then inr "claims"
                                   else inl (errorString "bad signature")) in
  JWS.verifyJWTSignature token fetcher "did:example:alice" = inr "claims".
Proof.
  intros fetcher token.
  rewrite (jwt_key_id token fetcher "did:example:alice" [JWS.mkHeader ""]
             [JWS.mkHeader "key-2"; JWS.mkHeader "key-3"]).
  - reflexivity.
  - reflexivity.
  - by constructor.
  - intros h [= <-]. discriminate.
Defined.
